(** * Exhibit assembly pipeline of the Visa Exhibit Generator (app.py)

    A shallow embedding of [generate_exhibits_v2.process_func], of
    [to_roman] and [get_pdf_page_count], and of the step state machine of
    the background processor they report to, followed by the properties
    that the design document states about them.

    Conventions.
    - A Python [str] is a Rocq [string] holding its UTF-8 bytes; [bytes]
      are lists of [byte].
    - A Python [int] is a [Z]; an index of [enumerate] is a [nat].
    - Python's true division [/] yields a float; the percentages computed
      with it are modelled by the exact rationals of [Q].
    - A call that may raise returns an [outcome]; the pipeline runs in the
      monad [M], which threads the file system and session state, records
      every call made on the processor, and stops at the first exception
      that no [try] catches.
    - External collaborators (PDF handler, compressor, AI classifier,
      template engine, operating system) are fields of the record [env].
    - The disk maps a path to the bytes of the regular file found there.
      Opening a file for writing, [tempfile.mkdtemp()] and the
      constructors [PDFHandler(...)] and [AIClassifier(...)] are taken to
      succeed; [print] is not modelled. *)

From Stdlib Require Import ZArith QArith Qminmax String Ascii List Lia.
From Stdlib Require Import DecimalString DecimalZ DecimalPos.
From stdpp Require Import gmap strings list.
From Equations Require Import Equations.

Local Open Scope string_scope.
Local Open Scope list_scope.
Local Open Scope Z_scope.

(** ** Python values *)

Definition bytes := list Byte.byte.

(** The result of evaluating a Python expression or statement: a value,
    or a raised exception (identified by its message). *)
Inductive outcome (A : Type) : Type :=
| Ret (a : A)
| Raise (e : string).
Arguments Ret {A} a.
Arguments Raise {A} e.

Definition is_ret {A} (o : outcome A) : bool :=
  match o with Ret _ => true | Raise _ => false end.

Definition byte_char (z : Z) : ascii := ascii_of_N (Z.to_N z).

(** UTF-8 bytes of the code point [cp]. *)
Definition utf8 (cp : Z) : string :=
  if cp <? 128 then String (byte_char cp) ""
  else if cp <? 2048 then
    String (byte_char (192 + cp / 64))
      (String (byte_char (128 + cp mod 64)) "")
  else if cp <? 65536 then
    String (byte_char (224 + cp / 4096))
      (String (byte_char (128 + (cp / 64) mod 64))
         (String (byte_char (128 + cp mod 64)) ""))
  else
    String (byte_char (240 + cp / 262144))
      (String (byte_char (128 + (cp / 4096) mod 64))
         (String (byte_char (128 + (cp / 64) mod 64))
            (String (byte_char (128 + cp mod 64)) ""))).

(** [chr(n)]: the one-character string of code point [n]; ValueError
    outside [range(0x110000)]. *)
Definition chr (n : Z) : outcome string :=
  if (0 <=? n) && (n <? 1114112) then Ret (utf8 n)
  else Raise "ValueError: chr() arg not in range(0x110000)".

(** [str(n)] for an [int]. *)
Definition str (n : Z) : string := NilZero.string_of_int (Z.to_int n).

(** ** [to_roman] (app.py, lines 2476-2487) *)

Definition val : list Z :=
  [1000; 900; 500; 400; 100; 90; 50; 40; 10; 9; 5; 4; 1].
Definition syms : list string :=
  ["M"; "CM"; "D"; "CD"; "C"; "XC"; "L"; "XL"; "X"; "IX"; "V"; "IV"; "I"].

(** The inner [for _ in range(num // val[i])]: the trip count is fixed
    when the loop starts; each trip appends the symbol and subtracts its
    value.  The state is [(num, roman_num)]. *)
Fixpoint to_roman_for (trips : nat) (sym : string) (v : Z)
    (num : Z) (roman_num : string) : Z * string :=
  match trips with
  | O => (num, roman_num)
  | S trips' => to_roman_for trips' sym v (num - v) (roman_num +:+ sym)
  end.

Definition inspect {A} (a : A) : {b | a = b} := exist _ a eq_refl.

(** The [while num > 0] loop.  Indexing past the end of [val] raises
    IndexError, which also bounds the number of iterations. *)
Equations? to_roman_while (num : Z) (i : nat) (roman_num : string)
    : outcome string by wf (length val - i)%nat lt :=
  to_roman_while num i roman_num with (0 <? num) => {
    | false := Ret roman_num
    | true with inspect (val !! i) => {
       | exist _ None _ := Raise "IndexError: list index out of range"
       | exist _ (Some v) Hv with syms !! i => {
          | None := Raise "IndexError: list index out of range"
          | Some s :=
              let st := to_roman_for (Z.to_nat (num / v)) s v num roman_num in
              to_roman_while (fst st) (S i) (snd st) } } }.
Proof.
  apply lookup_lt_Some in Hv. simpl in *. lia.
Qed.

Definition to_roman (num : Z) : outcome string := to_roman_while num 0 "".

(** ** Exhibit numbers (app.py, lines 2232-2237)

    [exhibit_num] for position [i] of [enumerate(file_paths)]. *)
Definition exhibit_number (numbering_style : string) (i : nat)
    : outcome string :=
  let i := Z.of_nat i in
  if String.eqb numbering_style "letters" then
    if i <? 26 then chr (65 + i)
    else match chr (65 + i - 26) with
         | Ret c => Ret ("A" +:+ c)
         | Raise e => Raise e
         end
  else if String.eqb numbering_style "numbers" then Ret (str (i + 1))
  else to_roman (i + 1).

(** *** Reference numberings, written from the design document *)

(** Bijective base-26 numeral of [n >= 1] over [A..Z]: 1 is A, 26 is Z,
    27 is AA, 52 is AZ, 53 is BA.  [fuel] bounds the number of letters. *)
Fixpoint bijective26 (fuel : nat) (n : Z) : string :=
  match fuel with
  | O => ""
  | S fuel' =>
      if n <=? 0 then ""
      else bijective26 fuel' ((n - 1) / 26)
             +:+ String (byte_char (65 + (n - 1) mod 26)) ""
  end.

(** The letter label of 0-based position [i] in [A, ..., Z, AA, AB, ...]. *)
Definition letter_sequence (i : nat) : string :=
  bijective26 (S i) (Z.of_nat i + 1).

Definition roman_units : list string :=
  [""; "I"; "II"; "III"; "IV"; "V"; "VI"; "VII"; "VIII"; "IX"].
Definition roman_tens : list string :=
  [""; "X"; "XX"; "XXX"; "XL"; "L"; "LX"; "LXX"; "LXXX"; "XC"].
Definition roman_hundreds : list string :=
  [""; "C"; "CC"; "CCC"; "CD"; "D"; "DC"; "DCC"; "DCCC"; "CM"].
Definition roman_thousands : list string := [""; "M"; "MM"; "MMM"].

Definition roman_digit (table : list string) (d : Z) : string :=
  default "" (table !! Z.to_nat d).

(** The canonical subtractive-notation numeral of [n].  There is one for
    1 to 3999 only: its thousands, hundreds, tens and units digits, each
    from its table. *)
Definition canonical_roman (n : Z) : option string :=
  if (1 <=? n) && (n <=? 3999) then
    Some (roman_digit roman_thousands (n / 1000)
            +:+ roman_digit roman_hundreds ((n / 100) mod 10)
            +:+ roman_digit roman_tens ((n / 10) mod 10)
            +:+ roman_digit roman_units (n mod 10))
  else None.

(** [occurs needle hay]: [needle] is a substring of [hay]. *)
Fixpoint occurs (needle hay : string) : bool :=
  String.prefix needle hay
  || match hay with
     | EmptyString => false
     | String _ hay' => occurs needle hay'
     end.

(** Additive forms that subtractive notation rules out: four of I, X, C
    or M in a row, two of V, L or D. *)
Definition additive_forms : list string :=
  ["IIII"; "XXXX"; "CCCC"; "MMMM"; "VV"; "LL"; "DD"].

(** *** The numeral that the greedy reduction writes *)

Fixpoint repeat_string (s : string) (n : nat) : string :=
  match n with
  | O => ""
  | S n' => s +:+ repeat_string s n'
  end.

(** A closed form of what [to_roman] returns for [n >= 0]: one M per
    thousand, without bound, then the hundreds, tens and units digits
    from their tables. *)
Definition roman_by_digits (n : Z) : string :=
  repeat_string "M" (Z.to_nat (n / 1000))
    +:+ roman_digit roman_hundreds ((n / 100) mod 10)
    +:+ roman_digit roman_tens ((n / 10) mod 10)
    +:+ roman_digit roman_units (n mod 10).

(** The three digits below the thousands of [roman_by_digits]. *)
Definition below_thousand (r : Z) : string :=
  roman_digit roman_hundreds ((r / 100) mod 10)
    +:+ roman_digit roman_tens ((r / 10) mod 10)
    +:+ roman_digit roman_units (r mod 10).

Definition outcome_is (o : outcome string) (s : string) : bool :=
  match o with
  | Ret r => String.eqb r s
  | Raise _ => false
  end.

Definition prepend (acc : string) (o : outcome string) : outcome string :=
  match o with
  | Ret r => Ret (acc +:+ r)
  | Raise e => Raise e
  end.

(** ** Paths ([os.path], POSIX flavour) *)

Definition isabs (p : string) : bool := String.prefix "/" p.

Fixpoint ends_with_slash (p : string) : bool :=
  match p with
  | EmptyString => false
  | String c EmptyString => Ascii.eqb c "/"
  | String _ p' => ends_with_slash p'
  end.

(** [os.path.join(a, b)]: an absolute [b] discards [a]. *)
Definition path_join (a b : string) : string :=
  if isabs b then b
  else if String.eqb a "" || ends_with_slash a then a +:+ b
  else a +:+ "/" +:+ b.

Fixpoint basename_from (acc p : string) : string :=
  match p with
  | EmptyString => acc
  | String c p' =>
      if Ascii.eqb c "/" then basename_from "" p'
      else basename_from (acc +:+ String c "") p'
  end.

(** [os.path.basename(p)]: what follows the last slash. *)
Definition basename (p : string) : string := basename_from "" p.

(** ** Data of the pipeline *)

(** One entry of [st.session_state.uploaded_files]: [file.name] and the
    bytes that [file.read()] returns. *)
Record uploaded_file := {
  name : string;
  read : bytes }.

(** One entry of [st.session_state.zip_files]: a [str], or some other
    object (given by its printed form). *)
Inductive zip_entry :=
| PathStr (p : string)
| NotStr (printed : string).

(** The [config] dictionary built by the sidebar. *)
Record config := {
  enable_compression : bool;
  quality_preset : string;
  smallpdf_api_key : option string;
  numbering_style : string;
  visa_type : string;
  add_toc : bool;
  add_cover_letter : bool;
  add_filing_instructions : bool;
  merge_pdfs : bool;
  include_full_text_images : bool }.

(** The dictionary returned by [compressor.compress]; the pipeline reads
    it with [.get], so every key but the flag may be missing. *)
Record comp_result := {
  success : bool;
  cr_original_size : option Z;
  cr_compressed_size : option Z;
  cr_reduction_percent : option Q;
  cr_method : option string }.

(** The dictionary returned by [classifier.analyze_pdf]. *)
Record pdf_analysis := {
  summary : option string;
  document_type : option string;
  dates : list string;
  forms : list string;
  visa_mentions : list string;
  entities : list string }.

Record compression_info := {
  reduction : Q;
  method : string }.

(** [exhibit_info].  The keys [summary], [document_type], [dates],
    [forms], [visa_mentions] and [entities] are set together with
    [analysis] as copies of its fields, so they are read through
    [analysis]. *)
Record exhibit_info := {
  number : string;
  title : string;
  filename : string;
  pages : Z;
  analysis : option pdf_analysis;
  compression : option compression_info }.

Definition get_summary (e : exhibit_info) : option string :=
  match analysis e with
  | Some a => summary a
  | None => None
  end.

(** The [result] dictionary.  [cover_letter_path] and
    [filing_instructions_path] are keys that may be missing ([None]),
    or present with a path or with Python's [None] ([Some None]). *)
Record result := {
  exhibits : list exhibit_info;
  total_pages : Z;
  original_size : Z;
  compressed_size : Z;
  output_file : option string;
  cover_letter_path : option (option string);
  filing_instructions_path : option (option string) }.

Record compression_stats := {
  cs_original_size : Z;
  cs_compressed_size : Z;
  avg_reduction : Q;
  cs_method : string;
  quality : string }.

(** The keys of [st.session_state] that the pipeline writes. *)
Record session_state := {
  session_exhibit_list : option (list exhibit_info);
  session_compression_stats : option compression_stats;
  session_exhibits_generated : bool }.

(** ** Calls on the background processor *)

Inductive step_status := Pending | Running | Complete | Error.

Inductive proc_call :=
| update_step (step : string) (status : step_status)
    (error_message : option string)
| set_step_progress (step : string) (percent : Q)
| complete_step (step : string).

Definition call_step (c : proc_call) : string :=
  match c with
  | update_step s _ _ => s
  | set_step_progress s _ => s
  | complete_step s => s
  end.

(** ** The pipeline monad *)

(** The mutable surroundings of a run: the files on disk and the
    session state. *)
Record world := {
  disk : gmap string bytes;
  session : session_state }.

Definition set_disk (d : gmap string bytes) (w : world) : world :=
  {| disk := d; session := session w |}.
Definition set_session (s : session_state) (w : world) : world :=
  {| disk := disk w; session := s |}.

(** What running a piece of the pipeline leaves behind: the processor
    calls it made, in order, the world it ended in, and its value or the
    exception that escaped. *)
Record run (A : Type) := {
  calls : list proc_call;
  final : world;
  out : outcome A }.
Arguments calls {A} r.
Arguments final {A} r.
Arguments out {A} r.

Definition M (A : Type) : Type := world -> run A.

Definition ret {A} (a : A) : M A :=
  fun w => {| calls := []; final := w; out := Ret a |}.

Definition raise {A} (e : string) : M A :=
  fun w => {| calls := []; final := w; out := Raise e |}.

Definition bind {A B} (m : M A) (k : A -> M B) : M B :=
  fun w =>
    let r := m w in
    match out r with
    | Raise e => {| calls := calls r; final := final r; out := Raise e |}
    | Ret a =>
        let r' := k a (final r) in
        {| calls := calls r ++ calls r'; final := final r'; out := out r' |}
    end.

Notation "'do' x <- m ; k" := (bind m (fun x => k))
  (at level 10, x name, m at level 100, k at level 200).
Notation "'do' ' p <- m ; k" := (bind m (fun x => match x with p => k end))
  (at level 10, p pattern, m at level 100, k at level 200).
Notation "m ;; k" := (bind m (fun _ => k))
  (at level 100, k at level 200, right associativity).

(** [try: m except Exception as e: handler e].  What [m] did before it
    raised stays done. *)
Definition catch {A} (m : M A) (handler : string -> M A) : M A :=
  fun w =>
    let r := m w in
    match out r with
    | Ret a => r
    | Raise e =>
        let r' := handler e (final r) in
        {| calls := calls r ++ calls r'; final := final r'; out := out r' |}
    end.

(** A call on [proc]. *)
Definition emit (c : proc_call) : M unit :=
  fun w => {| calls := [c]; final := w; out := Ret tt |}.

Definition get_disk : M (gmap string bytes) :=
  fun w => {| calls := []; final := w; out := Ret (disk w) |}.

Definition lift_outcome {A} (o : outcome A) : M A :=
  fun w => {| calls := []; final := w; out := o |}.

(** A collaborator reads and writes files and returns or raises; it has
    no access to the processor or to the session. *)
Definition collaborator (A : Type) : Type :=
  gmap string bytes -> gmap string bytes * outcome A.

Definition call {A} (c : collaborator A) : M A :=
  fun w =>
    let '(d, o) := c (disk w) in
    {| calls := []; final := set_disk d w; out := o |}.

Definition modify_session (f : session_state -> session_state) : M unit :=
  fun w => {| calls := []; final := set_session (f (session w)) w;
              out := Ret tt |}.

(** [with open(path, 'wb') as f: f.write(data)]. *)
Definition write_file (path : string) (data : bytes) : M unit :=
  fun w => {| calls := []; final := set_disk (<[path := data]> (disk w)) w;
              out := Ret tt |}.

(** [shutil.copy(src, dst)] between regular files. *)
Definition shutil_copy (src dst : string) : M unit :=
  fun w =>
    match disk w !! src with
    | None => raise ("FileNotFoundError: " +:+ src) w
    | Some data =>
        if String.eqb src dst
        then raise ("SameFileError: " +:+ src) w
        else write_file dst data w
    end.

(** [for i, x in enumerate(l)], started at index [i], with the variables
    the body assigns as loop state. *)
Fixpoint for_enumerate {X St : Type} (body : nat -> X -> St -> M St)
    (i : nat) (l : list X) (s : St) : M St :=
  match l with
  | [] => ret s
  | x :: l' => do s' <- body i x s; for_enumerate body (S i) l' s'
  end.

(** [for x in l]. *)
Definition for_each {X St : Type} (body : X -> St -> M St)
    (l : list X) (s : St) : M St :=
  for_enumerate (fun _ => body) 0 l s.

(** [done / total * 100]. *)
Definition percent_of (done total : Z) : Q :=
  inject_Z done / inject_Z total * 100.

(** ** Collaborators *)

(** Everything the pipeline calls but does not define: the operating
    system, [PDFHandler], [AIClassifier], [DOCXTemplateEngine] and
    PyPDF2.  Their behaviour is arbitrary. *)
Record env := {
  (** [tempfile.mkdtemp()]: the working directory of the run. *)
  mkdtemp : string;
  (** [tempfile.gettempdir()]. *)
  gettempdir : string;
  (** [datetime.now().strftime('%Y%m%d_%H%M%S')] at the merge step. *)
  now_stamp : string;
  (** [Path(p).stem]. *)
  stem : string -> string;
  (** [len(PdfReader(pdf_path).pages)]. *)
  pdf_reader_pages : gmap string bytes -> string -> outcome Z;
  (** [pdf_handler.compressor] ([None] when there is none) and its
      [compress] method. *)
  compressor : option (string -> collaborator comp_result);
  (** [pdf_handler.add_exhibit_number_with_cover(file_path, number,
      title, summary, extracted_text, content_bytes)]. *)
  add_exhibit_number_with_cover :
    string -> string -> option string -> option string ->
    option string -> option bytes -> collaborator string;
  (** [pdf_handler.generate_table_of_contents(exhibit_list, visa_type,
      destination)]. *)
  generate_table_of_contents :
    list exhibit_info -> string -> string -> collaborator string;
  (** [pdf_handler.merge_pdfs(files, destination)]. *)
  pdf_merge : list string -> string -> collaborator string;
  (** [classifier.generate_short_label(content, filename, visa_type)]. *)
  generate_short_label : bytes -> string -> string -> outcome (option string);
  (** [classifier.analyze_pdf(content, filename, visa_type)]. *)
  analyze_pdf : bytes -> string -> string -> outcome (option pdf_analysis);
  (** [classifier.extract_text_from_pdf(content, max_chars=200000)]. *)
  extract_text_from_pdf : bytes -> outcome (option string);
  (** The body of the cover-letter [try]: case data, template engine and
      [engine.generate_cover_letter(case, exhibit_list, destination)]. *)
  generate_cover_letter :
    string -> list exhibit_info -> string -> collaborator unit;
  (** The body of the filing-instructions [try]. *)
  generate_filing_instructions :
    string -> list exhibit_info -> string -> collaborator unit }.

(** [get_pdf_page_count] (app.py, lines 2466-2473): any failure of the
    reader counts as zero pages. *)
Definition get_pdf_page_count (E : env) (d : gmap string bytes)
    (pdf_path : string) : Z :=
  match pdf_reader_pages E d pdf_path with
  | Ret n => n
  | Raise _ => 0
  end.

(** ** [process_func] (app.py, lines 2161-2461) *)

(** The local variables of the number step. *)
Record number_vars := {
  numbered_files : list string;
  exhibit_list : list exhibit_info;
  (** [content_bytes] keeps its value from one item to the next;
      [None] while it is still unbound. *)
  content_bytes : option bytes;
  number_total_pages : Z }.

Definition initial_result : result :=
  {| exhibits := []; total_pages := 0; original_size := 0;
     compressed_size := 0; output_file := None;
     cover_letter_path := None; filing_instructions_path := None |}.

Definition add_sizes (c : comp_result) (r : result) : result :=
  {| exhibits := exhibits r; total_pages := total_pages r;
     original_size := original_size r + default 0 (cr_original_size c);
     compressed_size := compressed_size r + default 0 (cr_compressed_size c);
     output_file := output_file r;
     cover_letter_path := cover_letter_path r;
     filing_instructions_path := filing_instructions_path r |}.

Definition set_total_pages (n : Z) (r : result) : result :=
  {| exhibits := exhibits r; total_pages := n;
     original_size := original_size r;
     compressed_size := compressed_size r;
     output_file := output_file r;
     cover_letter_path := cover_letter_path r;
     filing_instructions_path := filing_instructions_path r |}.

Definition set_output_file (o : option string) (r : result) : result :=
  {| exhibits := exhibits r; total_pages := total_pages r;
     original_size := original_size r;
     compressed_size := compressed_size r;
     output_file := o;
     cover_letter_path := cover_letter_path r;
     filing_instructions_path := filing_instructions_path r |}.

Definition set_cover_letter_path (p : option string) (r : result) : result :=
  {| exhibits := exhibits r; total_pages := total_pages r;
     original_size := original_size r;
     compressed_size := compressed_size r;
     output_file := output_file r;
     cover_letter_path := Some p;
     filing_instructions_path := filing_instructions_path r |}.

Definition set_filing_instructions_path (p : option string) (r : result)
    : result :=
  {| exhibits := exhibits r; total_pages := total_pages r;
     original_size := original_size r;
     compressed_size := compressed_size r;
     output_file := output_file r;
     cover_letter_path := cover_letter_path r;
     filing_instructions_path := Some p |}.

Definition set_title (t : string) (e : exhibit_info) : exhibit_info :=
  {| number := number e; title := t; filename := filename e;
     pages := pages e; analysis := analysis e;
     compression := compression e |}.

Definition set_analysis (a : pdf_analysis) (e : exhibit_info)
    : exhibit_info :=
  {| number := number e; title := title e; filename := filename e;
     pages := pages e; analysis := Some a;
     compression := compression e |}.

Definition set_compression (c : compression_info) (e : exhibit_info)
    : exhibit_info :=
  {| number := number e; title := title e; filename := filename e;
     pages := pages e; analysis := analysis e;
     compression := Some c |}.

(** Truth value of a label: [None] and the empty string are false. *)
Definition label_given (short_label : option string) : option string :=
  match short_label with
  | Some s => if String.eqb s "" then None else Some s
  | None => None
  end.

(** [avg_reduction] of the finalize step (lines 2444-2447). *)
Definition average_reduction (r : result) : Q :=
  if 0 <? original_size r
  then (1 - inject_Z (compressed_size r)
              / inject_Z (Z.max (original_size r) 1)) * 100
  else 0.

Section Pipeline.

Variable E : env.
Variable cfg : config.
Variable files : list uploaded_file.
Variable zip_files : list zip_entry.

Definition tmp_dir : string := mkdtemp E.

(** *** Step 1: extract (lines 2177-2199) *)

(** Body of [for i, file in enumerate(files)]. *)
Definition extract_upload (i : nat) (file : uploaded_file)
    (file_paths : list string) : M (list string) :=
  let file_path := path_join tmp_dir (name file) in
  write_file file_path (read file) ;;
  let file_paths := file_paths ++ [file_path] in
  emit (set_step_progress "extract"
          (percent_of (Z.of_nat i + 1)
             (Z.max (Z.of_nat (length files)) 1))) ;;
  ret file_paths.

(** Body of [for file_path in zip_files]. *)
Definition extract_zip (file_path : zip_entry) (file_paths : list string)
    : M (list string) :=
  match file_path with
  | NotStr printed =>
      emit (update_step "extract" Error
              (Some ("Invalid zip file path: " +:+ printed))) ;;
      ret file_paths
  | PathStr p =>
      if negb (isabs p) then
        emit (update_step "extract" Error
                (Some ("Invalid zip file path: " +:+ p))) ;;
        ret file_paths
      else
        do d <- get_disk;
        if bool_decide (is_Some (d !! p)) then
          let dest := path_join tmp_dir (basename p) in
          shutil_copy p dest ;;
          ret (file_paths ++ [dest])
        else
          emit (update_step "extract" Error
                  (Some ("Zip file not found: " +:+ p))) ;;
          ret file_paths
  end.

Definition extract_step : M (list string) :=
  emit (update_step "extract" Running None) ;;
  do file_paths <- for_enumerate extract_upload 0 files [];
  do file_paths <- for_each extract_zip zip_files file_paths;
  emit (complete_step "extract") ;;
  ret file_paths.

(** *** Step 2: compress (lines 2201-2220) *)

(** Body of the compression loop; the state is [compression_results]
    and [result]. *)
Definition compress_item (compress : string -> collaborator comp_result)
    (file_paths : list string) (i : nat) (file_path : string)
    (st : list comp_result * result) : M (list comp_result * result) :=
  let '(compression_results, res) := st in
  do comp_result <- call (compress file_path);
  let st :=
    if success comp_result
    then (compression_results ++ [comp_result], add_sizes comp_result res)
    else (compression_results, res) in
  emit (set_step_progress "compress"
          (percent_of (Z.of_nat i + 1) (Z.of_nat (length file_paths)))) ;;
  ret st.

Definition compress_step (file_paths : list string) (res : result)
    : M (list comp_result * result) :=
  do st <-
    (if enable_compression cfg then
       match compressor E with
       | Some compress =>
           emit (update_step "compress" Running None) ;;
           for_enumerate (compress_item compress file_paths) 0 file_paths
             ([], res)
       | None => ret ([], res)
       end
     else ret ([], res));
  emit (complete_step "compress") ;;
  ret st.

(** *** Step 3: number (lines 2222-2308) *)

(** The first [try] of the loop body: read the file, ask the classifier
    for a label and an analysis.  Returns the new [content_bytes] and
    [exhibit_info]; an exception leaves [exhibit_info] as it was. *)
Definition ai_label (d : gmap string bytes) (file_path : string)
    (previous_bytes : option bytes) (info : exhibit_info)
    : option bytes * exhibit_info :=
  match d !! file_path with
  | None => (previous_bytes, info)
  | Some content =>
      match generate_short_label E content (filename info)
              (visa_type cfg) with
      | Raise _ => (Some content, info)
      | Ret short_label =>
          match analyze_pdf E content (filename info) (visa_type cfg) with
          | Raise _ => (Some content, info)
          | Ret found =>
              let info :=
                match label_given short_label with
                | Some l => set_title l info
                | None => info
                end in
              let info :=
                match found with
                | Some a => set_analysis a info
                | None => info
                end in
              (Some content, info)
          end
      end
  end.

(** The second [try]: the cover-paginated copy, with the plain call as
    the handler.  Reading an unbound [content_bytes] raises NameError. *)
Definition numbered_copy (file_path exhibit_num : string)
    (bound_bytes : option bytes) (info : exhibit_info) : M string :=
  catch
    (if include_full_text_images cfg then
       match bound_bytes with
       | None =>
           raise "NameError: name 'content_bytes' is not defined"
       | Some content =>
           let extracted_text :=
             match extract_text_from_pdf E content with
             | Ret t => t
             | Raise _ => None
             end in
           call (add_exhibit_number_with_cover E file_path exhibit_num
                   (Some (title info)) (get_summary info)
                   extracted_text (Some content))
       end
     else
       call (add_exhibit_number_with_cover E file_path exhibit_num
               (Some (title info)) (get_summary info) None None))
    (fun _ =>
       call (add_exhibit_number_with_cover E file_path exhibit_num
               None None None None)).

(** [exhibit_info['compression']] (lines 2297-2301). *)
Definition attach_compression (compression_results : list comp_result)
    (i : nat) (info : exhibit_info) : exhibit_info :=
  match compression_results !! i with
  | Some c =>
      set_compression
        {| reduction := default 0%Q (cr_reduction_percent c);
           method := default "none" (cr_method c) |}
        info
  | None => info
  end.

(** Body of [for i, file_path in enumerate(file_paths)]. *)
Definition number_item (compression_results : list comp_result)
    (file_paths : list string) (i : nat) (file_path : string)
    (v : number_vars) : M number_vars :=
  do exhibit_num <- lift_outcome (exhibit_number (numbering_style cfg) i);
  do d <- get_disk;
  let info :=
    {| number := exhibit_num;
       title := stem E file_path;
       filename := basename file_path;
       pages := get_pdf_page_count E d file_path;
       analysis := None;
       compression := None |} in
  let labelled := ai_label d file_path (content_bytes v) info in
  let bound_bytes := fst labelled in
  let info := snd labelled in
  do numbered_file <- numbered_copy file_path exhibit_num bound_bytes info;
  let info := attach_compression compression_results i info in
  emit (set_step_progress "number"
          (percent_of (Z.of_nat i + 1) (Z.of_nat (length file_paths)))) ;;
  ret {| numbered_files := numbered_files v ++ [numbered_file];
         exhibit_list := exhibit_list v ++ [info];
         content_bytes := bound_bytes;
         number_total_pages := number_total_pages v + pages info |}.

Definition number_step (compression_results : list comp_result)
    (file_paths : list string) (res : result) : M number_vars :=
  emit (update_step "number" Running None) ;;
  do v <- for_enumerate (number_item compression_results file_paths) 0
            file_paths
            {| numbered_files := []; exhibit_list := [];
               content_bytes := None;
               number_total_pages := total_pages res |};
  emit (complete_step "number") ;;
  ret v.

(** *** Step 4: table of contents (lines 2310-2319) *)

Definition toc_step (numbered_files : list string)
    (exhibit_list : list exhibit_info) : M (list string) :=
  do numbered_files <-
    (if add_toc cfg then
       emit (update_step "toc" Running None) ;;
       do toc_file <-
         call (generate_table_of_contents E exhibit_list (visa_type cfg)
                 (path_join tmp_dir "TOC.pdf"));
       ret (toc_file :: numbered_files)
     else ret numbered_files);
  emit (complete_step "toc") ;;
  ret numbered_files.

(** *** Step 5: cover letter (lines 2321-2366) *)

Definition cover_step (exhibit_list : list exhibit_info) (res : result)
    : M result :=
  do res <-
    (if add_cover_letter cfg then
       emit (update_step "cover" Running None) ;;
       catch
         (let cover_letter_path := path_join tmp_dir "Cover_Letter.docx" in
          call (generate_cover_letter E (visa_type cfg) exhibit_list
                  cover_letter_path) ;;
          ret (set_cover_letter_path (Some cover_letter_path) res))
         (fun _ => ret (set_cover_letter_path None res))
     else ret res);
  emit (complete_step "cover") ;;
  ret res.

(** *** Step 5a: filing instructions (lines 2368-2403) *)

Definition filing_instructions_step (exhibit_list : list exhibit_info)
    (res : result) : M result :=
  emit (update_step "filing_instructions" Running None) ;;
  do res <-
    (if add_filing_instructions cfg then
       catch
         (let filing_path := path_join tmp_dir "Filing_Instructions.docx" in
          call (generate_filing_instructions E (visa_type cfg) exhibit_list
                  filing_path) ;;
          ret (set_filing_instructions_path (Some filing_path) res))
         (fun _ => ret (set_filing_instructions_path None res))
     else ret res);
  emit (complete_step "filing_instructions") ;;
  ret res.

(** *** Merge (lines 2405-2435) *)

Definition package_path : string :=
  path_join (gettempdir E) ("exhibit_package_" +:+ now_stamp E +:+ ".pdf").

Definition merge_step (numbered_files : list string) (res : result)
    : M result :=
  emit (update_step "merge" Running None) ;;
  do res <-
    match numbered_files with
    | first_file :: _ =>
        if merge_pdfs cfg then
          let output_file := path_join tmp_dir "final_package.pdf" in
          do merged_file <- call (pdf_merge E numbered_files output_file);
          let final_output := package_path in
          shutil_copy merged_file final_output ;;
          ret (set_output_file (Some final_output) res)
        else
          let final_output := package_path in
          shutil_copy first_file final_output ;;
          ret (set_output_file (Some final_output) res)
    | [] => ret (set_output_file None res)
    end;
  emit (complete_step "merge") ;;
  ret res.

(** *** Finalize (lines 2437-2458) *)

Definition finalize_step (exhibit_list : list exhibit_info)
    (compression_results : list comp_result) (res : result) : M result :=
  emit (update_step "finalize" Running None) ;;
  modify_session (fun s =>
    {| session_exhibit_list := Some exhibit_list;
       session_compression_stats := session_compression_stats s;
       session_exhibits_generated := session_exhibits_generated s |}) ;;
  match compression_results with
  | first_result :: _ =>
      let avg_reduction := average_reduction res in
      modify_session (fun s =>
        {| session_exhibit_list := session_exhibit_list s;
           session_compression_stats :=
             Some {| cs_original_size := original_size res;
                     cs_compressed_size := compressed_size res;
                     avg_reduction := avg_reduction;
                     cs_method := default "unknown" (cr_method first_result);
                     quality := quality_preset cfg |};
           session_exhibits_generated := session_exhibits_generated s |})
  | [] => ret tt
  end ;;
  modify_session (fun s =>
    {| session_exhibit_list := session_exhibit_list s;
       session_compression_stats := session_compression_stats s;
       session_exhibits_generated := true |}) ;;
  emit (complete_step "finalize") ;;
  ret res.

(** *** The whole function *)

(** The statements inside the outer [try]. *)
Definition process_steps : M result :=
  let res := initial_result in
  do file_paths <- extract_step;
  do '(compression_results, res) <- compress_step file_paths res;
  do v <- number_step compression_results file_paths res;
  let res := set_total_pages (number_total_pages v) res in
  do numbered_files <- toc_step (numbered_files v) (exhibit_list v);
  do res <- cover_step (exhibit_list v) res;
  do res <- filing_instructions_step (exhibit_list v) res;
  do res <- merge_step numbered_files res;
  finalize_step (exhibit_list v) compression_results res.

(** [except Exception as e: raise RuntimeError(...)]. *)
Definition process_func : M result :=
  catch process_steps
    (fun e => raise ("Failed to process exhibits: " +:+ e)).

End Pipeline.

(** ** The background processor

    Modelled from the spec: the step state machine and the run wrapper
    of [components/background_processor.py], which is not part of the
    sources at hand.  Design document, sections 3, 4.1 and 4.2. *)

(** Modelled from the spec: a Step carries a status, a progress between
    0 and 100 and, when in error, a message. *)
Record Step := {
  status : step_status;
  progress : Q;
  step_error_message : option string }.

Definition new_step : Step :=
  {| status := Pending; progress := 0; step_error_message := None |}.

(** Modelled from the spec: the steps of a run, in insertion order. *)
Definition find_step (step : string) (steps : list (string * Step))
    : option Step :=
  snd <$> List.find (fun e => String.eqb (fst e) step) steps.

Fixpoint store_step (step : string) (s : Step)
    (steps : list (string * Step)) : list (string * Step) :=
  match steps with
  | [] => [(step, s)]
  | (n, s') :: rest =>
      if String.eqb n step then (n, s) :: rest
      else (n, s') :: store_step step s rest
  end.

Definition is_complete_status (s : step_status) : bool :=
  match s with Complete => true | _ => false end.
Definition is_running_status (s : step_status) : bool :=
  match s with Running => true | _ => false end.

(** Modelled from the spec: [update_step] creates the step if absent and
    sets its status; the message is attached on [Error].  A step that is
    complete or in error keeps that status until the state is reset
    (section 3): on a complete step every update is ignored, announcing
    [Running] included (section 4.1); on a step in error another error
    report replaces the message and any other update is ignored (a step
    that errored stays errored). *)
Definition apply_update_step (step : string) (st : step_status)
    (error_message : option string) (steps : list (string * Step))
    : list (string * Step) :=
  let s := default new_step (find_step step steps) in
  match status s, st with
  | Complete, _ => steps
  | Error, Error =>
      store_step step
        {| status := Error; progress := progress s;
           step_error_message := error_message |}
        steps
  | Error, _ => steps
  | _, _ =>
      store_step step
        {| status := st; progress := progress s;
           step_error_message :=
             match st with
             | Error => error_message
             | _ => step_error_message s
             end |}
        steps
  end.

(** Modelled from the spec: [set_step_progress] changes the progress only
    while the step is running, clamped to [0, 100]. *)
Definition apply_set_step_progress (step : string) (percent : Q)
    (steps : list (string * Step)) : list (string * Step) :=
  match find_step step steps with
  | Some s =>
      if is_running_status (status s) then
        store_step step
          {| status := status s;
             progress := Qmax 0 (Qmin 100 percent);
             step_error_message := step_error_message s |}
          steps
      else steps
  | None => steps
  end.

(** Modelled from the spec: [complete_step(name)] is
    [update_step(name, complete)]; on a step in error it therefore
    changes nothing. *)
Definition apply_complete_step (step : string)
    (steps : list (string * Step)) : list (string * Step) :=
  apply_update_step step Complete None steps.

Definition apply_call (steps : list (string * Step)) (c : proc_call)
    : list (string * Step) :=
  match c with
  | update_step n st m => apply_update_step n st m steps
  | set_step_progress n p => apply_set_step_progress n p steps
  | complete_step n => apply_complete_step n steps
  end.

Inductive overall := OverallIdle | OverallRunning | OverallComplete
                   | OverallError.

(** Modelled from the spec: the Processing State of one run. *)
Record ProcessingState := {
  started : bool;
  steps : list (string * Step);
  state_result : option result;
  state_error_message : option string }.

(** Modelled from the spec: error after a fatal abort, complete when all
    steps are complete and a Result is attached, running while a started
    run has neither (a run that returned with a step left in error
    included, for which the spec names no status), idle before. *)
Definition overall_status (p : ProcessingState) : overall :=
  match state_error_message p with
  | Some _ => OverallError
  | None =>
      if bool_decide (is_Some (state_result p))
         && forallb (fun e => is_complete_status (status (snd e))) (steps p)
      then OverallComplete
      else if started p then OverallRunning
      else OverallIdle
  end.

(** Modelled from the spec: [reset] followed by [start_processing], seen
    once the pipeline function has returned or raised.  A fault is
    caught and becomes the error message; the steps stay as they were. *)
Definition start_processing (pipeline : M result) (w : world)
    : ProcessingState :=
  let r := pipeline w in
  let steps := fold_left apply_call (calls r) [] in
  match out r with
  | Ret res =>
      {| started := true; steps := steps; state_result := Some res;
         state_error_message := None |}
  | Raise e =>
      {| started := true; steps := steps; state_result := None;
         state_error_message := Some e |}
  end.

(** [generate_exhibits_v2] (lines 2151-2463), once its run is over. *)
Definition generate_exhibits_v2 (E : env) (cfg : config)
    (files : list uploaded_file) (zip_files : list zip_entry) (w : world)
    : ProcessingState :=
  start_processing (process_func E cfg files zip_files) w.

(** ** Observations on a run *)

(** The percentages passed to [set_step_progress] for [step], in call
    order. *)
Fixpoint progress_values (step : string) (l : list proc_call) : list Q :=
  match l with
  | [] => []
  | set_step_progress n p :: l' =>
      if String.eqb n step then p :: progress_values step l'
      else progress_values step l'
  | _ :: l' => progress_values step l'
  end.

(** No value is smaller than the one before it. *)
Fixpoint nondecreasing (l : list Q) : Prop :=
  match l with
  | [] => True
  | p :: l' =>
      match l' with
      | [] => True
      | q :: _ => (p <= q)%Q
      end /\ nondecreasing l'
  end.

(** [step] was announced running by one of the calls of [l]. *)
Definition announced (step : string) (l : list proc_call) : Prop :=
  In (update_step step Running None) l.

(** [step] was set to error by one of the calls of [l]. *)
Definition set_to_error (step : string) (l : list proc_call) : Prop :=
  exists m, In (update_step step Error m) l.


(** ** A small environment to run the pipeline in *)

Definition sample_cover (file_path : string) : collaborator string :=
  fun d =>
    (<[file_path +:+ ".numbered" := default [] (d !! file_path)]> d,
     Ret (file_path +:+ ".numbered")).

Definition sample_concat (d : gmap string bytes) (l : list string) : bytes :=
  concat (map (fun p => default [] (d !! p)) l).

(** Compressor, page counts and file names vary; the other collaborators
    succeed: the cover page copies its file (an absent one counts as
    empty), the table of contents is one byte, merging concatenates, the
    classifier finds nothing. *)
Definition sample_env
    (compress : option (string -> collaborator comp_result)) : env :=
  {| mkdtemp := "/tmp/run";
     gettempdir := "/tmp";
     now_stamp := "20240101_120000";
     stem := basename;
     pdf_reader_pages := fun d p =>
       match d !! p with
       | Some b => Ret (Z.of_nat (length b))
       | None => Raise "FileNotFoundError"
       end;
     compressor := compress;
     add_exhibit_number_with_cover := fun p _ _ _ _ _ => sample_cover p;
     generate_table_of_contents := fun _ _ dest d =>
       (<[dest := [Byte.x54]]> d, Ret dest);
     pdf_merge := fun l dest d => (<[dest := sample_concat d l]> d, Ret dest);
     generate_short_label := fun _ _ _ => Ret None;
     analyze_pdf := fun _ _ _ => Ret None;
     extract_text_from_pdf := fun _ => Ret None;
     generate_cover_letter := fun _ _ dest d =>
       (<[dest := [Byte.x43]]> d, Ret tt);
     generate_filing_instructions := fun _ _ dest d =>
       (<[dest := [Byte.x46]]> d, Ret tt) |}.

Definition sample_config (style : string) (compression toc merge : bool)
    : config :=
  {| enable_compression := compression;
     quality_preset := "medium";
     smallpdf_api_key := None;
     numbering_style := style;
     visa_type := "O-1A";
     add_toc := toc;
     add_cover_letter := true;
     add_filing_instructions := false;
     merge_pdfs := merge;
     include_full_text_images := false |}.

Definition empty_world : world :=
  {| disk := ∅;
     session := {| session_exhibit_list := None;
                   session_compression_stats := None;
                   session_exhibits_generated := false |} |}.

Definition three_files : list uploaded_file :=
  [ {| name := "a.pdf"; read := [Byte.x01] |};
    {| name := "b.pdf"; read := [Byte.x02; Byte.x02] |};
    {| name := "c.pdf"; read := [Byte.x03; Byte.x03; Byte.x03] |} ].

Definition compressed_half (size : Z) : comp_result :=
  {| success := true;
     cr_original_size := Some size;
     cr_compressed_size := Some (size / 2);
     cr_reduction_percent := Some 50%Q;
     cr_method := Some "ghostscript" |}.

Definition not_compressed : comp_result :=
  {| success := false;
     cr_original_size := None;
     cr_compressed_size := None;
     cr_reduction_percent := None;
     cr_method := None |}.

(** [compress] raises on the second of [three_files]. *)
Definition compress_raising_on_b (p : string) : collaborator comp_result :=
  fun d =>
    if String.eqb p "/tmp/run/b.pdf"
    then (d, Raise "compression crashed")
    else (d, Ret (compressed_half 100)).

(** [compress] reports a failure on the second of [three_files]. *)
Definition compress_failing_on_b (p : string) : collaborator comp_result :=
  fun d =>
    if String.eqb p "/tmp/run/b.pdf"
    then (d, Ret not_compressed)
    else (d, Ret (compressed_half 100)).

(** ** The shape of a run's calls *)

(** [set_step_progress step ((j + 1) / total * 100)] for [j] from [i],
    [k] times. *)
Definition progress_run (step : string) (total : Z) (i k : nat)
    : list proc_call :=
  map (fun j => set_step_progress step (percent_of (Z.of_nat j + 1) total))
    (seq i k).

(** The calls of a run that went through the first [stop] of [stages]
    and stopped inside the next one: every stage makes its own calls and
    is then completed. *)
Fixpoint run_trace (stages : list (list proc_call * string)) (stop : nat)
    : list proc_call :=
  match stages with
  | [] => []
  | (body, step) :: rest =>
      match stop with
      | O => body
      | S stop' => (body ++ [complete_step step]) ++ run_trace rest stop'
      end
  end.

(** An error report on [step]. *)
Definition is_error_report (step : string) (c : proc_call) : Prop :=
  exists m, c = update_step step Error m.

(** Compression runs: it is enabled and there is a compressor. *)
Definition compression_on (E : env) (cfg : config) : bool :=
  enable_compression cfg && bool_decide (is_Some (compressor E)).

(** The stages of [process_func]: [errs] are the error reports of the
    extract step, [kc] and [kn] the number of files that the compress and
    number steps got through, [total] the size of the working set. *)
Definition pipeline_stages (E : env) (cfg : config) (uploads : nat)
    (errs : list proc_call) (total kc kn : nat)
    : list (list proc_call * string) :=
  [ (update_step "extract" Running None
       :: progress_run "extract" (Z.max (Z.of_nat uploads) 1) 0 uploads
       ++ errs, "extract");
    (if compression_on E cfg
     then update_step "compress" Running None
            :: progress_run "compress" (Z.of_nat total) 0 kc
     else [], "compress");
    (update_step "number" Running None
       :: progress_run "number" (Z.of_nat total) 0 kn, "number");
    (if add_toc cfg then [update_step "toc" Running None] else [], "toc");
    (if add_cover_letter cfg then [update_step "cover" Running None] else [],
     "cover");
    ([update_step "filing_instructions" Running None],
     "filing_instructions");
    ([update_step "merge" Running None], "merge");
    ([update_step "finalize" Running None], "finalize") ].

(** Where the extract step puts an uploaded file. *)
Definition upload_path (E : env) (file : uploaded_file) : string :=
  path_join (mkdtemp E) (name file).

(** The disk after the uploaded files were written in order. *)
Definition write_uploads (E : env) (l : list uploaded_file)
    (d : gmap string bytes) : gmap string bytes :=
  fold_left (fun d file => <[upload_path E file := read file]> d) l d.

(** [content_bytes] and [exhibit_info] of an item of the number step
    once the classifier has been asked. *)
Definition labelled_info (E : env) (cfg : config) (d : gmap string bytes)
    (file_path : string) (previous_bytes : option bytes) (num : string)
    : option bytes * exhibit_info :=
  ai_label E cfg d file_path previous_bytes
    {| number := num;
       title := stem E file_path;
       filename := basename file_path;
       pages := get_pdf_page_count E d file_path;
       analysis := None;
       compression := None |}.

(** The percentages [(j + 1) / total * 100] for [j] from [i], [k] times. *)
Definition percent_run (total : Z) (i k : nat) : list Q :=
  map (fun j => percent_of (Z.of_nat j + 1) total) (seq i k).

(** A percentage between 0 and 100. *)
Definition in_percent_range (p : Q) : Prop := (0 <= p)%Q /\ (p <= 100)%Q.


(** Every step recorded so far is complete. *)
Definition all_complete (l : list (string * Step)) : bool :=
  forallb (fun e => is_complete_status (status (snd e))) l.

(** The steps other than [step] are complete. *)
Definition others_complete (step : string) (l : list (string * Step))
    : Prop :=
  forall e, In e l -> fst e <> step ->
            is_complete_status (status (snd e)) = true.

(** The names of the eight steps, in execution order. *)
Definition step_names : list string :=
  ["extract"; "compress"; "number"; "toc"; "cover"; "filing_instructions";
   "merge"; "finalize"].

(** Sums over the exhibits and over the compression results. *)
Definition page_sum (l : list exhibit_info) : Z :=
  fold_right (fun e acc => pages e + acc) 0 l.

Definition original_sum (l : list comp_result) : Z :=
  fold_right (fun c acc => default 0 (cr_original_size c) + acc) 0 l.

Definition compressed_sum (l : list comp_result) : Z :=
  fold_right (fun c acc => default 0 (cr_compressed_size c) + acc) 0 l.

(** What the finalize step leaves in [st.session_state.compression_stats]:
    the value it had when there is no compression result, otherwise the
    aggregates of the result. *)
Definition stats_after (cfg : config) (crs : list comp_result)
    (res : result) (before : option compression_stats)
    : option compression_stats :=
  match crs with
  | [] => before
  | first_result :: _ =>
      Some {| cs_original_size := original_size res;
              cs_compressed_size := compressed_size res;
              avg_reduction := average_reduction res;
              cs_method := default "unknown" (cr_method first_result);
              quality := quality_preset cfg |}
  end.

(** Two results that differ at most in their output and ancillary
    paths. *)
Definition same_aggregates (r r' : result) : Prop :=
  exhibits r' = exhibits r /\ total_pages r' = total_pages r
  /\ original_size r' = original_size r
  /\ compressed_size r' = compressed_size r.

(** ** Vocabulary of the statements *)

(** No call of [body] completes a step. *)
Definition no_completion (body : list proc_call) : Prop :=
  forall n, ~ In (complete_step n) body.

(** A piece of the pipeline that leaves the session state alone. *)
Definition keeps_session {A} (m : M A) : Prop :=
  forall w, session (final (m w)) = session w.

(** What the compression loop does to its state: it appends successful
    results and adds their sizes to the totals. *)
Definition compress_inv (st st' : list comp_result * result) : Prop :=
  exists new,
    fst st' = fst st ++ new
    /\ Forall (fun c => success c = true) new
    /\ same_aggregates
         {| exhibits := exhibits (snd st);
            total_pages := total_pages (snd st);
            original_size := original_size (snd st) + original_sum new;
            compressed_size := compressed_size (snd st) + compressed_sum new;
            output_file := output_file (snd st);
            cover_letter_path := cover_letter_path (snd st);
            filing_instructions_path := filing_instructions_path (snd st) |}
         (snd st')
    /\ output_file (snd st') = output_file (snd st).

(** What the numbering loop does to its variables over [n] items. *)
Definition number_inv (n : nat) (v v' : number_vars) : Prop :=
  exists new_files new_exhibits,
    numbered_files v' = numbered_files v ++ new_files
    /\ exhibit_list v' = exhibit_list v ++ new_exhibits
    /\ length new_files = n /\ length new_exhibits = n
    /\ number_total_pages v'
       = number_total_pages v + page_sum new_exhibits.





(** What [update_step] does to the status of its step. *)
Definition next_status (old new : step_status) : step_status :=
  match old with
  | Complete => Complete
  | Error => Error
  | _ => new
  end.

(** [step] is not in error among [l]. *)
Definition not_in_error (step : string) (l : list (string * Step)) : Prop :=
  status (default new_step (find_step step l)) <> Error.

(** ** The compress calls of a run *)

(** What the [compress] calls on [file_paths] return, in order, the
    first of them made on disk [d]; the list stops at a call that
    raises. *)
Fixpoint compress_calls (compress : string -> collaborator comp_result)
    (file_paths : list string) (d : gmap string bytes) : list comp_result :=
  match file_paths with
  | [] => []
  | file_path :: rest =>
      match compress file_path d with
      | (d', Ret c) => c :: compress_calls compress rest d'
      | (_, Raise _) => []
      end
  end.

(** [compression_results] once the compress step is over: the results
    that reported success, in call order; none when compression is off
    or there is no compressor. *)
Definition compression_results (E : env) (cfg : config)
    (file_paths : list string) (d : gmap string bytes) : list comp_result :=
  if enable_compression cfg then
    match compressor E with
    | Some compress =>
        List.filter success (compress_calls compress file_paths d)
    | None => []
    end
  else [].

(** ** Files on disk *)


(** [d'] holds a file wherever [d] holds one. *)
Definition keeps_files (d d' : gmap string bytes) : Prop :=
  forall k, is_Some (d !! k) -> is_Some (d' !! k).

(** The collaborator call [r] has removed no file and, when it returned,
    returned the path of a file on disk that is not the package's. *)
Definition leaves_its_file (E : env) (d : gmap string bytes)
    (r : gmap string bytes * outcome string) : Prop :=
  keeps_files d (fst r)
  /\ forall q, snd r = Ret q -> is_Some (fst r !! q) /\ q <> package_path E.

(** The collaborators behind the package do their work.  The cover-page
    collaborator removes no file, leaves the file it names and, called
    with the number alone, returns; the table-of-contents and merge
    collaborators, called with the destinations the pipeline gives them,
    do the same; none of the names returned is the package's own path;
    and the two letter collaborators remove no file. *)
Record collaborators_succeed (E : env) : Prop := {
  cover_page_left :
    forall p num t s x c d,
      leaves_its_file E d (add_exhibit_number_with_cover E p num t s x c d);
  cover_page_returns :
    forall p num d,
      is_ret (snd (add_exhibit_number_with_cover E p num
                     None None None None d)) = true;
  toc_left :
    forall l v d,
      leaves_its_file E d
        (generate_table_of_contents E l v (path_join (mkdtemp E) "TOC.pdf")
           d);
  toc_returns :
    forall l v d,
      is_ret (snd (generate_table_of_contents E l v
                     (path_join (mkdtemp E) "TOC.pdf") d)) = true;
  merge_left :
    forall l d,
      leaves_its_file E d
        (pdf_merge E l (path_join (mkdtemp E) "final_package.pdf") d);
  merge_returns :
    forall l d,
      is_ret (snd (pdf_merge E l (path_join (mkdtemp E) "final_package.pdf")
                     d)) = true;
  cover_letter_keeps :
    forall v l dest d,
      keeps_files d (fst (generate_cover_letter E v l dest d));
  filing_instructions_keeps :
    forall v l dest d,
      keeps_files d (fst (generate_filing_instructions E v l dest d)) }.

(** A piece of the pipeline that removes no file. *)
Definition keeps_disk {A} (m : M A) : Prop :=
  forall w, keeps_files (disk w) (disk (final (m w))).

(** [q] names a file on disk [d], other than the package. *)
Definition written (E : env) (d : gmap string bytes) (q : string) : Prop :=
  is_Some (d !! q) /\ q <> package_path E.

(** ** Further vocabulary: numerals and exhibits *)

(** The value of a roman symbol; 0 for any other character. *)
Definition roman_symbol_value (c : ascii) : Z :=
  if Ascii.eqb c "I" then 1
  else if Ascii.eqb c "V" then 5
  else if Ascii.eqb c "X" then 10
  else if Ascii.eqb c "L" then 50
  else if Ascii.eqb c "C" then 100
  else if Ascii.eqb c "D" then 500
  else if Ascii.eqb c "M" then 1000
  else 0.

(** How a roman numeral is read: a symbol smaller than the one that
    follows it is subtracted, any other is added. *)
Fixpoint roman_value (s : string) : Z :=
  match s with
  | EmptyString => 0
  | String c s' =>
      match s' with
      | EmptyString => roman_symbol_value c
      | String c' _ =>
          if roman_symbol_value c <? roman_symbol_value c'
          then roman_value s' - roman_symbol_value c
          else roman_value s' + roman_symbol_value c
      end
  end.

(** The dictionary that lines 2297-2301 build from the [i]-th entry of
    [compression_results], when there is one. *)
Definition compression_entry (compression_results : list comp_result)
    (i : nat) : option compression_info :=
  (fun c => {| reduction := default 0%Q (cr_reduction_percent c);
               method := default "none" (cr_method c) |})
    <$> compression_results !! i.


(** What the number step records for the file [p] at position [i]: its
    number by position, its file name, and the compression entry found
    at position [i] of the compression results. *)
Definition exhibit_at (cfg : config) (compression_results : list comp_result)
    (i : nat) (p : string) (info : exhibit_info) : Prop :=
  exhibit_number (numbering_style cfg) i = Ret (number info)
  /\ filename info = basename p
  /\ compression info = compression_entry compression_results i.


(** ** After the run: stages 5 and 6 (app.py, lines 1869-1930) *)

(** A value of the [result] dictionary. *)
Inductive result_value :=
| RExhibits (l : list exhibit_info)
| RInt (z : Z)
| RStr (s : option string).

(** [result.get(key)]: the keys are those that [process_func] assigns
    (lines 2165-2171, 2357, 2365, 2396, 2402, 2420, 2430, 2433). *)
Definition result_get (key : string) (r : result) : option result_value :=
  if String.eqb key "exhibits" then Some (RExhibits (exhibits r))
  else if String.eqb key "total_pages" then Some (RInt (total_pages r))
  else if String.eqb key "original_size" then Some (RInt (original_size r))
  else if String.eqb key "compressed_size"
  then Some (RInt (compressed_size r))
  else if String.eqb key "output_file" then Some (RStr (output_file r))
  else if String.eqb key "cover_letter_path"
  then RStr <$> cover_letter_path r
  else if String.eqb key "filing_instructions_path"
  then RStr <$> filing_instructions_path r
  else None.

(** The values of the dictionary read at the type their reader expects;
    no key of [result] holds a value of another type there. *)
Definition as_path (v : option result_value) : option string :=
  match v with Some (RStr p) => p | _ => None end.
Definition as_exhibits (default_list : list exhibit_info)
    (v : option result_value) : list exhibit_info :=
  match v with Some (RExhibits l) => l | _ => default_list end.
Definition as_number (default_number : Q) (v : option result_value) : Q :=
  match v with Some (RInt z) => inject_Z z | _ => default_number end.
Definition as_size (v : option result_value) : Z :=
  match v with Some (RInt z) => z | _ => 0 end.

(** The session keys that stages 5 and 6 read and write: those of the
    pipeline, and the three paths. *)
Record stage_session := {
  pipeline_keys : session_state;
  session_output_file : option string;
  session_cover_letter_path : option string;
  session_filing_instructions_path : option string }.

(** The branch [elif processor.is_complete] of [render_stage_5_generate]
    (lines 1869-1890), given [processor.state.result] ([None] when the
    state has none). *)
Definition transfer_result (cfg : config) (state_result : option result)
    (s : stage_session) : stage_session :=
  match state_result with
  | None => s
  | Some res =>
      {| pipeline_keys :=
           {| session_exhibit_list :=
                Some (as_exhibits [] (result_get "exhibit_list" res));
              session_compression_stats :=
                if bool_decide (is_Some (result_get "compressed_size" res))
                   && bool_decide (is_Some (result_get "original_size" res))
                then
                  Some {| cs_original_size :=
                            as_size (result_get "original_size" res);
                          cs_compressed_size :=
                            as_size (result_get "compressed_size" res);
                          avg_reduction :=
                            as_number 0 (result_get "avg_reduction" res);
                          cs_method :=
                            match result_get "compression_method" res with
                            | Some (RStr (Some m)) => m
                            | _ => "unknown"
                            end;
                          quality := quality_preset cfg |}
                else session_compression_stats (pipeline_keys s);
              session_exhibits_generated :=
                session_exhibits_generated (pipeline_keys s) |};
         session_output_file := as_path (result_get "output_file" res);
         session_cover_letter_path :=
           as_path (result_get "cover_letter_path" res);
         session_filing_instructions_path :=
           as_path (result_get "filing_instructions_path" res) |}
  end.

(** The numbers behind the four metrics of stage 6 (lines 1905-1930):
    exhibits, total pages, size reduction (a percentage, before it is
    formatted) and final size in bytes (before it is divided into
    megabytes); the last two are a dash without compression
    statistics. *)
Record statistics := {
  stat_exhibits : nat;
  stat_total_pages : Z;
  stat_reduction : option Q;
  stat_final_size : option Z }.

(** [None] when the statistics block is not shown. *)
Definition stage_6_statistics (s : session_state) : option statistics :=
  match session_exhibit_list s with
  | Some (first_exhibit :: others) =>
      let shown := first_exhibit :: others in
      Some {| stat_exhibits := length shown;
              stat_total_pages := fold_right (fun ex acc => pages ex + acc) 0
                                    shown;
              stat_reduction :=
                avg_reduction <$> session_compression_stats s;
              stat_final_size :=
                cs_compressed_size <$> session_compression_stats s |}
  | _ => None
  end.

(** ** The ZIP upload of stage 2 (app.py, lines 1681-1695) *)

(** What the handler calls: the name that [tempfile.TemporaryDirectory()]
    hands out, the archive reader and [Path(tmp_dir).rglob("*.pdf")]. *)
Record zip_env := {
  temporary_directory : string;
  (** [ZipFile(zip_path).namelist()] for an archive of these bytes. *)
  zip_namelist : bytes -> outcome (list string);
  (** [zip_ref.extract(member, tmp_dir)]. *)
  zip_extract : bytes -> string -> string -> collaborator unit;
  (** [str(p) for p in Path(tmp_dir).rglob("*.pdf")]. *)
  rglob_pdf : gmap string bytes -> string -> list string }.

(** The path [p] lies under the directory [dir]. *)
Definition under (dir p : string) : bool := String.prefix (dir +:+ "/") p.

(** Leaving [with tempfile.TemporaryDirectory()]: the directory and all
    it contains are removed. *)
Definition cleanup (dir : string) (d : gmap string bytes)
    : gmap string bytes :=
  filter (fun entry : string * bytes => under dir (fst entry) = false) d.

(** [for member in zip_ref.namelist()]: members with [..] in their name
    or a leading slash are skipped. *)
Fixpoint extract_members (Zp : zip_env) (zip_bytes : bytes)
    (members : list string) (d : gmap string bytes)
    : gmap string bytes * outcome unit :=
  match members with
  | [] => (d, Ret tt)
  | member :: rest =>
      if occurs ".." member || String.prefix "/" member
      then extract_members Zp zip_bytes rest d
      else
        match zip_extract Zp zip_bytes member (temporary_directory Zp) d with
        | (d', Ret _) => extract_members Zp zip_bytes rest d'
        | (d', Raise e) => (d', Raise e)
        end
  end.

(** The handler: the disk it leaves, and the new value of
    [st.session_state.zip_files], or the exception that escapes (the
    session is then left as it was). *)
Definition zip_upload (Zp : zip_env) (zip_bytes : bytes)
    (d : gmap string bytes) : gmap string bytes * outcome (list string) :=
  let tmp_dir := temporary_directory Zp in
  let zip_path := path_join tmp_dir "upload.zip" in
  let d := <[zip_path := zip_bytes]> d in
  match zip_namelist Zp zip_bytes with
  | Raise e => (cleanup tmp_dir d, Raise e)
  | Ret members =>
      match extract_members Zp zip_bytes members d with
      | (d, Raise e) => (cleanup tmp_dir d, Raise e)
      | (d, Ret _) =>
          let pdf_files := rglob_pdf Zp d tmp_dir in
          (cleanup tmp_dir d, Ret pdf_files)
      end
  end.

(** A file system listing for the samples: the files under [dir] whose
    name ends in [.pdf]. *)
Fixpoint ends_with (suffix s : string) : bool :=
  String.eqb suffix s
  || match s with
     | EmptyString => false
     | String _ s' => ends_with suffix s'
     end.

Definition sample_zip_env : zip_env :=
  {| temporary_directory := "/tmp/tmpzip";
     zip_namelist := fun _ => Ret ["a.pdf"; "../evil.pdf"; "notes.txt"];
     zip_extract := fun _ member dir d =>
       (<[path_join dir member := [Byte.x25]]> d, Ret tt);
     rglob_pdf := fun d dir =>
       List.filter (fun p => under dir p && ends_with ".pdf" p)
         (map fst (map_to_list d)) |}.

(** ** Thumbnails (components/thumbnail_grid.py) *)

(** [base64.b64encode(data).decode()]. *)
Definition b64_alphabet : string :=
  "ABCDEFGHIJKLMNOPQRSTUVWXYZabcdefghijklmnopqrstuvwxyz0123456789+/".

Definition b64_char (n : N) : ascii :=
  default "="%char (String.get (N.to_nat n) b64_alphabet).

Fixpoint b64encode_values (l : list N) : string :=
  match l with
  | [] => ""
  | [a] =>
      String (b64_char (a / 4)) (String (b64_char (a mod 4 * 16)) "==")
  | [a; b] =>
      String (b64_char (a / 4))
        (String (b64_char (a mod 4 * 16 + b / 16))
           (String (b64_char (b mod 16 * 4)) "="))
  | a :: b :: c :: rest =>
      String (b64_char (a / 4))
        (String (b64_char (a mod 4 * 16 + b / 16))
           (String (b64_char (b mod 16 * 4 + c / 64))
              (String (b64_char (c mod 64)) (b64encode_values rest))))
  end%N.

Definition b64encode (data : bytes) : string :=
  b64encode_values (map Byte.to_N data).

(** A document opened by PyMuPDF: [len(doc)], and the JPEG bytes of a
    page rendered into a box of the given size, after
    [set_rotation(rotation)] when [rotation] is not 0 (lines 72-89). *)
Record fitz_document := {
  page_count : Z;
  render_jpeg : Z -> Z -> Z * Z -> outcome bytes }.

(** The two libraries, each [None] when it is not installed
    ([PYMUPDF_AVAILABLE], [PDF2IMAGE_AVAILABLE]). *)
Record pymupdf := {
  open_path : string -> outcome fitz_document;
  open_stream : bytes -> outcome fitz_document }.

Record pdf2image := {
  (** [convert_from_path(path, first_page, last_page, size)], with
      [last_page = first_page]; the images are given by their pixels. *)
  convert_from_path : string -> Z -> Z * Z -> outcome (list bytes);
  convert_from_bytes : bytes -> Z -> Z * Z -> outcome (list bytes);
  (** [img.rotate(angle, expand=True)]. *)
  rotate_image : bytes -> Z -> outcome bytes;
  (** [img.save(buffered, format="JPEG", quality=70)]. *)
  save_jpeg : bytes -> outcome bytes }.

Record renderers := {
  fitz : option pymupdf;
  pdf_to_image : option pdf2image }.

(** Truth values of an optional path and of optional bytes. *)
Definition given_path (pdf_path : option string) : option string :=
  match pdf_path with
  | Some p => if String.eqb p "" then None else Some p
  | None => None
  end.

Definition given_bytes (pdf_bytes : option bytes) : option bytes :=
  match pdf_bytes with
  | Some (b :: l) => Some (b :: l)
  | _ => None
  end.

(** The PyMuPDF branch (lines 65-92): [Some r] when it returns [r],
    [None] when it raises and the function goes on. *)
Definition thumbnail_by_fitz (F : pymupdf) (pdf_path : option string)
    (pdf_bytes : option bytes) (page : Z) (size : Z * Z) (rotation : Z)
    : option (option string) :=
  let opened :=
    match given_path pdf_path with
    | Some p => open_path F p
    | None => open_stream F (default [] pdf_bytes)
    end in
  match opened with
  | Raise _ => None
  | Ret doc =>
      if page_count doc =? 0 then Some None
      else
        match render_jpeg doc (Z.min page (page_count doc - 1)) rotation size
        with
        | Ret img_bytes => Some (Some (b64encode img_bytes))
        | Raise _ => None
        end
  end.

(** The pdf2image branch (lines 95-126): the thumbnail, or [None] when
    it raises or converts no image. *)
Definition thumbnail_by_pdf2image (P : pdf2image) (pdf_path : option string)
    (pdf_bytes : option bytes) (page : Z) (size : Z * Z) (rotation : Z)
    : option string :=
  let images :=
    match given_path pdf_path with
    | Some p => convert_from_path P p (page + 1) size
    | None => convert_from_bytes P (default [] pdf_bytes) (page + 1) size
    end in
  match images with
  | Ret (img :: _) =>
      let img :=
        if negb (rotation =? 0) && negb (rotation mod 360 =? 0)
        then match rotate_image P img (- rotation) with
             | Ret rotated => rotated
             | Raise _ => img
             end
        else img in
      match save_jpeg P img with
      | Ret jpeg => Some (b64encode jpeg)
      | Raise _ => None
      end
  | _ => None
  end.

(** [generate_thumbnail] (lines 41-128). *)
Definition generate_thumbnail (R : renderers) (pdf_path : option string)
    (pdf_bytes : option bytes) (page : Z) (size : Z * Z) (rotation : Z)
    : option string :=
  match given_path pdf_path, given_bytes pdf_bytes with
  | None, None => None
  | _, _ =>
      let by_fitz :=
        match fitz R with
        | Some F => thumbnail_by_fitz F pdf_path pdf_bytes page size rotation
        | None => None
        end in
      match by_fitz with
      | Some r => r
      | None =>
          match pdf_to_image R with
          | Some P =>
              thumbnail_by_pdf2image P pdf_path pdf_bytes page size rotation
          | None => None
          end
      end
  end.

(** What the two libraries are handed: the path when one is given, the
    bytes otherwise. *)
Definition fitz_open (F : pymupdf) (pdf_path : option string)
    (pdf_bytes : option bytes) : outcome fitz_document :=
  match given_path pdf_path with
  | Some p => open_path F p
  | None => open_stream F (default [] pdf_bytes)
  end.

Definition convert_page (P : pdf2image) (pdf_path : option string)
    (pdf_bytes : option bytes) (page : Z) (size : Z * Z)
    : outcome (list bytes) :=
  match given_path pdf_path with
  | Some p => convert_from_path P p (page + 1) size
  | None => convert_from_bytes P (default [] pdf_bytes) (page + 1) size
  end.

(** The JPEG bytes of PyMuPDF's rendering of page [page] of the input,
    or of its last page when the document is shorter; [None] when it
    cannot be opened or rendered, or has no page. *)
Definition fitz_jpeg (F : pymupdf) (pdf_path : option string)
    (pdf_bytes : option bytes) (page : Z) (size : Z * Z) (rotation : Z)
    : option bytes :=
  match fitz_open F pdf_path pdf_bytes with
  | Ret doc =>
      if page_count doc =? 0 then None
      else match render_jpeg doc (Z.min page (page_count doc - 1)) rotation
                   size with
           | Ret img => Some img
           | Raise _ => None
           end
  | Raise _ => None
  end.

(** PyMuPDF is missing, or raised on the input. *)
Definition fitz_failed (R : renderers) (pdf_path : option string)
    (pdf_bytes : option bytes) (page : Z) (size : Z * Z) (rotation : Z)
    : Prop :=
  match fitz R with
  | None => True
  | Some F =>
      match fitz_open F pdf_path pdf_bytes with
      | Raise _ => True
      | Ret doc =>
          page_count doc <> 0
          /\ is_ret (render_jpeg doc (Z.min page (page_count doc - 1))
                       rotation size) = false
      end
  end.

(** The JPEG bytes that pdf2image saves for the first image it converts,
    turned back by [rotation] unless that is a multiple of 360 or the
    turn raises. *)
Definition pdf2image_jpeg (P : pdf2image) (pdf_path : option string)
    (pdf_bytes : option bytes) (page : Z) (size : Z * Z) (rotation : Z)
    : option bytes :=
  match convert_page P pdf_path pdf_bytes page size with
  | Ret (img :: _) =>
      let turned :=
        if rotation mod 360 =? 0 then img
        else match rotate_image P img (- rotation) with
             | Ret rotated => rotated
             | Raise _ => img
             end in
      match save_jpeg P turned with
      | Ret jpeg => Some jpeg
      | Raise _ => None
      end
  | _ => None
  end.

(** The SVG of [get_placeholder_thumbnail] (lines 131-142), with its
    double quotes and line ends written as [dq] and [nl]. *)
Definition dq : string := String (ascii_of_nat 34) "".
Definition nl : string := String (ascii_of_nat 10) "".

Definition placeholder_svg : string :=
  nl +:+ "    <svg xmlns=" +:+ dq +:+ "http://www.w3.org/2000/svg" +:+ dq
  +:+ " width=" +:+ dq +:+ "150" +:+ dq +:+ " height=" +:+ dq +:+ "200"
  +:+ dq +:+ " viewBox=" +:+ dq +:+ "0 0 150 200" +:+ dq +:+ ">" +:+ nl
  +:+ "        <rect width=" +:+ dq +:+ "150" +:+ dq +:+ " height=" +:+ dq
  +:+ "200" +:+ dq +:+ " fill=" +:+ dq +:+ "#f0f0f0" +:+ dq +:+ "/>" +:+ nl
  +:+ "        <rect x=" +:+ dq +:+ "40" +:+ dq +:+ " y=" +:+ dq +:+ "50"
  +:+ dq +:+ " width=" +:+ dq +:+ "70" +:+ dq +:+ " height=" +:+ dq
  +:+ "90" +:+ dq +:+ " fill=" +:+ dq +:+ "#ffffff" +:+ dq +:+ " stroke="
  +:+ dq +:+ "#cccccc" +:+ dq +:+ " stroke-width=" +:+ dq +:+ "2" +:+ dq
  +:+ "/>" +:+ nl +:+ "        <text x=" +:+ dq +:+ "75" +:+ dq +:+ " y="
  +:+ dq +:+ "100" +:+ dq +:+ " font-family=" +:+ dq +:+ "Arial" +:+ dq
  +:+ " font-size=" +:+ dq +:+ "12" +:+ dq +:+ " fill=" +:+ dq
  +:+ "#999999" +:+ dq +:+ " text-anchor=" +:+ dq +:+ "middle" +:+ dq
  +:+ ">PDF</text>" +:+ nl +:+ "        <path d=" +:+ dq
  +:+ "M85 50 L85 70 L105 70 L85 50 Z" +:+ dq +:+ " fill=" +:+ dq
  +:+ "#cccccc" +:+ dq +:+ "/>" +:+ nl +:+ "    </svg>" +:+ nl +:+ "    ".

(** [str.encode()] for a string held as its UTF-8 bytes. *)
Definition encode (s : string) : bytes := list_byte_of_string s.

Definition get_placeholder_thumbnail : string :=
  b64encode (encode placeholder_svg).

(** The keys of an exhibit that decide the image of its card in
    [render_thumbnail_grid]. *)
Record grid_exhibit := {
  grid_thumbnail : option string;
  grid_path : option string;
  grid_content : option bytes }.

(** Lines 360-366: the thumbnail of an exhibit once the grid has filled
    in the missing ones. *)
Definition ensure_thumbnail (R : renderers) (ex : grid_exhibit) : string :=
  match grid_thumbnail ex with
  | Some (String c t) => String c t
  | _ =>
      match generate_thumbnail R (grid_path ex) (grid_content ex) 0
              (150, 200) 0 with
      | Some (String c g) => String c g
      | _ => get_placeholder_thumbnail
      end
  end.

(** Lines 374-381: the [src] of the card's image. *)
Definition card_image_source (thumbnail : string) : string :=
  if String.prefix "PHN2" thumbnail
  then "data:image/svg+xml;base64," +:+ thumbnail
  else "data:image/jpeg;base64," +:+ thumbnail.
(** ** [st.session_state] as a dictionary (app.py, lines 153-352)

    The upload page keeps the uploaded files under [uploaded_files] and
    one metadata dictionary per file under [uploaded_meta].

    Kinds.  Python's lists are embedded by the kind of their elements.
    The application stores files under [uploaded_files], metadata
    dictionaries under [uploaded_meta], exhibits under [exhibit_list] and
    paths under [zip_files] and [file_paths], and a string under no such
    key.  The handlers are embedded for session states that respect
    this; where one of these keys holds a value of another kind, the
    embedding follows what the code does on a value that is neither a
    list nor a string. *)

(** A metadata dictionary: its keys [name], [rotation], [pages] (an
    [int], or [''] written [None]) and [thumb]. *)
Record upload_meta := {
  meta_name : string;
  rotation : Z;
  meta_pages : option Z;
  thumb : option string }.

(** The values that the application stores in the session state. *)
Inductive pyval :=
| PyNone
| PyBool (b : bool)
| PyInt (z : Z)
| PyStr (s : string)
| PyFiles (l : list uploaded_file)
| PyMetas (l : list upload_meta)
| PyExhibits (l : list exhibit_info)
| PyPaths (l : list string)
(** The tuple [(name, size)] kept under [insert_anchor]. *)
| PyAnchor (anchor_name : string) (anchor_size : Z).

(** [bool(v)]. *)
Definition truthy (v : pyval) : bool :=
  match v with
  | PyNone => false
  | PyBool b => b
  | PyInt z => negb (z =? 0)
  | PyStr s => negb (String.eqb s "")
  | PyFiles l => negb (bool_decide (l = []))
  | PyMetas l => negb (bool_decide (l = []))
  | PyExhibits l => negb (bool_decide (l = []))
  | PyPaths l => negb (bool_decide (l = []))
  | PyAnchor _ _ => true
  end.

(** The integer that [v] is when [isinstance(v, int)]; a [bool] is an
    [int] in Python. *)
Definition as_int (v : pyval) : option Z :=
  match v with
  | PyInt z => Some z
  | PyBool b => Some (Z.b2z b)
  | _ => None
  end.

(** [st.session_state.get(key)]. *)
Definition session_get (key : string) (s : gmap string pyval) : pyval :=
  default PyNone (s !! key).

(** What a handler leaves: the session state, whether it called
    [st.rerun()], and the exception that escaped, if any. *)
Record ui_result := {
  after : gmap string pyval;
  rerun_called : bool;
  raised : option string }.

Definition returned (s : gmap string pyval) : ui_result :=
  {| after := s; rerun_called := false; raised := None |}.
Definition rerun (s : gmap string pyval) : ui_result :=
  {| after := s; rerun_called := true; raised := None |}.
Definition raising (e : string) (s : gmap string pyval) : ui_result :=
  {| after := s; rerun_called := false; raised := Some e |}.

(** [0 <= idx < len(l)]. *)
Definition in_range {A} (idx : Z) (l : list A) : bool :=
  (0 <=? idx) && (idx <? Z.of_nat (length l)).

(** [l.insert(i, x)] for [i >= 0]: past the end it appends. *)
Definition list_insert_at {A} (i : nat) (x : A) (l : list A) : list A :=
  take i l ++ x :: drop i l.

(** *** [init_session_state] (lines 153-166) *)

Definition session_defaults : list (string * pyval) :=
  [ ("exhibits_generated", PyBool false);
    ("compression_stats", PyNone);
    ("exhibit_list", PyExhibits []);
    ("uploaded_files", PyFiles []);
    ("file_paths", PyPaths []);
    ("output_file", PyNone);
    ("processing_complete", PyBool false) ].

Definition init_session_state (s : gmap string pyval) : gmap string pyval :=
  fold_left (fun s entry =>
               if bool_decide (is_Some (s !! fst entry)) then s
               else <[fst entry := snd entry]> s)
    session_defaults s.

(** *** [delete_file] (lines 168-213) *)

(** Lines 191-203: the preview index follows the file it points at. *)
Definition adjust_preview (idx : Z) (s : gmap string pyval)
    : gmap string pyval :=
  match session_get "preview_file_index" s with
  | PyNone => s
  | preview_idx =>
      match as_int preview_idx with
      | Some p =>
          if p =? idx then <["preview_file_index" := PyNone]> s
          else if idx <? p
               then <["preview_file_index" := PyInt (p - 1)]> s
               else s
      | None => s
      end
  end.

(** Lines 205-211: the selected index. *)
Definition adjust_selected (idx : Z) (s : gmap string pyval)
    : gmap string pyval :=
  match as_int (session_get "selected_upload_index" s) with
  | Some sel =>
      if sel =? idx then <["selected_upload_index" := PyNone]> s
      else if idx <? sel
           then <["selected_upload_index" := PyInt (Z.max 0 (sel - 1))]> s
           else s
  | None => s
  end.

(** [idx] is an [int].  The chained comparison [0 <= idx < len(...)]
    stops at [0 <= idx] for a negative index, before [len] is called.  A
    value under [uploaded_files] or [uploaded_meta] that is no list has
    no [len]. *)
Definition delete_file (idx : Z) (s : gmap string pyval) : ui_result :=
  if idx <? 0 then returned s else
  match default (PyFiles []) (s !! "uploaded_files") with
  | PyFiles uploaded_files =>
      if in_range idx uploaded_files then
        let uploaded_files := delete (Z.to_nat idx) uploaded_files in
        match default (PyMetas []) (s !! "uploaded_meta") with
        | PyMetas uploaded_meta =>
            let uploaded_meta :=
              if in_range idx uploaded_meta
              then delete (Z.to_nat idx) uploaded_meta
              else uploaded_meta in
            let s := <["uploaded_files" := PyFiles uploaded_files]> s in
            let s := <["uploaded_meta" := PyMetas uploaded_meta]> s in
            let s := adjust_preview idx s in
            let s := adjust_selected idx s in
            rerun s
        | _ =>
            raising "TypeError"
              (<["uploaded_files" := PyFiles uploaded_files]> s)
        end
      else returned s
  | _ => raising "TypeError" s
  end.

(** *** [rotate_file] (lines 215-242) *)

(** The box of a thumbnail: upright, or on its side at 90 and 270. *)
Definition thumb_size (rot : Z) : Z * Z :=
  if rot mod 180 =? 0 then (180, 240) else (240, 180).

Definition set_rotation (r : Z) (m : upload_meta) : upload_meta :=
  {| meta_name := meta_name m; rotation := r; meta_pages := meta_pages m;
     thumb := thumb m |}.

Definition set_thumb (t : string) (m : upload_meta) : upload_meta :=
  {| meta_name := meta_name m; rotation := rotation m;
     meta_pages := meta_pages m; thumb := Some t |}.

Definition set_meta_name (n : string) (m : upload_meta) : upload_meta :=
  {| meta_name := n; rotation := rotation m; meta_pages := meta_pages m;
     thumb := thumb m |}.

(** For a negative index the comparison [0 <= idx < len(...)] stops at
    [0 <= idx]: [st.session_state.uploaded_meta] is not read, and the
    function returns.  Otherwise reading the attribute raises
    AttributeError when the key is missing. *)
Definition rotate_file (R : renderers) (idx : Z) (s : gmap string pyval)
    : ui_result :=
  if idx <? 0 then returned s else
  match s !! "uploaded_meta" with
  | None => raising "AttributeError" s
  | Some (PyMetas uploaded_meta) =>
      match uploaded_meta !! Z.to_nat idx with
      | Some meta =>
          if in_range idx uploaded_meta then
            let meta := set_rotation ((rotation meta + 90) mod 360) meta in
            let rotated :=
              <["uploaded_meta" :=
                  PyMetas (<[Z.to_nat idx := meta]> uploaded_meta)]> s in
            match default (PyFiles []) (s !! "uploaded_files") with
            | PyFiles uploaded_files =>
                match uploaded_files !! Z.to_nat idx with
                | Some f =>
                    if in_range idx uploaded_files then
                      let rot := rotation meta in
                      match generate_thumbnail R None (Some (read f)) 0
                              (thumb_size rot) rot with
                      | Some (String c t) =>
                          rerun
                            (<["uploaded_meta" :=
                                 PyMetas (<[Z.to_nat idx :=
                                              set_thumb (String c t) meta]>
                                            uploaded_meta)]> s)
                      | _ => returned rotated
                      end
                    else returned rotated
                | None => returned rotated
                end
            | _ => returned rotated
            end
          else returned s
      | None => returned s
      end
  | Some _ => raising "TypeError" s
  end.

(** *** [duplicate_file] (lines 244-321) *)

Definition dynamic_prefixes : list string :=
  ["preview_"; "move_mode_"; "view_card_"; "dup_card_"; "del_card_";
   "insert_here_"; "insert_files_"; "list_del_"].

Definition is_dynamic_key (k : string) : bool :=
  existsb (fun p => String.prefix p k) dynamic_prefixes.

(** Lines 307-317: every key with one of the prefixes is popped. *)
Definition clear_dynamic_keys (s : gmap string pyval) : gmap string pyval :=
  filter (fun entry : string * pyval => is_dynamic_key (fst entry) = false) s.

(** [f'Document {idx+1}']. *)
Definition document_label (idx : Z) : string := "Document " +:+ str (idx + 1).

(** The metadata of the copy (lines 276-294). *)
Definition copy_meta (R : renderers) (idx : Z) (src : uploaded_file)
    (meta : list upload_meta) : upload_meta :=
  let new_meta :=
    match meta !! Z.to_nat idx with
    | Some m =>
        if in_range idx meta then
          let orig_name :=
            if negb (String.eqb (meta_name m) "") then meta_name m
            else if negb (String.eqb (name src) "") then name src
                 else document_label idx in
          set_meta_name orig_name m
        else {| meta_name := name src; rotation := 0; meta_pages := None;
                thumb := None |}
    | None => {| meta_name := name src; rotation := 0; meta_pages := None;
                 thumb := None |}
    end in
  let rot_nm := rotation new_meta in
  match generate_thumbnail R None (Some (read src)) 0 (thumb_size rot_nm)
          rot_nm with
  | Some (String c t) => set_thumb (String c t) new_meta
  | _ => new_meta
  end.

(** [st.session_state.get(key, []) or []] read as a list; [None] when
    the value is something else, on which the body raises and the
    handler returns. *)
Definition files_or_empty (v : option pyval) : option (list uploaded_file) :=
  match v with
  | None => Some []
  | Some (PyFiles l) => Some l
  | Some v => if truthy v then None else Some []
  end.

Definition metas_or_empty (v : option pyval) : option (list upload_meta) :=
  match v with
  | None => Some []
  | Some (PyMetas l) => Some l
  | Some v => if truthy v then None else Some []
  end.

Definition duplicate_file (R : renderers) (idx : Z) (s : gmap string pyval)
    : ui_result :=
  match files_or_empty (s !! "uploaded_files"),
        metas_or_empty (s !! "uploaded_meta") with
  | Some uploaded, Some meta =>
      match uploaded !! Z.to_nat idx with
      | Some src =>
          if in_range idx uploaded then
            let buf := {| name := name src; read := read src |} in
            let new_meta := copy_meta R idx src meta in
            let insert_at := idx + 1 in
            let uploaded := list_insert_at (Z.to_nat insert_at) buf uploaded in
            let meta := list_insert_at (Z.to_nat insert_at) new_meta meta in
            let s := <["uploaded_files" := PyFiles uploaded]> s in
            let s := <["uploaded_meta" := PyMetas meta]> s in
            let s := <["selected_upload_index" := PyInt insert_at]> s in
            let s := <["preview_file_index" := PyInt insert_at]> s in
            rerun (clear_dynamic_keys s)
          else returned s
      | None => returned s
      end
  | _, _ => returned s
  end.

(** *** [process_bridge_command] (lines 324-351) *)

(** [s.split(sep)] for a one-character separator. *)
Fixpoint split_on (sep : ascii) (s : string) : list string :=
  match s with
  | EmptyString => [""]
  | String c s' =>
      let parts := split_on sep s' in
      if Ascii.eqb c sep then "" :: parts
      else match parts with
           | p :: rest => String c p :: rest
           | [] => [String c ""]
           end
  end.

(** [py_int] is [int(s)] for a string: [None] stands for ValueError. *)
Definition process_bridge_command (py_int : string -> option Z)
    (R : renderers) (s : gmap string pyval) : ui_result :=
  let command := session_get "action_command" s in
  if truthy command then
    let s := <["action_command" := PyStr ""]> s in
    match command with
    | PyStr cmd =>
        match split_on ":" cmd with
        | [action; idx_str] =>
            match py_int idx_str with
            | Some idx =>
                if String.eqb action "delete" then delete_file idx s
                else if String.eqb action "rotate" then rotate_file R idx s
                else if String.eqb action "duplicate"
                then duplicate_file R idx s
                else if String.eqb action "preview" then
                  match as_int (session_get "preview_file_index" s) with
                  | Some p =>
                      if p =? idx
                      then rerun (<["preview_file_index" := PyNone]> s)
                      else rerun (<["preview_file_index" := PyInt idx]> s)
                  | None => rerun (<["preview_file_index" := PyInt idx]> s)
                  end
                else returned s
            | None => returned s
            end
        | _ => returned s
        end
    | _ => raising "AttributeError" s
    end
  else returned s.

(** An [int] for the samples: decimal digits only. *)
Definition sample_int (s : string) : option Z :=
  if String.eqb s "" then None
  else Z.of_int <$> NilZero.int_of_string s.

(** [rotate_file(idx)] called [k] times in a row. *)
Fixpoint rotate_times (R : renderers) (idx : Z) (k : nat)
    (s : gmap string pyval) : gmap string pyval :=
  match k with
  | O => s
  | S k' => rotate_times R idx k' (after (rotate_file R idx s))
  end.

(** The number of occurrences of [c] in [s]. *)
Fixpoint count_char (c : ascii) (s : string) : nat :=
  match s with
  | EmptyString => O
  | String c' s' => (if Ascii.eqb c' c then 1 else 0) + count_char c s'
  end.

(** The default of the first entry of [defaults] for [key]. *)
Definition first_default (key : string) (defaults : list (string * pyval))
    : option pyval :=
  snd <$> List.find (fun entry => String.eqb (fst entry) key) defaults.

(** The index kept in the session after the deletion of position [idx]
    still points at the file it pointed at. *)
Definition follows_file (files files' : list uploaded_file) (idx : Z)
    (before now : pyval) : Prop :=
  forall p, as_int before = Some p -> 0 <= p ->
    if p =? idx then now = PyNone
    else exists p', as_int now = Some p' /\ 0 <= p'
                    /\ files' !! Z.to_nat p' = files !! Z.to_nat p.

(** ** The upload page (app.py, lines 525-1679)

    [render_stage_2_upload] is one function.  Its parts are embedded one
    by one, each as a function of the session state it finds: the part
    that keeps the file list and its metadata, and the bodies that run
    when a button of the toolbar or of a card was pressed.  What a
    widget returns in the current script run is an argument. *)

(** *** The file list and its metadata (lines 526-701) *)

(** The metadata of a file that has none (lines 671-695).  [pdf_pages]
    is [len(PdfReader(f).pages)], [None] when that raises; the thumbnail
    is asked for after the page count was found. *)
Definition fresh_meta (pdf_pages : bytes -> option Z) (R : renderers)
    (f : uploaded_file) : upload_meta :=
  match pdf_pages (read f) with
  | Some n =>
      {| meta_name := name f; rotation := 0; meta_pages := Some n;
         thumb := generate_thumbnail R None (Some (read f)) 0 (180, 240) 0 |}
  | None =>
      {| meta_name := name f; rotation := 0; meta_pages := None;
         thumb := None |}
  end.

(** The branch [Individual PDFs] up to line 696.  [widget] is what the
    file uploader of this run returns: the first uploader while no file
    is kept, the uploader [add_more_<key>] afterwards. *)
Definition individual_pdfs (pdf_pages : bytes -> option Z) (R : renderers)
    (widget : list uploaded_file) (s : gmap string pyval) : ui_result :=
  let current := default (PyFiles []) (s !! "uploaded_files") in
  if negb (truthy current) then
    match widget with
    | [] => returned s
    | _ :: _ => rerun (<["uploaded_files" := PyFiles widget]> s)
    end
  else
    let s :=
      if bool_decide (is_Some (s !! "add_more_key")) then s
      else <["add_more_key" := PyInt 0]> s in
    match current, widget with
    | PyFiles current, _ :: _ =>
        let current := current ++ widget in
        let s := <["uploaded_files" := PyFiles current]> s in
        let s := delete "uploaded_meta" s in
        match as_int (session_get "add_more_key" s) with
        | Some k => rerun (<["add_more_key" := PyInt (k + 1)]> s)
        | None => raising "TypeError" s
        end
    | PyFiles current, [] =>
        match s !! "uploaded_meta" with
        | None =>
            returned
              (<["uploaded_meta" :=
                   PyMetas (fresh_meta pdf_pages R <$> current)]> s)
        | Some (PyMetas uploaded_meta) =>
            if negb (length uploaded_meta =? length current)%nat
            then returned
                   (<["uploaded_meta" :=
                        PyMetas (fresh_meta pdf_pages R <$> current)]> s)
            else returned s
        | Some _ => raising "TypeError" s
        end
    | _, _ :: _ => raising "AttributeError" s
    | _, [] => raising "TypeError" s
    end.

(** *** The sort button (lines 899-957) *)

Fixpoint insert_by {A} (before : A -> A -> bool) (x : A) (l : list A)
    : list A :=
  match l with
  | [] => [x]
  | y :: l' => if before x y then x :: y :: l' else y :: insert_by before x l'
  end.

(** [sorted(l, key=key, reverse=reverse)] for keys that are strings.
    Python's sort is stable, also with [reverse=True]: items with equal
    keys keep their order.  Strings compare by code point, which for
    their UTF-8 bytes is the order of the bytes. *)
Definition py_sorted {A} (key : A -> string) (reverse : bool) (l : list A)
    : list A :=
  foldr (insert_by (fun x y =>
                      if reverse then String.leb (key y) (key x)
                      else String.leb (key x) (key y)))
    [] l.

(** [map_old_to_new(old_idx)]: the first position of [old_idx] in
    [perm], counted from [new_pos]. *)
Fixpoint map_old_to_new (perm : list nat) (old_idx : Z) (new_pos : nat)
    : option nat :=
  match perm with
  | [] => None
  | orig_idx :: rest =>
      if Z.of_nat orig_idx =? old_idx then Some new_pos
      else map_old_to_new rest old_idx (S new_pos)
  end.

(** [int(v)]; [py_int] is [int] on strings, [None] for ValueError. *)
Definition int_of (py_int : string -> option Z) (v : pyval) : outcome Z :=
  match v with
  | PyInt z => Ret z
  | PyBool b => Ret (Z.b2z b)
  | PyStr s =>
      match py_int s with
      | Some z => Ret z
      | None => Raise "ValueError"
      end
  | _ => Raise "TypeError"
  end.

(** [[old_list[idx] for idx in perm]] when the lengths agree; [None]
    when they do not, or when an index is out of range. *)
Definition reorder {A} (perm : list nat) (old_list : list A)
    : option (list A) :=
  if (length old_list =? length perm)%nat
  then mapM (fun idx => old_list !! idx) perm
  else None.

Definition reorder_value (perm : list nat) (v : pyval) : option pyval :=
  match v with
  | PyFiles l => PyFiles <$> reorder perm l
  | PyMetas l => PyMetas <$> reorder perm l
  | PyExhibits l => PyExhibits <$> reorder perm l
  | PyPaths l => PyPaths <$> reorder perm l
  | _ => None
  end.

(** Body of [for k in related_keys]. *)
Definition reorder_related (perm : list nat) (s : gmap string pyval)
    (k : string) : gmap string pyval :=
  match s !! k with
  | Some v =>
      match reorder_value perm v with
      | Some v' => <[k := v']> s
      | None => s
      end
  | None => s
  end.

(** Body of [for sel_key in ('selected_upload_index',
    'preview_file_index')]. *)
Definition follow_sort (py_int : string -> option Z) (perm : list nat)
    (s : gmap string pyval) (sel_key : string) : gmap string pyval :=
  match s !! sel_key with
  | None | Some PyNone => s
  | Some v =>
      match int_of py_int v with
      | Ret old_sel =>
          match map_old_to_new perm old_sel 0 with
          | Some new_sel => <[sel_key := PyInt (Z.of_nat new_sel)]> s
          | None => delete sel_key s
          end
      | Raise _ => delete sel_key s
      end
  end.

(** The sort key of an item [(i, f, m)]; [lower] is [str.lower]. *)
Definition sort_key (lower : string -> string)
    (item : nat * uploaded_file * upload_meta) : string :=
  lower (meta_name (snd item)).

(** The body of [if st.button("Apply")]: [reverse] is whether the radio
    button stands on [Name, Z-A]. *)
Definition sort_files (lower : string -> string)
    (py_int : string -> option Z) (reverse : bool) (s : gmap string pyval)
    : ui_result :=
  match default (PyFiles []) (s !! "uploaded_files"),
        default (PyMetas []) (s !! "uploaded_meta") with
  | PyFiles files, PyMetas meta =>
      if truthy (PyFiles files) && truthy (PyMetas meta)
         && (length files =? length meta)%nat
      then
        let orig_items :=
          imap (fun i fm => (i, fst fm, snd fm)) (zip files meta) in
        let sorted_items := py_sorted (sort_key lower) reverse orig_items in
        let new_files := (fun item => snd (fst item)) <$> sorted_items in
        let new_meta := snd <$> sorted_items in
        let perm := (fun item => fst (fst item)) <$> sorted_items in
        let current_names := meta_name <$> meta in
        let new_names := meta_name <$> new_meta in
        if bool_decide (current_names <> new_names) then
          let s := <["uploaded_files" := PyFiles new_files]> s in
          let s := <["uploaded_meta" := PyMetas new_meta]> s in
          let s :=
            foldl (reorder_related perm) s
              ["exhibit_order"; "processed_files"; "exhibit_list"] in
          let s :=
            foldl (follow_sort py_int perm) s
              ["selected_upload_index"; "preview_file_index"] in
          rerun (clear_dynamic_keys s)
        else returned s
      else returned s
  | files, meta =>
      if truthy files && truthy meta then raising "TypeError" s
      else returned s
  end.

(** *** The rotation buttons of the toolbar (lines 959-1009) *)

(** Body of [for i, m in enumerate(meta)]; [uploaded_files] is [None]
    when the session holds no list there, on which [len] raises inside
    the [try]. *)
Definition turn_meta (R : renderers) (delta : Z)
    (uploaded_files : option (list uploaded_file)) (i : nat)
    (m : upload_meta) : upload_meta :=
  let m := set_rotation ((rotation m + delta) mod 360) m in
  match uploaded_files with
  | Some files =>
      match files !! i with
      | Some f =>
          let rot_local := rotation m in
          match generate_thumbnail R None (Some (read f)) 0
                  (thumb_size rot_local) rot_local with
          | Some (String c t) => set_thumb (String c t) m
          | _ => m
          end
      | None => m
      end
  | None => m
  end.

(** [delta] is -90 for [Rotate Left] and 90 for [Rotate Right]. *)
Definition rotate_all (R : renderers) (delta : Z) (s : gmap string pyval)
    : ui_result :=
  match default (PyMetas []) (s !! "uploaded_meta") with
  | PyMetas meta =>
      if truthy (PyMetas meta) then
        let uploaded_files :=
          match default (PyFiles []) (s !! "uploaded_files") with
          | PyFiles l => Some l
          | _ => None
          end in
        rerun (<["uploaded_meta" :=
                   PyMetas (imap (turn_meta R delta uploaded_files) meta)]> s)
      else returned s
  | meta => if truthy meta then raising "TypeError" s else returned s
  end.

(** *** Inserting files at a card (lines 1178-1196 and 1513-1679) *)

(** [f.size]: the number of bytes of an uploaded file, and what
    [duplicate_file] and the insertion set on their copies. *)
Definition file_size (f : uploaded_file) : Z := Z.of_nat (length (read f)).

(** The button [insert_here_<i>] of card [i]. *)
Definition insert_here (i : nat) (s : gmap string pyval) : ui_result :=
  let s := <["insert_position" := PyInt (Z.of_nat i + 1)]> s in
  let s :=
    match default (PyFiles []) (s !! "uploaded_files") with
    | PyFiles uploaded_files_tmp =>
        match uploaded_files_tmp !! i with
        | Some f_obj =>
            let s :=
              <["insert_anchor" := PyAnchor (name f_obj)
                                     (file_size f_obj)]> s in
            <["insert_anchor_index" := PyInt (Z.of_nat i)]> s
        | None =>
            let s := <["insert_anchor" := PyNone]> s in
            <["insert_anchor_index" := PyNone]> s
        end
    | _ =>
        let s := <["insert_anchor" := PyNone]> s in
        <["insert_anchor_index" := PyNone]> s
    end in
  match as_int (default (PyInt 0) (s !! "insert_uploader_key")) with
  | Some k =>
      let s := <["insert_uploader_key" := PyInt (k + 1)]> s in
      let s := <["open_insert_uploader" := PyBool true]> s in
      rerun s
  | None => raising "TypeError" s
  end.

(** The metadata built for an inserted file (lines 1548-1596): the file
    has no attribute [rotation], so its thumbnail is upright. *)
Definition inserted_meta (pdf_pages : bytes -> option Z) (R : renderers)
    (af : uploaded_file) : upload_meta :=
  {| meta_name := name af; rotation := 0; meta_pages := pdf_pages (read af);
     thumb := generate_thumbnail R None (Some (read af)) 0 (180, 240) 0 |}.

(** The loop that looks for the anchor (lines 1614-1622): the first
    index, from [idx_existing] on, of a file with this name and size. *)
Fixpoint find_anchor (anchor_name : string) (anchor_size : Z)
    (cleaned_uploaded : list uploaded_file) (idx_existing : nat)
    : option nat :=
  match cleaned_uploaded with
  | [] => None
  | f_obj :: rest =>
      if String.eqb (name f_obj) anchor_name
         && (file_size f_obj =? anchor_size)
      then Some idx_existing
      else find_anchor anchor_name anchor_size rest (S idx_existing)
  end.

(** [max(0, min(n, z))]. *)
Definition clamp (n : nat) (z : Z) : Z := Z.max 0 (Z.min (Z.of_nat n) z).

(** [insert_at] (lines 1540 and 1607-1634). *)
Definition insertion_index (py_int : string -> option Z)
    (cleaned_uploaded : list uploaded_file) (pos anchor anchor_index : pyval)
    : outcome Z :=
  match int_of py_int pos with
  | Raise e => Raise e
  | Ret insert_at =>
      let numeric :=
        match anchor_index with
        | PyNone => Ret (clamp (length cleaned_uploaded) insert_at)
        | _ =>
            match int_of py_int anchor_index with
            | Ret z => Ret (clamp (length cleaned_uploaded) (z + 1))
            | Raise e => Raise e
            end
        end in
      match anchor with
      | PyNone => Ret (clamp (length cleaned_uploaded) insert_at)
      | PyAnchor anchor_name anchor_size =>
          match find_anchor anchor_name anchor_size cleaned_uploaded 0 with
          | Some found_idx => Ret (Z.of_nat found_idx + 1)
          | None => numeric
          end
      | _ => numeric
      end
  end.

(** The prefixes cleared after an insertion (lines 1661-1664). *)
Definition insert_prefixes : list string :=
  dynamic_prefixes ++ ["insert_uploader_key"].

Definition clear_insert_keys (s : gmap string pyval) : gmap string pyval :=
  filter (fun entry : string * pyval =>
            existsb (fun p => String.prefix p (fst entry)) insert_prefixes
            = false) s.

(** [list(st.session_state.get(key, []))] read as a list of its kind;
    [None] when [list] raises. *)
Definition files_listed (v : option pyval) : option (list uploaded_file) :=
  match v with
  | None => Some []
  | Some (PyFiles l) => Some l
  | Some _ => None
  end.

Definition metas_listed (v : option pyval) : option (list upload_meta) :=
  match v with
  | None => Some []
  | Some (PyMetas l) => Some l
  | Some _ => None
  end.

(** Lines 1513-1679, for a session in which [insert_position] is not
    [None]; [new_files] is what the uploader [insert_files_<key>]
    returns. *)
Definition insert_files (pdf_pages : bytes -> option Z)
    (py_int : string -> option Z) (R : renderers)
    (new_files : list uploaded_file) (s : gmap string pyval) : ui_result :=
  let pos := session_get "insert_position" s in
  let s :=
    if truthy (session_get "open_insert_uploader" s)
    then <["open_insert_uploader" := PyBool false]> s
    else s in
  match new_files with
  | [] => returned s
  | _ :: _ =>
      match files_listed (s !! "uploaded_files"),
            metas_listed (s !! "uploaded_meta") with
      | Some uploaded, Some meta =>
          let inserted_files :=
            (fun af => {| name := name af; read := read af |}) <$> new_files in
          let inserted := inserted_meta pdf_pages R <$> new_files in
          match insertion_index py_int uploaded pos
                  (session_get "insert_anchor" s)
                  (session_get "insert_anchor_index" s) with
          | Raise e => raising e s
          | Ret insert_at =>
              let s := delete "insert_anchor" s in
              let s := delete "insert_anchor_index" s in
              let at_nat := Z.to_nat insert_at in
              let new_uploaded :=
                take at_nat uploaded ++ inserted_files
                ++ drop at_nat uploaded in
              let new_meta :=
                take at_nat meta ++ inserted ++ drop at_nat meta in
              let s := <["uploaded_files" := PyFiles new_uploaded]> s in
              let s := <["uploaded_meta" := PyMetas new_meta]> s in
              let s := delete "preview_file_index" s in
              let s := delete "selected_upload_index" s in
              let s := delete "insert_position" s in
              let s := <["open_insert_uploader" := PyBool false]> s in
              let s := clear_insert_keys s in
              rerun (<["selected_upload_index" := PyInt insert_at]> s)
          end
      | _, _ => raising "TypeError" s
      end
  end.

(** ** Stage 3: classification (app.py, lines 1747-1796)

    The block that runs while no classification is stored.  [classify]
    is [classifier.classify_document(pdf_content, filename, visa_type,
    document_id)]; the values handed to [progress_bar.progress] are
    collected in call order. *)

(** [for i, file in enumerate(files)]. *)
Fixpoint classify_uploads {C}
    (classify : bytes -> string -> string -> string -> outcome C)
    (visa_type : string) (total_files : Z) (i : nat)
    (files : list uploaded_file) (all_classifications : list C)
    (shown : list Q) : list Q * outcome (list C) :=
  match files with
  | [] => (shown, Ret all_classifications)
  | file :: rest =>
      match classify (read file) (name file) visa_type
              ("file_" +:+ str (Z.of_nat i)) with
      | Raise e => (shown, Raise e)
      | Ret result =>
          classify_uploads classify visa_type total_files (S i) rest
            (all_classifications ++ [result])
            (shown ++ [(inject_Z (Z.of_nat i + 1) / inject_Z total_files)%Q])
      end
  end.

(** [for i, file_path in enumerate(zip_files)]; [offset] is
    [len(files)]. *)
Fixpoint classify_archive {C}
    (classify : bytes -> string -> string -> string -> outcome C)
    (visa_type : string) (d : gmap string bytes) (total_files : Z)
    (offset : nat) (i : nat) (zip_files : list zip_entry)
    (all_classifications : list C) (shown : list Q)
    : list Q * outcome (list C) :=
  match zip_files with
  | [] => (shown, Ret all_classifications)
  | NotStr _ :: _ => (shown, Raise "TypeError")
  | PathStr file_path :: rest =>
      match d !! file_path with
      | None => (shown, Raise "FileNotFoundError")
      | Some content =>
          match classify content (basename file_path) visa_type
                  ("zip_" +:+ str (Z.of_nat i)) with
          | Raise e => (shown, Raise e)
          | Ret result =>
              classify_archive classify visa_type d total_files offset (S i)
                rest (all_classifications ++ [result])
                (shown ++ [(inject_Z (Z.of_nat offset + Z.of_nat i + 1)
                            / inject_Z total_files)%Q])
          end
      end
  end.

Definition classify_documents {C}
    (classify : bytes -> string -> string -> string -> outcome C)
    (visa_type : string) (d : gmap string bytes)
    (files : list uploaded_file) (zip_files : list zip_entry)
    : list Q * outcome (list C) :=
  let total_files := Z.of_nat (length files) + Z.of_nat (length zip_files) in
  match classify_uploads classify visa_type total_files 0 files [] [] with
  | (shown, Raise e) => (shown, Raise e)
  | (shown, Ret all_classifications) =>
      classify_archive classify visa_type d total_files (length files) 0
        zip_files all_classifications shown
  end.

(** ** Samples for the upload page *)

Definition no_renderers : renderers := {| fitz := None; pdf_to_image := None |}.

(** Metadata of [f] turned by a quarter. *)
Definition turned_meta (f : uploaded_file) : upload_meta :=
  {| meta_name := name f; rotation := 90; meta_pages := None;
     thumb := None |}.

(** Three files, each shown turned by a quarter. *)
Definition turned_session : gmap string pyval :=
  <["uploaded_files" := PyFiles three_files]>
    (<["uploaded_meta" := PyMetas (turned_meta <$> three_files)]> ∅).

Definition fourth_file : uploaded_file := {| name := "d.pdf"; read := [] |}.

(** ** Vocabulary for the sort button *)

(** Each item of [l] comes before the one that follows it. *)
Definition in_order {A} (before : A -> A -> bool) (l : list A) : Prop :=
  forall k a b, l !! k = Some a -> l !! S k = Some b -> before a b = true.

(** The order that the sort button asks for: by lowercased name, from
    Z to A when [reverse] is set. *)
Definition name_order (lower : string -> string) (reverse : bool)
    (a b : upload_meta) : bool :=
  if reverse then String.leb (lower (meta_name b)) (lower (meta_name a))
  else String.leb (lower (meta_name a)) (lower (meta_name b)).

(** [orig_items] and [sorted_items] of the sort button. *)
Definition upload_items (files : list uploaded_file) (meta : list upload_meta)
    : list (nat * uploaded_file * upload_meta) :=
  imap (fun i fm => (i, fst fm, snd fm)) (zip files meta).

Definition sorted_uploads (lower : string -> string) (reverse : bool)
    (files : list uploaded_file) (meta : list upload_meta)
    : list (nat * uploaded_file * upload_meta) :=
  py_sorted (sort_key lower) reverse (upload_items files meta).

(** Items of [l] that are the [same] to the order stand by increasing
    [rank]. *)
Definition stable {A} (rank : A -> nat) (same : A -> A -> Prop) (l : list A)
    : Prop :=
  forall k1 k2 a b, (k1 < k2)%nat -> l !! k1 = Some a -> l !! k2 = Some b ->
    same a b -> (rank a < rank b)%nat.

(** A [str.lower] for the samples: the letters A to Z only. *)
Fixpoint sample_lower (s : string) : string :=
  match s with
  | EmptyString => EmptyString
  | String c s' =>
      let n := nat_of_ascii c in
      String (if (65 <=? n)%nat && (n <=? 90)%nat
              then ascii_of_nat (n + 32) else c)
        (sample_lower s')
  end.

(** The three files again, the first one selected and previewed. *)
Definition selecting_session : gmap string pyval :=
  <["selected_upload_index" := PyInt 0]>
    (<["preview_file_index" := PyInt 0]> turned_session).

(** ** Vocabulary for the insertion *)

(** [g] has the name and the size of [f]: the two are the same to the
    anchor. *)
Definition same_anchor (f g : uploaded_file) : Prop :=
  name g = name f /\ file_size g = file_size f.

(** A key that the insertion clears by its prefix. *)
Definition is_insert_key (k : string) : bool :=
  existsb (fun p => String.prefix p k) insert_prefixes.

(** The session after [duplicate_file idx] on the three sample files. *)
Definition duplicated_session : gmap string pyval :=
  after (duplicate_file no_renderers 0 turned_session).

(** ** Vocabulary for the classification *)

(** The values shown on the progress bar while the items [i], [i+1],
    ..., [i+n-1] of [total_files] are classified. *)
Definition shares (total_files : Z) (i n : nat) : list Q :=
  (fun k => (inject_Z (Z.of_nat k + 1) / inject_Z total_files)%Q) <$> seq i n.

(** A classifier for the samples: it answers with the document id. *)
Definition sample_classify (content : bytes) (filename visa_type
    document_id : string) : outcome string :=
  Ret document_id.

(** A disk with one extracted file. *)
Definition archive_disk : gmap string bytes :=
  {[ "/data/z.pdf" := [Byte.x25] ]}.

(** ** Vocabulary for the file list *)

(** The session holds a list of files and a list of metadata of the
    same length. *)
Definition aligned (s : gmap string pyval) : Prop :=
  exists files meta,
    s !! "uploaded_files" = Some (PyFiles files)
    /\ s !! "uploaded_meta" = Some (PyMetas meta)
    /\ length files = length meta.

(** ** The pages view (app.py, lines 1356-1392) *)

(** One entry of [all_pages]. *)
Record page_card := {
  file_index : nat;
  file_name : string;
  page_index : nat;
  card_thumb : pyval;
  card_total_pages : nat }.

(** [int(m.get('pages', 0)) if m.get('pages') else 0], as the number of
    rounds of [for p_idx in range(num_pages)]. *)
Definition num_pages_of (m : upload_meta) : nat :=
  Z.to_nat (default 0 (meta_pages m)).

(** [f"thumb_{f.name}_{f.size}_{p_idx}"]. *)
Definition cache_key (f : uploaded_file) (p_idx : nat) : string :=
  "thumb_" +:+ name f +:+ "_" +:+ str (file_size f) +:+ "_"
  +:+ str (Z.of_nat p_idx).

(** What the [try] stores under a missing cache key. *)
Definition page_thumb (R : renderers) (f : uploaded_file) (p_idx : nat)
    : pyval :=
  match generate_thumbnail R None (Some (read f)) (Z.of_nat p_idx)
          (150, 200) 0 with
  | Some t => PyStr t
  | None => PyNone
  end.

(** Body of [for p_idx in range(num_pages)]. *)
Definition collect_page (R : renderers) (i : nat) (f : uploaded_file)
    (m : upload_meta) (st : gmap string pyval * list page_card)
    (p_idx : nat) : gmap string pyval * list page_card :=
  let s := fst st in
  let key := cache_key f p_idx in
  let s :=
    if bool_decide (is_Some (s !! key)) then s
    else <[key := page_thumb R f p_idx]> s in
  (s, snd st ++ [{| file_index := i; file_name := meta_name m;
                    page_index := p_idx;
                    card_thumb := session_get key s;
                    card_total_pages := num_pages_of m |}]).

(** [for i, f in enumerate(files)], from position [i] on; [meta[i]]
    raises IndexError past the end of the metadata. *)
Fixpoint collect_pages (R : renderers) (meta : list upload_meta) (i : nat)
    (files : list uploaded_file) (s : gmap string pyval)
    (all_pages : list page_card)
    : gmap string pyval * outcome (list page_card) :=
  match files with
  | [] => (s, Ret all_pages)
  | f :: rest =>
      match meta !! i with
      | None => (s, Raise "IndexError")
      | Some m =>
          let st :=
            foldl (collect_page R i f m) (s, all_pages)
              (seq 0 (num_pages_of m)) in
          collect_pages R meta (S i) rest (fst st) (snd st)
      end
  end.

Definition pages_view (R : renderers) (files : list uploaded_file)
    (meta : list upload_meta) (s : gmap string pyval)
    : gmap string pyval * outcome (list page_card) :=
  collect_pages R meta 0 files s [].

(** The cards of [cards] show what the session [s] holds under their
    cache keys. *)
Definition shows_cache (files : list uploaded_file)
    (meta : list upload_meta) (s : gmap string pyval)
    (cards : list page_card) : Prop :=
  forall card, card ∈ cards ->
    exists f m,
      files !! file_index card = Some f
      /\ meta !! file_index card = Some m
      /\ (page_index card < num_pages_of m)%nat
      /\ file_name card = meta_name m
      /\ s !! cache_key f (page_index card) = Some (card_thumb card).

(** A renderer for the samples: every document has one page, and its
    picture is made of the bytes of the document. *)
Definition echo_renderers : renderers :=
  {| fitz :=
       Some {| open_path := fun _ => Raise "FileNotFoundError";
               open_stream := fun b =>
                 Ret {| page_count := 1;
                        render_jpeg := fun _ _ _ => Ret b |} |};
     pdf_to_image := None |}.

(** Two files of one name and one size, and different contents. *)
Definition namesakes : list uploaded_file :=
  [ {| name := "scan.pdf"; read := [Byte.x01; Byte.x01] |};
    {| name := "scan.pdf"; read := [Byte.x02; Byte.x02] |} ].

(** * Properties *)

(** ** Strings *)

Lemma append_cons (c : ascii) (a b : string) :
  String c a +:+ b = String c (a +:+ b).
Proof. reflexivity. Qed.

Lemma append_nil_r (a : string) : a +:+ "" = a.
Proof.
  induction a as [|c a IH]; [reflexivity|].
  now rewrite append_cons, IH.
Qed.

Lemma append_assoc (a b c : string) : (a +:+ b) +:+ c = a +:+ (b +:+ c).
Proof.
  induction a as [|x a IH]; [reflexivity|].
  now rewrite !append_cons, IH.
Qed.

(** ** [to_roman] *)

Lemma to_roman_for_spec trips sym v num roman_num :
  to_roman_for trips sym v num roman_num =
  (num - Z.of_nat trips * v, roman_num +:+ repeat_string sym trips).
Proof.
  revert num roman_num.
  induction trips as [|k IH]; intros num roman_num.
  - cbn [to_roman_for repeat_string]. rewrite append_nil_r. f_equal. lia.
  - cbn [to_roman_for repeat_string]. rewrite IH. f_equal; [lia|].
    rewrite append_assoc. reflexivity.
Qed.

Lemma to_roman_while_step num i roman_num :
  to_roman_while num i roman_num =
  if 0 <? num then
    match val !! i, syms !! i with
    | Some v, Some s =>
        let st := to_roman_for (Z.to_nat (num / v)) s v num roman_num in
        to_roman_while (fst st) (S i) (snd st)
    | _, _ => Raise "IndexError: list index out of range"
    end
  else Ret roman_num.
Proof.
  funelim (to_roman_while num i roman_num);
    repeat match goal with
           | H : (0 <? _) = _ |- _ => rewrite H
           | H : val !! _ = _ |- _ => rewrite H
           | H : syms !! _ = _ |- _ => rewrite H
           end; reflexivity.
Qed.

(** What is already written stays in front of what the loop adds. *)
Lemma to_roman_while_prepend (n : nat) :
  forall num i roman_num, (length val - i = n)%nat ->
    to_roman_while num i roman_num
    = prepend roman_num (to_roman_while num i "").
Proof.
  induction n as [|n IH]; intros num i acc Hn.
  - rewrite (to_roman_while_step num i acc), (to_roman_while_step num i "").
    destruct (0 <? num); [|cbn [prepend]; now rewrite append_nil_r].
    rewrite (lookup_ge_None_2 val i) by lia. reflexivity.
  - rewrite (to_roman_while_step num i acc), (to_roman_while_step num i "").
    destruct (0 <? num); [|cbn [prepend]; now rewrite append_nil_r].
    destruct (val !! i) as [v|]; [|reflexivity].
    destruct (syms !! i) as [s|]; [|reflexivity].
    cbv zeta. rewrite !to_roman_for_spec. cbn [fst snd].
    rewrite (IH _ (S i) (acc +:+ _)) by lia.
    rewrite (IH _ (S i) ("" +:+ _)) by lia.
    destruct (to_roman_while _ (S i) ""); cbn [prepend]; [|reflexivity].
    change ("" +:+ repeat_string s (Z.to_nat (num / v)))
      with (repeat_string s (Z.to_nat (num / v))).
    now rewrite append_assoc.
Qed.

Lemma outcome_is_true o s : outcome_is o s = true -> o = Ret s.
Proof.
  destruct o as [r|e]; simpl; [|discriminate].
  intros H. apply String.eqb_eq in H. now subst.
Qed.

(** From the second table entry on, the loop writes the three digits of
    a number below one thousand; checked for each of them. *)
Lemma to_roman_below_thousand_checked :
  forallb (fun r => outcome_is (to_roman_while (Z.of_nat r) 1 "")
                      (below_thousand (Z.of_nat r)))
    (seq 0 1000) = true.
Proof. vm_compute. reflexivity. Qed.

Lemma to_roman_below_thousand r :
  0 <= r < 1000 -> to_roman_while r 1 "" = Ret (below_thousand r).
Proof.
  intros Hr. apply outcome_is_true.
  pose proof to_roman_below_thousand_checked as H.
  rewrite forallb_forall in H.
  specialize (H (Z.to_nat r)).
  rewrite Z2Nat.id in H by lia. apply H.
  apply in_seq. lia.
Qed.

Lemma roman_by_digits_split n :
  0 <= n ->
  roman_by_digits n
  = repeat_string "M" (Z.to_nat (n / 1000)) +:+ below_thousand (n mod 1000).
Proof.
  intros Hn. unfold roman_by_digits, below_thousand.
  replace ((n mod 1000 / 100) mod 10) with ((n / 100) mod 10).
  2:{ rewrite (Z.mod_eq n 1000) by lia.
      replace (n - 1000 * (n / 1000))
        with (n + (- (10 * (n / 1000))) * 100) by lia.
      rewrite Z.div_add by lia.
      replace (n / 100 + - (10 * (n / 1000)))
        with (n / 100 + (- (n / 1000)) * 10) by lia.
      now rewrite Z.mod_add by lia. }
  replace ((n mod 1000 / 10) mod 10) with ((n / 10) mod 10).
  2:{ rewrite (Z.mod_eq n 1000) by lia.
      replace (n - 1000 * (n / 1000))
        with (n + (- (100 * (n / 1000))) * 10) by lia.
      rewrite Z.div_add by lia.
      replace (n / 10 + - (100 * (n / 1000)))
        with (n / 10 + (- (10 * (n / 1000))) * 10) by lia.
      now rewrite Z.mod_add by lia. }
  replace ((n mod 1000) mod 10) with (n mod 10).
  2:{ rewrite (Z.mod_eq n 1000) by lia.
      replace (n - 1000 * (n / 1000))
        with (n + (- (100 * (n / 1000))) * 10) by lia.
      now rewrite Z.mod_add by lia. }
  reflexivity.
Qed.

(** [to_roman] returns, and what it returns is the digit-by-digit
    numeral. *)
Lemma to_roman_correct n :
  0 <= n -> to_roman n = Ret (roman_by_digits n).
Proof.
  intros Hn. rewrite roman_by_digits_split by assumption.
  unfold to_roman. rewrite to_roman_while_step.
  destruct (0 <? n) eqn:Hpos.
  - cbn [val syms lookup list_lookup]. cbv zeta.
    rewrite to_roman_for_spec. cbn [fst snd].
    rewrite to_roman_while_prepend with (n := 12%nat) by reflexivity.
    rewrite Z2Nat.id by (apply Z.div_pos; lia).
    replace (n - n / 1000 * 1000) with (n mod 1000)
      by (rewrite Z.mod_eq by lia; lia).
    rewrite to_roman_below_thousand by (apply Z.mod_pos_bound; lia).
    reflexivity.
  - assert (n = 0) by lia. subst n. reflexivity.
Qed.

(** ** Numbering *)

(** Up to 3999 the closed form is the canonical numeral, and no additive
    form occurs in it. *)
Lemma canonical_roman_checked :
  forallb (fun k =>
             let n := Z.of_nat k in
             match canonical_roman n with
             | Some numeral =>
                 String.eqb numeral (roman_by_digits n)
                 && forallb (fun form => negb (occurs form numeral))
                      additive_forms
             | None => false
             end)
    (seq 1 3999) = true.
Proof. vm_compute. reflexivity. Qed.

Lemma canonical_roman_by_digits n :
  1 <= n <= 3999 ->
  canonical_roman n = Some (roman_by_digits n)
  /\ forallb (fun form => negb (occurs form (roman_by_digits n)))
       additive_forms = true.
Proof.
  intros Hn. pose proof canonical_roman_checked as H.
  rewrite forallb_forall in H. specialize (H (Z.to_nat n)).
  cbv zeta in H. rewrite Z2Nat.id in H by lia.
  assert (Hin : In (Z.to_nat n) (seq 1 3999)) by (apply in_seq; lia).
  specialize (H Hin).
  destruct (canonical_roman n) as [numeral|]; [|discriminate].
  apply andb_prop in H. destruct H as [Heq Hforms].
  apply String.eqb_eq in Heq. subst numeral. auto.
Qed.

(** From 4000 on the numeral starts with four M. *)
Lemma roman_by_digits_from_4000 n :
  4000 <= n -> exists rest, roman_by_digits n = "MMMM" +:+ rest.
Proof.
  intros Hn. unfold roman_by_digits.
  assert (Hq : 4 <= n / 1000) by (apply Z.div_le_lower_bound; lia).
  destruct (Z.to_nat (n / 1000)) as [|[|[|[|q]]]] eqn:Hk; try lia.
  cbn [repeat_string]. eexists.
  rewrite !append_assoc. reflexivity.
Qed.

Lemma str_parses n :
  0 < n -> option_map Z.of_int (NilZero.int_of_string (str n)) = Some n.
Proof.
  intros Hn. unfold str.
  destruct n as [|p|p]; try lia.
  rewrite NilZero.isi.
  - cbn [option_map]. f_equal. apply (DecimalZ.of_to (Z.pos p)).
  - cbn [Z.to_int]. intros H. injection H as H.
    exact (Unsigned.to_uint_nonnil p H).
  - discriminate.
Qed.

(** C6, counterexample.  Position 3999 gets the number 4000, which the
    greedy loop writes MMMM: four M in a row, an additive form, where no
    canonical numeral exists. *)
Lemma roman_4000_is_additive :
  exhibit_number "roman" 3999 = Ret "MMMM"
  /\ canonical_roman 4000 = None
  /\ existsb (fun form => occurs form "MMMM") additive_forms = true.
Proof. vm_compute. repeat split. Qed.

(** C6, as the code has it.  For every 0-based position [i], style
    "numbers" assigns the decimal numeral of [i + 1] (it is
    [str (i + 1)], which reads back as [i + 1]).  Style "roman" assigns
    the canonical subtractive-notation numeral of [i + 1] as long as
    [i + 1] is at most 3999: the greedy loop of [to_roman] returns, and
    returns the numeral made of the thousands, hundreds, tens and units
    digits from the tables with CM, CD, XC, XL, IX, IV, in which none of
    IIII, XXXX, CCCC, MMMM, VV, LL, DD occurs.  From 4000 on, where no
    canonical numeral exists, the loop still returns and writes one M
    per thousand, so the numeral starts with MMMM.  The numbers 4, 9,
    40, 90, 400, 900 are written IV, IX, XL, XC, CD, CM. *)
Theorem numbers_and_roman_numbering (i : nat) :
  let n := Z.of_nat i + 1 in
  exhibit_number "numbers" i = Ret (str n)
  /\ option_map Z.of_int (NilZero.int_of_string (str n)) = Some n
  /\ (n <= 3999 ->
      exists numeral,
        canonical_roman n = Some numeral
        /\ exhibit_number "roman" i = Ret numeral
        /\ forallb (fun form => negb (occurs form numeral)) additive_forms
           = true)
  /\ (4000 <= n ->
      canonical_roman n = None
      /\ exists rest, exhibit_number "roman" i = Ret ("MMMM" +:+ rest))
  /\ map to_roman [4; 9; 40; 90; 400; 900]
     = map Ret ["IV"; "IX"; "XL"; "XC"; "CD"; "CM"].
Proof.
  intros n. subst n.
  assert (Hroman : exhibit_number "roman" i
                   = Ret (roman_by_digits (Z.of_nat i + 1))).
  { unfold exhibit_number. cbn [String.eqb Ascii.eqb Bool.eqb].
    apply to_roman_correct. lia. }
  split; [reflexivity|]. split; [apply str_parses; lia|].
  split; [|split; [|reflexivity]].
  - intros Hn.
    destruct (canonical_roman_by_digits (Z.of_nat i + 1)) as [Hc Hforms];
      [lia|].
    exists (roman_by_digits (Z.of_nat i + 1)). auto.
  - intros Hn. split.
    + unfold canonical_roman.
      replace (Z.of_nat i + 1 <=? 3999) with false by (symmetry; lia).
      now rewrite andb_false_r.
    + destruct (roman_by_digits_from_4000 (Z.of_nat i + 1) Hn) as [rest Hr].
      exists rest. now rewrite Hroman, Hr.
Qed.

Lemma numbers_and_roman_numbering_witness :
  exhibit_number "roman" 3 = Ret "IV"
  /\ exists rest, exhibit_number "roman" 3999 = Ret ("MMMM" +:+ rest).
Proof.
  split.
  - destruct (proj1 (proj2 (proj2 (numbers_and_roman_numbering 3))))
      as (numeral & Hc & Hr & _); [cbn; lia|].
    rewrite Hr. f_equal.
    assert (Some numeral = Some "IV") as Heq
      by (rewrite <- Hc; reflexivity).
    now injection Heq.
  - apply (proj1 (proj2 (proj2 (proj2 (numbers_and_roman_numbering 3999))))).
    cbn. lia.
Defined.

(** Below position 52 the letters agree with the bijective base-26
    sequence: A..Z, then AA..AZ. *)
Lemma letters_agree_below_52 i :
  (i < 52)%nat -> exhibit_number "letters" i = Ret (letter_sequence i).
Proof.
  intros Hi. apply outcome_is_true.
  assert (H : forallb (fun i => outcome_is (exhibit_number "letters" i)
                                  (letter_sequence i)) (seq 0 52) = true)
    by (vm_compute; reflexivity).
  rewrite forallb_forall in H. apply H. apply in_seq. lia.
Qed.

(** C2. At position 52 (the 53rd input) style "letters" yields "A["
    where the bijective base-26 sequence has "BA": after AZ the code
    keeps the prefix A and moves on to the character after Z. *)
Theorem letters_numbering_leaves_sequence_at_52 :
  exhibit_number "letters" 52 = Ret "A["
  /\ letter_sequence 52 = "BA"
  /\ exhibit_number "letters" 26 = Ret "AA"
  /\ outcome_is (exhibit_number "letters" 52) (letter_sequence 52) = false.
Proof. repeat split. Qed.

(** ** The monad *)

Lemma bind_ret_inv {A B} (m : M A) (k : A -> M B) w a :
  out (m w) = Ret a ->
  bind m k w = {| calls := calls (m w) ++ calls (k a (final (m w)));
                  final := final (k a (final (m w)));
                  out := out (k a (final (m w))) |}.
Proof. intros H. unfold bind. now rewrite H. Qed.

Lemma bind_raise_inv {A B} (m : M A) (k : A -> M B) w e :
  out (m w) = Raise e ->
  bind m k w = {| calls := calls (m w); final := final (m w);
                  out := Raise e |}.
Proof. intros H. unfold bind. now rewrite H. Qed.

Lemma call_calls {A} (c : collaborator A) w : calls (call c w) = [].
Proof. unfold call. now destruct (c (disk w)). Qed.

Lemma call_session {A} (c : collaborator A) w :
  session (final (call c w)) = session w.
Proof. unfold call. now destruct (c (disk w)). Qed.

Lemma call_out {A} (c : collaborator A) w :
  out (call c w) = snd (c (disk w)).
Proof. unfold call. now destruct (c (disk w)). Qed.

Lemma call_disk {A} (c : collaborator A) w :
  disk (final (call c w)) = fst (c (disk w)).
Proof. unfold call. now destruct (c (disk w)). Qed.

Lemma emit_bind {B} (c : proc_call) (k : unit -> M B) w :
  bind (emit c) k w
  = {| calls := c :: calls (k tt w); final := final (k tt w);
       out := out (k tt w) |}.
Proof. reflexivity. Qed.

(** Completing a step after [m]: the call is made when [m] returns. *)
Lemma complete_after {A} (m : M A) (step : string) w :
  let r := bind m (fun a => emit (complete_step step) ;; ret a) w in
  calls r
  = calls (m w) ++ (if is_ret (out (m w)) then [complete_step step] else [])
  /\ out r = out (m w)
  /\ final r = final (m w).
Proof.
  cbv zeta. unfold bind. destruct (out (m w)); cbn.
  - auto.
  - rewrite app_nil_r. auto.
Qed.

(** ** Loops *)

Lemma progress_run_cons step total i k :
  progress_run step total i (S k)
  = set_step_progress step (percent_of (Z.of_nat i + 1) total)
      :: progress_run step total (S i) k.
Proof. reflexivity. Qed.

(** A loop whose body reports its progress once, as its last action,
    makes a run of progress calls: one per item it got through. *)
Lemma for_enumerate_progress {X St} (body : nat -> X -> St -> M St)
    step total :
  (forall i x s w,
     calls (body i x s w)
     = if is_ret (out (body i x s w))
       then [set_step_progress step (percent_of (Z.of_nat i + 1) total)]
       else []) ->
  forall l i s w,
    exists k, (k <= length l)%nat
      /\ calls (for_enumerate body i l s w) = progress_run step total i k
      /\ (is_ret (out (for_enumerate body i l s w)) = true -> k = length l).
Proof.
  intros Hbody l. induction l as [|x l IH]; intros i s w.
  - exists 0%nat. cbn. auto.
  - cbn [for_enumerate]. specialize (Hbody i x s w).
    destruct (out (body i x s w)) as [s'|e] eqn:Hout.
    + rewrite (bind_ret_inv _ _ _ _ Hout). cbn [calls out].
      destruct (IH (S i) s' (final (body i x s w))) as (k & Hk & Hc & Hr).
      exists (S k). rewrite Hbody, Hc, progress_run_cons. cbn [is_ret].
      split; [cbn [length]; lia|]. split; [reflexivity|].
      intros H. cbn [length]. rewrite (Hr H). reflexivity.
    + rewrite (bind_raise_inv _ _ _ _ Hout). cbn [calls out].
      exists 0%nat. rewrite Hbody. cbn.
      split; [lia|]. split; [reflexivity | discriminate].
Qed.

(** A loop whose body only makes calls of some kind only makes calls of
    that kind. *)
Lemma for_enumerate_calls_forall {X St} (body : nat -> X -> St -> M St)
    (P : proc_call -> Prop) :
  (forall i x s w, Forall P (calls (body i x s w))) ->
  forall l i s w, Forall P (calls (for_enumerate body i l s w)).
Proof.
  intros Hbody l. induction l as [|x l IH]; intros i s w.
  - constructor.
  - cbn [for_enumerate]. unfold bind.
    destruct (out (body i x s w)); cbn [calls]; [|apply Hbody].
    apply Forall_app. split; [apply Hbody | apply IH].
Qed.

(** ** The calls of each step *)

Section StepCalls.

Variable E : env.
Variable cfg : config.
Variable files : list uploaded_file.
Variable zip_files : list zip_entry.

Lemma extract_upload_run (all : list uploaded_file) i file file_paths w :
  let r := extract_upload E all i file file_paths w in
  calls r = [set_step_progress "extract"
               (percent_of (Z.of_nat i + 1)
                  (Z.max (Z.of_nat (length all)) 1))]
  /\ out r = Ret (file_paths ++ [upload_path E file])
  /\ final r = set_disk (<[upload_path E file := read file]> (disk w)) w.
Proof. cbv zeta. repeat split. Qed.

Lemma upload_loop_run (all : list uploaded_file) l i file_paths w :
  let r := for_enumerate (extract_upload E all) i l file_paths w in
  out r = Ret (file_paths ++ map (upload_path E) l)
  /\ final r = set_disk (write_uploads E l (disk w)) w.
Proof.
  cbv zeta. revert i file_paths w.
  induction l as [|x l IH]; intros i file_paths w.
  - cbn. rewrite app_nil_r. destruct w; split; reflexivity.
  - cbn [for_enumerate].
    destruct (extract_upload_run all i x file_paths w) as (_ & Ho & Hf).
    cbv zeta in Ho, Hf.
    rewrite (bind_ret_inv _ _ w _ Ho). cbn [out final].
    destruct (IH (S i) (file_paths ++ [upload_path E x])
                (final (extract_upload E all i x file_paths w))) as [-> ->].
    rewrite Hf. split.
    + rewrite <- app_assoc. reflexivity.
    + reflexivity.
Qed.

Lemma extract_zip_calls z file_paths w :
  Forall (is_error_report "extract") (calls (extract_zip E z file_paths w)).
Proof.
  destruct z as [p|printed]; cbn [extract_zip].
  - destruct (negb (isabs p)).
    + repeat constructor. eexists. reflexivity.
    + unfold bind at 1. cbn [get_disk out final calls].
      destruct (bool_decide (is_Some (disk w !! p))).
      * unfold bind, shutil_copy, raise, write_file, ret.
        destruct (disk w !! p); [destruct (String.eqb _ _)|];
          cbn; constructor.
      * repeat constructor. eexists. reflexivity.
  - repeat constructor. eexists. reflexivity.
Qed.

(** The calls of the extract step; without archive entries it reports
    no error. *)
Lemma extract_step_errors w :
  let r := extract_step E files zip_files w in
  exists errs,
    Forall (is_error_report "extract") errs
    /\ calls r
       = (update_step "extract" Running None
            :: progress_run "extract" (Z.max (Z.of_nat (length files)) 1)
                 0 (length files)
            ++ errs)
         ++ (if is_ret (out r) then [complete_step "extract"] else [])
    /\ (zip_files = [] -> errs = []).
Proof.
  cbv zeta. unfold extract_step.
  rewrite (bind_ret_inv _ _ w tt) by reflexivity.
  cbn [emit calls final out].
  destruct (for_enumerate_progress (extract_upload E files) "extract"
              (Z.max (Z.of_nat (length files)) 1)) with
    (l := files) (i := 0%nat) (s := @nil string) (w := w)
    as (k & _ & Hcalls & Hk).
  { intros i x s w'.
    now destruct (extract_upload_run files i x s w') as (-> & -> & _). }
  destruct (upload_loop_run files files 0 [] w) as [Hout Hfinal].
  cbv zeta in Hout, Hfinal. cbn [app] in Hout.
  assert (Hret : is_ret (out (for_enumerate (extract_upload E files) 0 files
                                [] w)) = true) by now rewrite Hout.
  rewrite (Hk Hret) in Hcalls.
  rewrite (bind_ret_inv _ _ _ _ Hout). cbn [calls final out].
  rewrite Hcalls. clear Hcalls Hk Hret Hout Hfinal.
  set (paths := map (upload_path E) files).
  set (w1 := final (for_enumerate (extract_upload E files) 0 files [] w)).
  pose proof (for_enumerate_calls_forall (fun _ => extract_zip E)
                (is_error_report "extract")
                (fun _ => extract_zip_calls) zip_files 0%nat paths w1)
    as Herrs.
  fold (for_each (extract_zip E) zip_files paths) in Herrs.
  exists (calls (for_each (extract_zip E) zip_files paths w1)).
  split; [exact Herrs|]. split; [|intros ->; reflexivity].
  destruct (out (for_each (extract_zip E) zip_files paths w1)) eqn:Hz.
  - rewrite (bind_ret_inv _ _ _ _ Hz). cbn [calls final out emit bind ret is_ret].
    rewrite app_nil_r. cbn [app]. rewrite <- app_assoc. reflexivity.
  - rewrite (bind_raise_inv _ _ _ _ Hz). cbn [calls final out is_ret].
    rewrite app_nil_r. reflexivity.
Qed.


Lemma compress_item_calls compress file_paths i file_path st w :
  let r := compress_item compress file_paths i file_path st w in
  calls r
  = if is_ret (out r)
    then [set_step_progress "compress"
            (percent_of (Z.of_nat i + 1) (Z.of_nat (length file_paths)))]
    else [].
Proof.
  cbv zeta. destruct st as [crs res]. unfold compress_item.
  pose proof (call_calls (compress file_path) w) as Hc.
  destruct (out (call (compress file_path) w)) as [c|e] eqn:Ho.
  - rewrite (bind_ret_inv _ _ _ _ Ho). cbn [calls out final].
    rewrite Hc. reflexivity.
  - rewrite (bind_raise_inv _ _ _ _ Ho). cbn [calls out is_ret]. exact Hc.
Qed.

Lemma compress_step_calls file_paths res w :
  let r := compress_step E cfg file_paths res w in
  exists k, (k <= length file_paths)%nat
    /\ calls r
       = (if compression_on E cfg
          then update_step "compress" Running None
                 :: progress_run "compress" (Z.of_nat (length file_paths))
                      0 k
          else [])
         ++ (if is_ret (out r) then [complete_step "compress"] else [])
    /\ (is_ret (out r) = true -> compression_on E cfg = true ->
        k = length file_paths).
Proof.
  cbv zeta. unfold compress_step.
  match goal with
  | |- context [bind ?m ?f w] =>
      destruct (complete_after m "compress" w) as (Hc & Ho & _)
  end.
  cbv zeta in Hc, Ho. rewrite Hc, Ho. clear Hc Ho.
  unfold compression_on.
  destruct (enable_compression cfg); cbn [andb].
  - destruct (compressor E) as [compress|].
    + rewrite bool_decide_eq_true_2 by eauto.
      destruct (for_enumerate_progress (compress_item compress file_paths)
                  "compress" (Z.of_nat (length file_paths))
                  (compress_item_calls compress file_paths)
                  file_paths 0%nat ([], res) w) as (k & Hk & Hc & Hr).
      exists k. split; [exact Hk|].
      rewrite emit_bind. cbn [calls out]. rewrite Hc.
      split; [reflexivity|]. intros H _. apply Hr, H.
    + rewrite bool_decide_eq_false_2 by (intros [? ?]; discriminate).
      exists 0%nat. split; [lia|]. split; [reflexivity | discriminate].
  - exists 0%nat. split; [lia|]. split; [reflexivity | discriminate].
Qed.

Lemma numbered_copy_calls file_path exhibit_num bound info w :
  calls (numbered_copy E cfg file_path exhibit_num bound info w) = [].
Proof.
  unfold numbered_copy, catch.
  destruct (include_full_text_images cfg); [destruct bound|];
    unfold call, raise;
    repeat match goal with
           | |- context [add_exhibit_number_with_cover E ?a ?b ?c ?d ?e ?f ?g] =>
               destruct (add_exhibit_number_with_cover E a b c d e f g)
                 as [? []]; cbn
           end; reflexivity.
Qed.

Lemma number_item_unfold crs file_paths i file_path v w :
  number_item E cfg crs file_paths i file_path v w
  = match exhibit_number (numbering_style cfg) i with
    | Raise e => {| calls := []; final := w; out := Raise e |}
    | Ret num =>
        let lab := labelled_info E cfg (disk w) file_path (content_bytes v)
                     num in
        let rc := numbered_copy E cfg file_path num (fst lab) (snd lab) w in
        match out rc with
        | Raise e => {| calls := calls rc; final := final rc; out := Raise e |}
        | Ret numbered_file =>
            let info := attach_compression crs i (snd lab) in
            {| calls :=
                 calls rc
                 ++ [set_step_progress "number"
                       (percent_of (Z.of_nat i + 1)
                          (Z.of_nat (length file_paths)))];
               final := final rc;
               out :=
                 Ret {| numbered_files := numbered_files v ++ [numbered_file];
                        exhibit_list := exhibit_list v ++ [info];
                        content_bytes := fst lab;
                        number_total_pages :=
                          number_total_pages v + pages info |} |}
        end
    end.
Proof.
  unfold number_item, labelled_info, bind, lift_outcome, get_disk.
  cbn [out calls final app].
  destruct (exhibit_number (numbering_style cfg) i) as [num|e];
    [|reflexivity].
  cbn [out calls final app]. cbv zeta.
  destruct (out (numbered_copy _ _ _ _ _ _ _)); reflexivity.
Qed.

Lemma number_item_calls crs file_paths i file_path v w :
  let r := number_item E cfg crs file_paths i file_path v w in
  calls r
  = if is_ret (out r)
    then [set_step_progress "number"
            (percent_of (Z.of_nat i + 1) (Z.of_nat (length file_paths)))]
    else [].
Proof.
  cbv zeta. rewrite number_item_unfold.
  destruct (exhibit_number (numbering_style cfg) i) as [num|e];
    [|reflexivity].
  cbv zeta.
  destruct (out (numbered_copy _ _ _ _ _ _ _)) eqn:Ho;
    cbn [calls out is_ret]; rewrite numbered_copy_calls; reflexivity.
Qed.

Lemma number_step_calls crs file_paths res w :
  let r := number_step E cfg crs file_paths res w in
  exists k, (k <= length file_paths)%nat
    /\ calls r
       = (update_step "number" Running None
            :: progress_run "number" (Z.of_nat (length file_paths)) 0 k)
         ++ (if is_ret (out r) then [complete_step "number"] else [])
    /\ (is_ret (out r) = true -> k = length file_paths).
Proof.
  cbv zeta. unfold number_step. rewrite emit_bind.
  match goal with
  | |- context [bind ?m ?f w] =>
      destruct (complete_after m "number" w) as (Hc & Ho & _)
  end.
  cbv zeta in Hc, Ho. cbn [calls out]. rewrite Hc, Ho. clear Hc Ho.
  match goal with
  | |- context [for_enumerate ?b 0 file_paths ?s w] =>
      destruct (for_enumerate_progress b "number"
                  (Z.of_nat (length file_paths))
                  (number_item_calls crs file_paths)
                  file_paths 0%nat s w) as (k & Hk & Hc & Hr)
  end.
  exists k. split; [exact Hk|]. rewrite Hc.
  split; [reflexivity | exact Hr].
Qed.

Lemma toc_step_calls numbered exhibits w :
  let r := toc_step E cfg numbered exhibits w in
  calls r
  = (if add_toc cfg then [update_step "toc" Running None] else [])
    ++ (if is_ret (out r) then [complete_step "toc"] else []).
Proof.
  cbv zeta. unfold toc_step.
  match goal with
  | |- context [bind ?m ?f w] =>
      destruct (complete_after m "toc" w) as (Hc & Ho & _)
  end.
  cbv zeta in Hc, Ho. rewrite Hc, Ho. clear Hc Ho.
  destruct (add_toc cfg); [|reflexivity].
  rewrite emit_bind. cbn [calls out]. unfold bind, call.
  destruct (generate_table_of_contents E _ _ _ _) as [d []]; reflexivity.
Qed.

Lemma cover_step_run exhibits res w :
  let r := cover_step E cfg exhibits res w in
  calls r
  = (if add_cover_letter cfg then [update_step "cover" Running None] else [])
    ++ [complete_step "cover"]
  /\ is_ret (out r) = true
  /\ session (final r) = session w.
Proof.
  cbv zeta. unfold cover_step.
  match goal with
  | |- context [bind ?m ?f w] =>
      destruct (complete_after m "cover" w) as (Hc & Ho & Hf)
  end.
  cbv zeta in Hc, Ho, Hf. rewrite Hc, Ho, Hf. clear Hc Ho Hf.
  destruct (add_cover_letter cfg); [|repeat split].
  rewrite emit_bind. cbn [calls out final]. unfold catch, bind, call, ret.
  destruct (generate_cover_letter E _ _ _ _) as [d []]; repeat split.
Qed.

Lemma filing_instructions_step_run exhibits res w :
  let r := filing_instructions_step E cfg exhibits res w in
  calls r = [update_step "filing_instructions" Running None;
             complete_step "filing_instructions"]
  /\ is_ret (out r) = true
  /\ session (final r) = session w.
Proof.
  cbv zeta. unfold filing_instructions_step. rewrite emit_bind.
  match goal with
  | |- context [bind ?m ?f w] =>
      destruct (complete_after m "filing_instructions" w) as (Hc & Ho & Hf)
  end.
  cbv zeta in Hc, Ho, Hf. cbn [calls out final]. rewrite Hc, Ho, Hf.
  clear Hc Ho Hf.
  destruct (add_filing_instructions cfg); [|repeat split].
  unfold catch, bind, call, ret.
  destruct (generate_filing_instructions E _ _ _ _) as [d []]; repeat split.
Qed.

Lemma shutil_copy_calls src dst w : calls (shutil_copy src dst w) = [].
Proof.
  unfold shutil_copy. destruct (disk w !! src); [|reflexivity].
  destruct (String.eqb src dst); reflexivity.
Qed.

Lemma shutil_copy_session src dst w :
  session (final (shutil_copy src dst w)) = session w.
Proof.
  unfold shutil_copy. destruct (disk w !! src); [|reflexivity].
  destruct (String.eqb src dst); reflexivity.
Qed.

Lemma merge_step_calls numbered res w :
  let r := merge_step E cfg numbered res w in
  calls r
  = [update_step "merge" Running None]
    ++ (if is_ret (out r) then [complete_step "merge"] else []).
Proof.
  cbv zeta. unfold merge_step. rewrite emit_bind.
  match goal with
  | |- context [bind ?m ?f w] =>
      destruct (complete_after m "merge" w) as (Hc & Ho & _)
  end.
  cbv zeta in Hc, Ho. cbn [calls out]. rewrite Hc, Ho. clear Hc Ho.
  cbn [app]. f_equal.
  destruct numbered as [|first_file rest]; [reflexivity|].
  destruct (merge_pdfs cfg).
  - unfold bind at 1 2. rewrite call_calls.
    destruct (out (call _ w)) as [merged|e]; cbn [calls out];
      [|reflexivity].
    unfold bind. rewrite shutil_copy_calls.
    destruct (out (shutil_copy _ _ _)); reflexivity.
  - unfold bind. rewrite shutil_copy_calls.
    destruct (out (shutil_copy _ _ _)); reflexivity.
Qed.

Lemma finalize_step_run exhibits crs res w :
  let r := finalize_step cfg exhibits crs res w in
  calls r = [update_step "finalize" Running None; complete_step "finalize"]
  /\ out r = Ret res
  /\ disk (final r) = disk w.
Proof.
  cbv zeta. unfold finalize_step. destruct crs; repeat split.
Qed.

End StepCalls.

(** ** The calls of a whole run *)

Lemma process_func_rethrows E cfg files zip_files w :
  calls (process_func E cfg files zip_files w)
  = calls (process_steps E cfg files zip_files w)
  /\ is_ret (out (process_func E cfg files zip_files w))
     = is_ret (out (process_steps E cfg files zip_files w))
  /\ final (process_func E cfg files zip_files w)
     = final (process_steps E cfg files zip_files w).
Proof.
  unfold process_func, catch.
  destruct (out (process_steps E cfg files zip_files w)) eqn:Ho.
  - rewrite Ho. auto.
  - cbn. rewrite app_nil_r. auto.
Qed.

Ltac next_stage r Ho :=
  match goal with
  | |- context [bind ?m ?f ?w] =>
      destruct (out (m w)) as [r|?e] eqn:Ho;
      [rewrite (bind_ret_inv m f w r Ho)
      |rewrite (bind_raise_inv m f w _ Ho)];
      cbn [calls out final is_ret]
  end.

(** Every run is a prefix of the eight stages: it makes the calls of the
    stages it completes, and stops inside a stage only by raising.
    Without archive entries the extract stage reports no error. *)
Lemma process_trace_errors E cfg files zip_files w :
  let r := process_func E cfg files zip_files w in
  exists errs total kc kn stop,
    Forall (is_error_report "extract") errs
    /\ (kc <= total)%nat /\ (kn <= total)%nat /\ (stop <= 8)%nat
    /\ calls r
       = run_trace (pipeline_stages E cfg (length files) errs total kc kn)
           stop
    /\ (is_ret (out r) = true <-> stop = 8%nat)
    /\ (zip_files = [] -> errs = []).
Proof.
  cbv zeta.
  destruct (process_func_rethrows E cfg files zip_files w) as (-> & -> & _).
  unfold process_steps. cbv zeta.
  destruct (extract_step_errors E files zip_files w)
    as (errs & Herrs & Hc1 & Hnone).
  cbv zeta in Hc1.
  next_stage file_paths Ho1; cbn [is_ret] in Hc1; rewrite Hc1; clear Hc1;
    [|exists errs, 0%nat, 0%nat, 0%nat, 0%nat;
      repeat (split; [first [assumption | lia]|]);
      split; [cbn [run_trace pipeline_stages]; now rewrite app_nil_r|];
      split; [split; [discriminate | lia] | exact Hnone]].
  set (w1 := final (extract_step E files zip_files w)).
  destruct (compress_step_calls E cfg file_paths initial_result w1)
    as (kc & Hkc & Hc2 & _).
  cbv zeta in Hc2.
  next_stage st Ho2; cbn [is_ret] in Hc2; rewrite Hc2; clear Hc2;
    [|exists errs, (length file_paths), kc, 0%nat, 1%nat;
      repeat (split; [first [assumption | lia]|]);
      split; [cbn [run_trace pipeline_stages]; now rewrite app_nil_r|];
      split; [split; [discriminate | lia] | exact Hnone]].
  destruct st as [crs res2].
  set (w2 := final (compress_step E cfg file_paths initial_result w1)).
  destruct (number_step_calls E cfg crs file_paths res2 w2)
    as (kn & Hkn & Hc3 & _).
  cbv zeta in Hc3.
  next_stage v Ho3; cbn [is_ret] in Hc3; rewrite Hc3; clear Hc3;
    [|exists errs, (length file_paths), kc, kn, 2%nat;
      repeat (split; [first [assumption | lia]|]);
      split; [cbn [run_trace pipeline_stages]; now rewrite app_nil_r|];
      split; [split; [discriminate | lia] | exact Hnone]].
  set (w3 := final (number_step E cfg crs file_paths res2 w2)).
  pose proof (toc_step_calls E cfg (numbered_files v) (exhibit_list v) w3)
    as Hc4.
  cbv zeta in Hc4.
  next_stage numbered Ho4; cbn [is_ret] in Hc4; rewrite Hc4; clear Hc4;
    [|exists errs, (length file_paths), kc, kn, 3%nat;
      repeat (split; [first [assumption | lia]|]);
      split; [cbn [run_trace pipeline_stages]; now rewrite app_nil_r|];
      split; [split; [discriminate | lia] | exact Hnone]].
  set (w4 := final (toc_step E cfg (numbered_files v) (exhibit_list v) w3)).
  destruct (cover_step_run E cfg (exhibit_list v)
              (set_total_pages (number_total_pages v) res2) w4)
    as (Hc5 & Hr5 & _).
  cbv zeta in Hc5, Hr5.
  next_stage res5 Ho5; [|discriminate].
  rewrite Hc5. clear Hc5 Hr5.
  set (w5 := final (cover_step E cfg (exhibit_list v)
                      (set_total_pages (number_total_pages v) res2) w4)).
  destruct (filing_instructions_step_run E cfg (exhibit_list v) res5 w5)
    as (Hc6 & Hr6 & _).
  cbv zeta in Hc6, Hr6.
  next_stage res6 Ho6; [|discriminate].
  rewrite Hc6. clear Hc6 Hr6.
  set (w6 := final (filing_instructions_step E cfg (exhibit_list v) res5
                      w5)).
  pose proof (merge_step_calls E cfg numbered res6 w6) as Hc7.
  cbv zeta in Hc7.
  next_stage res7 Ho7; cbn [is_ret] in Hc7; rewrite Hc7; clear Hc7;
    [|exists errs, (length file_paths), kc, kn, 6%nat;
      repeat (split; [first [assumption | lia]|]);
      split; [cbn [run_trace pipeline_stages]; now rewrite app_nil_r|];
      split; [split; [discriminate | lia] | exact Hnone]].
  set (w7 := final (merge_step E cfg numbered res6 w6)).
  destruct (finalize_step_run cfg (exhibit_list v) crs res7 w7)
    as (Hc8 & Ho8 & _).
  cbv zeta in Hc8, Ho8. rewrite Hc8, Ho8. cbn [is_ret].
  exists errs, (length file_paths), kc, kn, 8%nat.
  repeat (split; [first [assumption | lia]|]).
  split; [cbn [run_trace pipeline_stages]; now rewrite app_nil_r|].
  split; [split; reflexivity | exact Hnone].
Qed.

Lemma process_trace E cfg files zip_files w :
  let r := process_func E cfg files zip_files w in
  exists errs total kc kn stop,
    Forall (is_error_report "extract") errs
    /\ (kc <= total)%nat /\ (kn <= total)%nat /\ (stop <= 8)%nat
    /\ calls r
       = run_trace (pipeline_stages E cfg (length files) errs total kc kn)
           stop
    /\ (is_ret (out r) = true <-> stop = 8%nat).
Proof.
  destruct (process_trace_errors E cfg files zip_files w)
    as (errs & total & kc & kn & stop & H1 & H2 & H3 & H4 & H5 & H6 & _).
  exists errs, total, kc, kn, stop. auto 10.
Qed.

(** ** Progress values *)

Lemma percent_of_bounds a total :
  0 <= a <= total -> 0 < total ->
  (0 <= percent_of a total)%Q /\ (percent_of a total <= 100)%Q.
Proof.
  intros Ha Ht. destruct total as [|p|p]; try lia.
  unfold percent_of, Qle, Qdiv, Qmult, Qinv, inject_Z. cbn. split; nia.
Qed.

Lemma percent_of_monotone a b total :
  a <= b -> 0 < total -> (percent_of a total <= percent_of b total)%Q.
Proof.
  intros Hab Ht. destruct total as [|p|p]; try lia.
  unfold percent_of, Qle, Qdiv, Qmult, Qinv, inject_Z. cbn. nia.
Qed.

Lemma percent_run_ok total i k :
  (k = 0%nat \/ Z.of_nat (i + k) <= total) ->
  Forall in_percent_range (percent_run total i k)
  /\ nondecreasing (percent_run total i k).
Proof.
  revert i. induction k as [|k IH]; intros i Hk.
  - split; constructor.
  - destruct Hk as [Hk|Hk]; [discriminate|].
    destruct (IH (S i)) as [IHr IHn]; [right; lia|].
    split.
    + constructor; [|exact IHr]. apply percent_of_bounds; lia.
    + cbn [percent_run seq map nondecreasing]. split; [|exact IHn].
      destruct k; [exact I|]. cbn [seq map].
      apply percent_of_monotone; lia.
Qed.

Lemma progress_values_app step l1 l2 :
  progress_values step (l1 ++ l2)
  = progress_values step l1 ++ progress_values step l2.
Proof.
  induction l1 as [|c l1 IH]; [reflexivity|].
  destruct c as [n st m|n p|n]; cbn [app progress_values]; try exact IH.
  destruct (String.eqb n step); cbn [app]; now rewrite IH.
Qed.

Lemma progress_values_run step step' total i k :
  progress_values step (progress_run step' total i k)
  = if String.eqb step' step then percent_run total i k else [].
Proof.
  revert i. induction k as [|k IH]; intros i.
  - now destruct (String.eqb step' step).
  - rewrite progress_run_cons. cbn [progress_values]. rewrite IH.
    now destruct (String.eqb step' step).
Qed.

Lemma progress_values_errors step step' errs :
  Forall (is_error_report step') errs -> progress_values step errs = [].
Proof.
  induction 1 as [|c l [m ->] _ IH]; [reflexivity | exact IH].
Qed.

Lemma eqb_other (a b : string) : a <> b -> String.eqb a b = false.
Proof. apply String.eqb_neq. Qed.

Lemma pipeline_progress_values E cfg uploads errs total kc kn stop step :
  Forall (is_error_report "extract") errs ->
  (kc <= total)%nat -> (kn <= total)%nat ->
  exists N k,
    (k = 0%nat \/ Z.of_nat (0 + k) <= N)
    /\ progress_values step
         (run_trace (pipeline_stages E cfg uploads errs total kc kn) stop)
       = percent_run N 0 k.
Proof.
  intros Herrs Hkc Hkn.
  assert (Hnone : exists N k, (k = 0%nat \/ Z.of_nat (0 + k) <= N)
                               /\ @nil Q = percent_run N 0 k)
    by (exists 0, 0%nat; split; [now left | reflexivity]).
  do 9 (try destruct stop as [|stop]);
    cbn [run_trace pipeline_stages];
    destruct (compression_on E cfg), (add_toc cfg), (add_cover_letter cfg);
    rewrite ?progress_values_app; cbn [progress_values];
    rewrite ?progress_values_app, ?progress_values_run,
      ?(progress_values_errors step "extract" errs Herrs);
    cbn [progress_values app]; rewrite ?app_nil_r;
    (destruct (String.eqb_spec "extract" step) as [<-|Hx];
     [cbn [String.eqb Ascii.eqb Bool.eqb app]; rewrite ?app_nil_r;
      eexists _, uploads; split; [|reflexivity]; right; lia|]);
    (destruct (String.eqb_spec "compress" step) as [<-|Hc];
     [cbn [String.eqb Ascii.eqb Bool.eqb app]; rewrite ?app_nil_r;
      first [exact Hnone
            | eexists _, kc; split; [|reflexivity]; right; lia]|]);
    (destruct (String.eqb_spec "number" step) as [<-|Hn];
     [cbn [String.eqb Ascii.eqb Bool.eqb app]; rewrite ?app_nil_r;
      first [exact Hnone
            | eexists _, kn; split; [|reflexivity]; right; lia]|]);
    cbn [app]; exact Hnone.
Qed.

(** C9. Whatever the inputs and the collaborators do, the percentages
    that a run passes to [set_step_progress] for any one step all lie
    between 0 and 100, and none is smaller than the one passed before
    it for that step. *)
Theorem progress_within_range_and_monotone
    E cfg files zip_files w step :
  let percents :=
    progress_values step (calls (process_func E cfg files zip_files w)) in
  Forall in_percent_range percents /\ nondecreasing percents.
Proof.
  cbv zeta.
  destruct (process_trace E cfg files zip_files w)
    as (errs & total & kc & kn & stop & Herrs & Hkc & Hkn & _ & -> & _).
  destruct (pipeline_progress_values E cfg (length files) errs total kc kn
              stop step Herrs Hkc Hkn) as (N & k & Hk & ->).
  apply percent_run_ok, Hk.
Qed.

(** ** Announcements and completions *)

(** A [complete_step] in a run closes one of the stages gone through, and
    what precedes it is the run up to the end of that stage's body. *)
Lemma run_trace_completion stages :
  Forall (fun stage => no_completion (fst stage)) stages ->
  forall stop pre n post,
    run_trace stages stop = pre ++ complete_step n :: post ->
    exists j body,
      (j < stop)%nat /\ stages !! j = Some (body, n)
      /\ pre = run_trace stages j.
Proof.
  induction 1 as [|[body step] rest Hbody _ IH]; intros stop pre n post Heq.
  - destruct pre; discriminate.
  - cbn [fst] in Hbody. destruct stop as [|stop]; cbn [run_trace] in Heq.
    + exfalso. apply (Hbody n). rewrite Heq. apply in_elt.
    + rewrite <- app_assoc in Heq. cbn [app] in Heq.
      apply app_eq_app in Heq.
      destruct Heq as [l [[Hb Hp]|[Hp Hr]]].
      * destruct l as [|c l].
        -- rewrite app_nil_r in Hb. cbn [app] in Hp.
           injection Hp as Hn _. subst. exists 0%nat, pre.
           split; [lia|]. split; reflexivity.
        -- exfalso. cbn [app] in Hp. injection Hp as <- _.
           apply (Hbody n). rewrite Hb. apply in_elt.
      * destruct l as [|c l].
        -- cbn [app] in Hr. injection Hr as Hn _.
           rewrite app_nil_r in Hp. subst. exists 0%nat, body.
           split; [lia|]. split; reflexivity.
        -- cbn [app] in Hr. injection Hr as Hc Hr. subst c.
           destruct (IH stop l n post Hr) as (j & b & Hj & Hs & Hl).
           exists (S j), b. split; [lia|]. split; [exact Hs|].
           cbn [run_trace]. rewrite Hp, Hl, <- app_assoc. reflexivity.
Qed.

Lemma progress_run_only_progress step total i k c :
  In c (progress_run step total i k) ->
  exists p, c = set_step_progress step p.
Proof.
  unfold progress_run. rewrite in_map_iff. intros (j & <- & _). eauto.
Qed.

Lemma pipeline_stages_no_completion E cfg uploads errs total kc kn :
  Forall (is_error_report "extract") errs ->
  Forall (fun stage => no_completion (fst stage))
    (pipeline_stages E cfg uploads errs total kc kn).
Proof.
  intros Herrs. rewrite List.Forall_forall in Herrs.
  unfold pipeline_stages.
  destruct (compression_on E cfg), (add_toc cfg), (add_cover_letter cfg);
    repeat match goal with
           | |- Forall _ (_ :: _) => constructor
           | |- Forall _ [] => constructor
           end;
    cbn [fst]; intros n Hin;
    repeat (rewrite ?in_app_iff in Hin; cbn [In] in Hin);
    repeat match goal with
           | H : _ \/ _ |- _ => destruct H
           | H : False |- _ => destruct H
           | H : In _ (progress_run _ _ _ _) |- _ =>
               apply progress_run_only_progress in H; destruct H
           | H : In _ errs |- _ => apply Herrs in H; destruct H
           end; discriminate.
Qed.

Ltac find_in :=
  match goal with
  | |- In ?c (?c :: _) => apply in_eq
  | |- In _ (_ :: _) => apply in_cons; find_in
  | |- In _ (_ ++ _) => apply in_or_app; first [left; find_in | right; find_in]
  end.

Ltac refute_in Herrs :=
  repeat match goal with
         | H : In _ (_ ++ _) |- _ => apply in_app_or in H
         | H : In _ (_ :: _) |- _ => cbn [In] in H
         | H : In _ [] |- _ => destruct H
         | H : _ \/ _ |- _ => destruct H
         | H : False |- _ => destruct H
         | H : In _ (progress_run _ _ _ _) |- _ =>
             apply progress_run_only_progress in H; destruct H
         | H : In ?c ?errs |- _ =>
             apply Herrs in H; destruct H
         end;
  try discriminate; try congruence.

(** C8, as the code has it.  Whenever a run calls [complete_step] on a
    step, that step is one of the eight; extract, number,
    filing_instructions, merge and finalize were announced running
    before; compress, toc and cover were announced exactly when their
    feature is on (compression enabled with a compressor, table of
    contents, cover letter) and are otherwise completed without ever
    having been announced; and no step other than extract was set to
    error before being completed. *)
Theorem complete_step_after_announcement
    E cfg files zip_files w pre n post :
  calls (process_func E cfg files zip_files w)
    = pre ++ complete_step n :: post ->
  In n ["extract"; "compress"; "number"; "toc"; "cover";
        "filing_instructions"; "merge"; "finalize"]
  /\ (In n ["extract"; "number"; "filing_instructions"; "merge"; "finalize"]
      -> announced n pre)
  /\ (n = "compress" -> (announced n pre <-> compression_on E cfg = true))
  /\ (n = "toc" -> (announced n pre <-> add_toc cfg = true))
  /\ (n = "cover" -> (announced n pre <-> add_cover_letter cfg = true))
  /\ (n <> "extract" -> ~ set_to_error n pre).
Proof.
  intros Hsplit.
  destruct (process_trace E cfg files zip_files w)
    as (errs & total & kc & kn & stop & Herrs & _ & _ & Hstop & Hcalls & _).
  cbv zeta in Hcalls. rewrite Hcalls in Hsplit. clear Hcalls.
  apply run_trace_completion in Hsplit;
    [|now apply pipeline_stages_no_completion].
  destruct Hsplit as (j & body & Hj & Hstage & ->).
  rewrite List.Forall_forall in Herrs.
  unfold announced, set_to_error.
  do 8 (try destruct j as [|j]); try (exfalso; lia);
    cbn [pipeline_stages lookup list_lookup] in Hstage;
    injection Hstage as <- <-;
    cbn [run_trace pipeline_stages];
    destruct (compression_on E cfg), (add_toc cfg), (add_cover_letter cfg);
    (split; [cbn [In]; tauto|]);
    (split; [first [intros _; find_in
                   |intros Hin; exfalso; cbn [In] in Hin;
                    intuition discriminate]|]);
    (split; [intros Hn;
             first [discriminate Hn
                   |split;
                    [intros Hin; first [reflexivity | exfalso; refute_in Herrs]
                    |intros Hon; first [find_in | discriminate Hon]]]|]);
    (split; [intros Hn;
             first [discriminate Hn
                   |split;
                    [intros Hin; first [reflexivity | exfalso; refute_in Herrs]
                    |intros Hon; first [find_in | discriminate Hon]]]|]);
    (split; [intros Hn;
             first [discriminate Hn
                   |split;
                    [intros Hin; first [reflexivity | exfalso; refute_in Herrs]
                    |intros Hon; first [find_in | discriminate Hon]]]|]);
    intros Hne [m Hin]; try (now apply Hne); refute_in Herrs.
Qed.

(** ** The state machine after a run *)

Lemma store_step_names step s l :
  map fst (store_step step s l)
  = if existsb (fun e => String.eqb (fst e) step) l
    then map fst l else map fst l ++ [step].
Proof.
  induction l as [|[n s'] l IH]; [reflexivity|].
  cbn [store_step existsb fst map].
  destruct (String.eqb n step); cbn [orb map fst]; [reflexivity|].
  rewrite IH. now destruct (existsb _ l).
Qed.

Lemma store_step_nodup step s l :
  NoDup (map fst l) -> NoDup (map fst (store_step step s l)).
Proof.
  intros Hl. rewrite store_step_names.
  destruct (existsb _ l) eqn:Hex; [exact Hl|].
  apply NoDup_app. split; [exact Hl|]. split; [|apply NoDup_singleton].
  intros x Hin Hx. apply list_elem_of_In in Hin.
  apply list_elem_of_In in Hx. cbn [In] in Hx. destruct Hx as [<-|[]].
  apply in_map_iff in Hin. destruct Hin as (e & He & Hin).
  assert (existsb (fun e => String.eqb (fst e) step) l = true).
  { apply existsb_exists. exists e. split; [exact Hin|].
    rewrite He. apply String.eqb_refl. }
  congruence.
Qed.

Lemma store_step_others step s l :
  others_complete step l -> others_complete step (store_step step s l).
Proof.
  intros Hl. induction l as [|[n s'] l IH]; intros e He Hne.
  - cbn in He. destruct He as [<-|[]]. now destruct Hne.
  - cbn [store_step] in He.
    destruct (String.eqb_spec n step) as [->|Hn].
    + destruct He as [<-|He]; [now destruct Hne|].
      apply Hl; [now right | exact Hne].
    + destruct He as [<-|He].
      * apply Hl; [now left | exact Hne].
      * apply IH; [|exact He | exact Hne].
        intros e' He' Hne'. apply Hl; [now right | exact Hne'].
Qed.

Lemma store_step_all_complete step s l :
  NoDup (map fst l) -> others_complete step l ->
  is_complete_status (status s) = true ->
  all_complete (store_step step s l) = true.
Proof.
  intros Hnd Hl Hs. unfold all_complete. apply forallb_forall. intros e He.
  induction l as [|[n s'] l IH].
  - cbn in He. destruct He as [<-|[]]. exact Hs.
  - cbn [store_step] in He. cbn [map fst] in Hnd.
    apply NoDup_cons in Hnd. destruct Hnd as [Hn Hnd].
    rewrite list_elem_of_In in Hn.
    destruct (String.eqb_spec n step) as [->|Hne].
    + destruct He as [<-|He]; [exact Hs|].
      apply Hl; [now right|]. intros Heq. apply Hn.
      rewrite <- Heq. now apply in_map.
    + destruct He as [<-|He].
      * apply Hl; [now left | exact Hne].
      * apply IH; [exact Hnd | | exact He].
        intros e' He' Hne'. apply Hl; [now right | exact Hne'].
Qed.

Lemma all_complete_others step l :
  all_complete l = true -> others_complete step l.
Proof.
  unfold all_complete. rewrite forallb_forall. intros H e He _. now apply H.
Qed.

Lemma find_step_store step s l : find_step step (store_step step s l) = Some s.
Proof.
  unfold find_step. induction l as [|[n s'] l IH]; cbn [store_step List.find].
  - cbn. now rewrite String.eqb_refl.
  - destruct (String.eqb n step) eqn:Hn; cbn [List.find fst];
      rewrite Hn; [reflexivity | exact IH].
Qed.

Lemma store_step_same step s l :
  find_step step l = Some s -> store_step step s l = l.
Proof.
  unfold find_step. induction l as [|[n s'] l IH]; [discriminate|].
  cbn [List.find store_step fst].
  destruct (String.eqb_spec n step) as [->|Hn].
  - cbn. intros H. now injection H as ->.
  - intros H. now rewrite IH.
Qed.

(** An update stores a step whose status follows [next_status]. *)
Lemma update_as_store step st m l :
  exists s',
    apply_update_step step st m l = store_step step s' l
    /\ status s'
       = next_status (status (default new_step (find_step step l))) st.
Proof.
  unfold apply_update_step.
  destruct (find_step step l) as [s|] eqn:Hfind; cbn [default from_option id].
  - destruct (status s) eqn:Hs, st;
      first [ exists s; rewrite (store_step_same _ _ _ Hfind), Hs;
              split; reflexivity
            | eexists; split; reflexivity ].
  - destruct st; eexists; split; reflexivity.
Qed.

Lemma apply_call_keeps step c l :
  call_step c = step ->
  NoDup (map fst l) /\ others_complete step l ->
  NoDup (map fst (apply_call l c))
  /\ others_complete step (apply_call l c).
Proof.
  intros <- [Hnd Hl].
  destruct c as [n st m|n p|n]; cbn [apply_call call_step] in *.
  - destruct (update_as_store n st m l) as (s' & -> & _).
    split; auto using store_step_nodup, store_step_others.
  - unfold apply_set_step_progress. destruct (find_step n l); [|auto].
    destruct (is_running_status _); [|auto].
    split; auto using store_step_nodup, store_step_others.
  - unfold apply_complete_step.
    destruct (update_as_store n Complete None l) as (s' & -> & _).
    split; auto using store_step_nodup, store_step_others.
Qed.

Lemma all_complete_not_in_error step l :
  all_complete l = true -> not_in_error step l.
Proof.
  unfold all_complete, not_in_error, find_step. rewrite forallb_forall.
  intros Hall.
  destruct (List.find _ l) as [e|] eqn:Hfind; cbn; [|discriminate].
  apply List.find_some in Hfind. destruct Hfind as [Hin _].
  specialize (Hall e Hin). now destruct (status (snd e)).
Qed.

(** A call that is no error report leaves a step that is not in error
    that way. *)
Lemma apply_call_not_in_error step c l :
  call_step c = step -> ~ is_error_report step c ->
  not_in_error step l -> not_in_error step (apply_call l c).
Proof.
  intros <- Hc Hl. unfold not_in_error in *.
  destruct c as [n st m|n p|n]; cbn [apply_call call_step] in *.
  - destruct (update_as_store n st m l) as (s' & -> & Hs').
    rewrite find_step_store. cbn [default from_option id]. rewrite Hs'.
    destruct (status (default new_step (find_step n l))), st;
      cbn; try discriminate; try contradiction.
    all: intros _; apply Hc; eexists; reflexivity.
  - unfold apply_set_step_progress.
    destruct (find_step n l) as [s|] eqn:Hfind; [|now rewrite Hfind].
    destruct (is_running_status (status s)) eqn:Hrun;
      [|now rewrite Hfind].
    rewrite find_step_store. cbn. now destruct (status s).
  - unfold apply_complete_step.
    destruct (update_as_store n Complete None l) as (s' & -> & Hs').
    rewrite find_step_store. cbn [default from_option id]. rewrite Hs'.
    destruct (status (default new_step (find_step n l)));
      cbn; try discriminate; contradiction.
Qed.

(** A stage that starts with every step complete, only touches its own
    step and reports no error ends, once completed, with every step
    complete. *)
Lemma stage_completes body step l :
  Forall (fun c => call_step c = step) body ->
  Forall (fun c => ~ is_error_report step c) body ->
  NoDup (map fst l) /\ all_complete l = true ->
  let l' := fold_left apply_call (body ++ [complete_step step]) l in
  NoDup (map fst l') /\ all_complete l' = true.
Proof.
  intros Hbody Hquiet [Hnd Hall]. cbv zeta. rewrite fold_left_app.
  cbn [fold_left].
  assert (Hinv : NoDup (map fst (fold_left apply_call body l))
                 /\ others_complete step (fold_left apply_call body l)
                 /\ not_in_error step (fold_left apply_call body l)).
  { pose proof (all_complete_not_in_error step l Hall) as Hne.
    apply (all_complete_others step) in Hall. revert l Hnd Hall Hne.
    induction Hbody as [|c body Hc _ IH]; intros l Hnd Hall Hne;
      [now repeat split|].
    cbn [fold_left]. apply Forall_cons in Hquiet.
    destruct Hquiet as [Hq Hquiet].
    destruct (apply_call_keeps step c l Hc (conj Hnd Hall)) as [H1 H2].
    apply IH; auto using apply_call_not_in_error. }
  destruct Hinv as (Hnd' & Hoth & Hne).
  cbn [apply_call]. unfold apply_complete_step.
  destruct (update_as_store step Complete None
              (fold_left apply_call body l)) as (s' & -> & Hs').
  split.
  - now apply store_step_nodup.
  - apply store_step_all_complete; [assumption | assumption|].
    rewrite Hs'. unfold not_in_error in Hne.
    destruct (status (default new_step (find_step step _)));
      cbn; try reflexivity; contradiction.
Qed.

Lemma run_trace_all_complete stages l :
  Forall (fun stage => Forall (fun c => call_step c = snd stage) (fst stage))
    stages ->
  Forall (fun stage =>
            Forall (fun c => ~ is_error_report (snd stage) c) (fst stage))
    stages ->
  NoDup (map fst l) /\ all_complete l = true ->
  all_complete (fold_left apply_call (run_trace stages (length stages)) l)
  = true.
Proof.
  intros Hst. revert l.
  induction Hst as [|[body step] rest Hb _ IH]; intros l Hquiet Hl.
  - apply Hl.
  - cbn [length run_trace]. rewrite fold_left_app.
    apply Forall_cons in Hquiet. destruct Hquiet as [Hq Hquiet].
    apply IH; [exact Hquiet|]. now apply stage_completes.
Qed.

Lemma pipeline_stages_own_calls E cfg uploads errs total kc kn :
  Forall (is_error_report "extract") errs ->
  Forall (fun stage => Forall (fun c => call_step c = snd stage) (fst stage))
    (pipeline_stages E cfg uploads errs total kc kn).
Proof.
  intros Herrs. rewrite List.Forall_forall in Herrs.
  unfold pipeline_stages.
  destruct (compression_on E cfg), (add_toc cfg), (add_cover_letter cfg);
    repeat match goal with
           | |- Forall _ (_ :: _) => constructor
           | |- Forall _ [] => constructor
           end;
    cbn [fst snd call_step]; try reflexivity;
    apply List.Forall_forall; intros c Hin;
    repeat match goal with
           | H : In _ (_ ++ _) |- _ => apply in_app_or in H
           | H : In _ (_ :: _) |- _ => cbn [In] in H
           | H : In _ [] |- _ => destruct H
           | H : False |- _ => destruct H
           | H : _ \/ _ |- _ => destruct H
           | H : In _ (progress_run _ _ _ _) |- _ =>
               apply progress_run_only_progress in H; destruct H; subst
           | H : In ?c errs |- _ => apply Herrs in H; destruct H; subst
           | H : _ = c |- _ => subst c
           end; reflexivity.
Qed.

(** Without error reports from the extract stage, no stage reports an
    error. *)
Lemma pipeline_stages_quiet E cfg uploads total kc kn :
  Forall (fun stage =>
            Forall (fun c => ~ is_error_report (snd stage) c) (fst stage))
    (pipeline_stages E cfg uploads [] total kc kn).
Proof.
  unfold pipeline_stages. rewrite app_nil_r.
  destruct (compression_on E cfg), (add_toc cfg), (add_cover_letter cfg);
    repeat match goal with
           | |- Forall _ (_ :: _) => constructor
           | |- Forall _ [] => constructor
           end;
    cbn [fst snd];
    try (intros [m Hm]; discriminate Hm);
    apply List.Forall_forall; intros c Hin [m Hm];
    repeat match goal with
           | H : In _ [] |- _ => destruct H
           | H : In _ (_ :: _) |- _ => destruct H as [H|H]
           | H : In _ (progress_run _ _ _ _) |- _ =>
               apply progress_run_only_progress in H; destruct H as [p H]
           end;
    congruence.
Qed.

(** Without archive entries: a run that returns leaves every step
    complete and its result attached; a run that raises leaves the state
    in error. *)
Lemma overall_status_of_run E cfg files w :
  overall_status (generate_exhibits_v2 E cfg files [] w)
  = if is_ret (out (process_func E cfg files [] w))
    then OverallComplete else OverallError.
Proof.
  unfold generate_exhibits_v2, start_processing, overall_status.
  destruct (process_trace_errors E cfg files [] w)
    as (errs & total & kc & kn & stop & Herrs & _ & _ & _ & Hcalls & Hret
        & Hnone).
  cbv zeta in Hcalls, Hret. rewrite (Hnone eq_refl) in Hcalls.
  destruct (out (process_func E cfg files [] w)) as [res|e];
    cbn [state_error_message state_result steps is_ret] in *;
    [|reflexivity].
  rewrite bool_decide_eq_true_2 by eauto. cbn [andb].
  assert (stop = 8%nat) as -> by now apply Hret.
  rewrite Hcalls.
  pose proof (run_trace_all_complete
                (pipeline_stages E cfg (length files) [] total kc kn) []
                (pipeline_stages_own_calls E cfg (length files) [] total
                   kc kn (Forall_nil_2 _))
                (pipeline_stages_quiet E cfg (length files) total kc kn)
                (conj (@NoDup_nil_2 string) eq_refl)) as Hall.
  change (length (pipeline_stages E cfg (length files) [] total kc kn))
    with 8%nat in Hall.
  unfold all_complete in Hall. rewrite Hall. reflexivity.
Qed.



(** *** The steps recorded, in order *)

Lemma has_step_in step (l : list (string * Step)) :
  existsb (fun e => String.eqb (fst e) step) l = true
  <-> In step (map fst l).
Proof.
  rewrite existsb_exists, in_map_iff. split.
  - intros (e & He & Heq). apply String.eqb_eq in Heq. eauto.
  - intros (e & He & Hin). exists e. split; [exact Hin|].
    rewrite He. apply String.eqb_refl.
Qed.

Lemma store_step_names_in step s l :
  In step (map fst l) -> map fst (store_step step s l) = map fst l.
Proof.
  intros Hin. rewrite store_step_names.
  apply has_step_in in Hin. now rewrite Hin.
Qed.

Lemma store_step_names_new step s l :
  ~ In step (map fst l) ->
  map fst (store_step step s l) = map fst l ++ [step].
Proof.
  intros Hin. rewrite store_step_names.
  destruct (existsb _ l) eqn:Hex; [|reflexivity].
  now apply has_step_in in Hex.
Qed.

Lemma store_step_names_cases step s l :
  map fst (store_step step s l) = map fst l /\ In step (map fst l)
  \/ map fst (store_step step s l) = map fst l ++ [step]
     /\ ~ In step (map fst l).
Proof.
  destruct (in_dec string_dec step (map fst l)) as [Hin|Hin].
  - left. split; [now apply store_step_names_in | exact Hin].
  - right. split; [now apply store_step_names_new | exact Hin].
Qed.

Lemma apply_call_names step c l :
  call_step c = step ->
  map fst (apply_call l c) = map fst l
  \/ map fst (apply_call l c) = map fst l ++ [step]
     /\ ~ In step (map fst l).
Proof.
  intros <-.
  destruct c as [n st m|n p|n]; cbn [apply_call call_step].
  - destruct (update_as_store n st m l) as (s' & -> & _).
    destruct (store_step_names_cases n s' l) as [[-> _]|[-> H]]; auto.
  - unfold apply_set_step_progress. destruct (find_step n l); [|auto].
    destruct (is_running_status _); [|auto].
    match goal with
    | |- context [store_step ?a ?b ?c] =>
        destruct (store_step_names_cases a b c) as [[-> _]|[-> H]]; auto
    end.
  - unfold apply_complete_step.
    destruct (update_as_store n Complete None l) as (s' & -> & _).
    destruct (store_step_names_cases n s' l) as [[-> _]|[-> H]]; auto.
Qed.

Lemma body_names_known body step l :
  Forall (fun c => call_step c = step) body ->
  In step (map fst l) ->
  map fst (fold_left apply_call body l) = map fst l.
Proof.
  intros Hbody. revert l.
  induction Hbody as [|c body Hc _ IH]; intros l Hin; [reflexivity|].
  cbn [fold_left].
  destruct (apply_call_names step c l Hc) as [Hn|[_ Hn]];
    [|contradiction].
  rewrite <- Hn. apply IH. now rewrite Hn.
Qed.

Lemma body_names body step l :
  Forall (fun c => call_step c = step) body ->
  ~ In step (map fst l) ->
  map fst (fold_left apply_call body l) = map fst l
  \/ map fst (fold_left apply_call body l) = map fst l ++ [step].
Proof.
  intros Hbody. revert l.
  induction Hbody as [|c body Hc Hb IH]; intros l Hl; [now left|].
  cbn [fold_left].
  destruct (apply_call_names step c l Hc) as [Hn|[Hn _]].
  - rewrite <- Hn. apply IH. now rewrite Hn.
  - right. rewrite <- Hn. apply (body_names_known body step); [exact Hb|].
    rewrite Hn. apply in_or_app. right. now left.
Qed.

Lemma stage_names body step l :
  Forall (fun c => call_step c = step) body ->
  ~ In step (map fst l) ->
  map fst (fold_left apply_call (body ++ [complete_step step]) l)
  = map fst l ++ [step].
Proof.
  intros Hbody Hl. rewrite fold_left_app. cbn [fold_left apply_call].
  unfold apply_complete_step.
  destruct (update_as_store step Complete None
              (fold_left apply_call body l)) as (s' & -> & _).
  destruct (body_names body step l Hbody Hl) as [Hn|Hn].
  - rewrite store_step_names_new, Hn; [reflexivity|]. now rewrite Hn.
  - rewrite store_step_names_in, Hn; [reflexivity|].
    rewrite Hn. apply in_or_app. right. now left.
Qed.

Lemma run_trace_names stages l :
  Forall (fun stage => Forall (fun c => call_step c = snd stage) (fst stage))
    stages ->
  NoDup (map fst l ++ map snd stages) ->
  map fst (fold_left apply_call (run_trace stages (length stages)) l)
  = map fst l ++ map snd stages.
Proof.
  intros Hst. revert l.
  induction Hst as [|[body step] rest Hb _ IH]; intros l Hnd.
  - cbn. now rewrite app_nil_r.
  - cbn [length run_trace map snd]. rewrite fold_left_app.
    cbn [fst snd] in Hb.
    assert (Hstep : ~ In step (map fst l)).
    { intros Hin. apply NoDup_app in Hnd. destruct Hnd as (_ & Hnd & _).
      apply (Hnd step); [now apply list_elem_of_In|]. cbn [map snd].
      left. }
    rewrite IH.
    + rewrite (stage_names body step l Hb Hstep), <- app_assoc. reflexivity.
    + rewrite (stage_names body step l Hb Hstep), <- app_assoc. exact Hnd.
Qed.

(** Without archive entries, a run that returns has recorded the eight
    steps in order, all complete, with its result attached. *)
Lemma state_of_returning_run E cfg files w res :
  out (process_func E cfg files [] w) = Ret res ->
  let state := generate_exhibits_v2 E cfg files [] w in
  map fst (steps state) = step_names
  /\ all_complete (steps state) = true
  /\ state_result state = Some res
  /\ overall_status state = OverallComplete.
Proof.
  intros Hout. cbv zeta.
  pose proof (overall_status_of_run E cfg files w) as Hov.
  rewrite Hout in Hov. cbn [is_ret] in Hov.
  split; [|split; [|split; [|exact Hov]]].
  - unfold generate_exhibits_v2, start_processing.
    destruct (process_trace E cfg files [] w)
      as (errs & total & kc & kn & stop & Herrs & _ & _ & _ & Hcalls & Hret).
    cbv zeta in Hcalls, Hret. rewrite Hout in Hret |- *. cbn [steps].
    assert (stop = 8%nat) as -> by now apply Hret.
    rewrite Hcalls.
    pose proof (run_trace_names
                  (pipeline_stages E cfg (length files) errs total kc kn) []
                  (pipeline_stages_own_calls E cfg (length files) errs total
                     kc kn Herrs)) as Hn.
    change (length (pipeline_stages E cfg (length files) errs total kc kn))
      with 8%nat in Hn.
    rewrite Hn; [reflexivity|].
    cbn. repeat (apply NoDup_cons_2;
                 [rewrite list_elem_of_In; cbn [In]; intuition discriminate|]).
    apply NoDup_nil_2.
  - unfold generate_exhibits_v2, start_processing, overall_status in Hov |- *.
    rewrite Hout in Hov |- *.
    cbn [state_error_message state_result steps] in Hov |- *.
    unfold all_complete.
    destruct (forallb _ _); [reflexivity|].
    rewrite andb_false_r in Hov. discriminate.
  - unfold generate_exhibits_v2, start_processing. now rewrite Hout.
Qed.

(** ** The values of a whole run *)

(** The steps one after the other: the run stops at the first step that
    raises; otherwise it returns what finalize returns. *)
Lemma process_steps_chain E cfg files zip_files w :
  let r := process_steps E cfg files zip_files w in
  let r1 := extract_step E files zip_files w in
  match out r1 with
  | Raise e => out r = Raise e
  | Ret file_paths =>
  let r2 := compress_step E cfg file_paths initial_result (final r1) in
  match out r2 with
  | Raise e => out r = Raise e
  | Ret (crs, res2) =>
  let r3 := number_step E cfg crs file_paths res2 (final r2) in
  match out r3 with
  | Raise e => out r = Raise e
  | Ret v =>
  let r4 := toc_step E cfg (numbered_files v) (exhibit_list v) (final r3) in
  match out r4 with
  | Raise e => out r = Raise e
  | Ret numbered =>
  let r5 := cover_step E cfg (exhibit_list v)
              (set_total_pages (number_total_pages v) res2) (final r4) in
  match out r5 with
  | Raise e => out r = Raise e
  | Ret res5 =>
  let r6 := filing_instructions_step E cfg (exhibit_list v) res5 (final r5) in
  match out r6 with
  | Raise e => out r = Raise e
  | Ret res6 =>
  let r7 := merge_step E cfg numbered res6 (final r6) in
  match out r7 with
  | Raise e => out r = Raise e
  | Ret res7 =>
  let r8 := finalize_step cfg (exhibit_list v) crs res7 (final r7) in
  out r = out r8 /\ final r = final r8
  end end end end end end end.
Proof.
  cbv zeta. unfold process_steps. cbv zeta.
  next_stage file_paths Ho1; [|reflexivity].
  next_stage st Ho2; [|reflexivity]. destruct st as [crs res2].
  next_stage v Ho3; [|reflexivity].
  next_stage numbered Ho4; [|reflexivity].
  next_stage res5 Ho5; [|reflexivity].
  next_stage res6 Ho6; [|reflexivity].
  next_stage res7 Ho7; [|reflexivity].
  split; reflexivity.
Qed.

(** ** What the steps compute *)

Section StepValues.

Variable E : env.
Variable cfg : config.

Lemma sum_app_pages l1 l2 : page_sum (l1 ++ l2) = page_sum l1 + page_sum l2.
Proof.
  unfold page_sum in *.
  induction l1 as [|e l IH]; cbn; [reflexivity | rewrite IH; lia].
Qed.

Lemma original_sum_app l1 l2 :
  original_sum (l1 ++ l2) = original_sum l1 + original_sum l2.
Proof.
  unfold original_sum in *.
  induction l1 as [|e l IH]; cbn; [reflexivity | rewrite IH; lia].
Qed.

Lemma compressed_sum_app l1 l2 :
  compressed_sum (l1 ++ l2) = compressed_sum l1 + compressed_sum l2.
Proof.
  unfold compressed_sum in *.
  induction l1 as [|e l IH]; cbn; [reflexivity | rewrite IH; lia].
Qed.

(** *** Extract *)

Lemma extract_uploads_only files w :
  let r := extract_step E files [] w in
  out r = Ret (map (upload_path E) files)
  /\ final r = set_disk (write_uploads E files (disk w)) w.
Proof.
  cbv zeta. unfold extract_step. rewrite emit_bind. cbn [out final].
  destruct (upload_loop_run E files files 0 [] w) as [Ho Hf].
  cbv zeta in Ho, Hf. cbn [app] in Ho.
  rewrite (bind_ret_inv _ _ _ _ Ho). cbn [out final]. rewrite Hf.
  split; reflexivity.
Qed.


(** *** Compress *)

Lemma compress_loop_inv compress file_paths l :
  forall i st w st',
    out (for_enumerate (compress_item compress file_paths) i l st w)
      = Ret st' ->
    compress_inv st st'.
Proof.
  induction l as [|p l IH]; intros i st w st' Ho.
  - cbn in Ho. injection Ho as <-. exists []. rewrite app_nil_r.
    cbn [original_sum compressed_sum fold_right].
    repeat split; try constructor; cbn; lia.
  - cbn [for_enumerate] in Ho.
    destruct (out (compress_item compress file_paths i p st w))
      as [st1|e] eqn:Hb;
      [rewrite (bind_ret_inv _ _ _ _ Hb) in Ho
      |rewrite (bind_raise_inv _ _ _ _ Hb) in Ho; discriminate].
    cbn [out] in Ho. apply IH in Ho. clear IH.
    destruct st as [crs res]. unfold compress_item in Hb.
    destruct (out (call (compress p) w)) as [c|e] eqn:Hc;
      [rewrite (bind_ret_inv _ _ _ _ Hc) in Hb
      |rewrite (bind_raise_inv _ _ _ _ Hc) in Hb; discriminate].
    cbn in Hb. injection Hb as <-.
    destruct Ho as (new & Hcrs & Hsucc & (Hx & Ht & Hos & Hcs) & Hof).
    destruct (success c) eqn:Hs; cbn [fst snd] in *.
    + exists (c :: new). rewrite Hcrs, <- app_assoc.
      split; [reflexivity|]. split; [now constructor|].
      cbn [original_sum compressed_sum fold_right add_sizes original_size
             compressed_size exhibits total_pages output_file] in *.
      unfold same_aggregates. cbn.
      fold (original_sum new). fold (compressed_sum new).
      repeat split; try assumption; lia.
    + exists new. split; [exact Hcrs|]. split; [exact Hsucc|].
      unfold same_aggregates. cbn in *. repeat split; assumption.
Qed.

Lemma compress_step_inv file_paths res w crs res' :
  out (compress_step E cfg file_paths res w) = Ret (crs, res') ->
  compress_inv ([], res) (crs, res').
Proof.
  unfold compress_step.
  match goal with
  | |- context [bind ?m ?f w] =>
      destruct (complete_after m "compress" w) as (_ & Ho & _)
  end.
  cbv zeta in Ho. rewrite Ho. clear Ho.
  assert (Hnone : Ret (@nil comp_result, res) = Ret (crs, res') ->
                  compress_inv ([], res) (crs, res')).
  { intros H. injection H as <- <-. exists [].
    cbn [original_sum compressed_sum fold_right fst snd app].
    unfold same_aggregates. cbn. repeat split; try constructor; lia. }
  destruct (enable_compression cfg); [|exact Hnone].
  destruct (compressor E) as [compress|]; [|exact Hnone].
  rewrite emit_bind. cbn [out]. apply compress_loop_inv.
Qed.


(** The results kept by the loop are the successes among what the
    [compress] calls returned. *)
Lemma compress_loop_results compress file_paths l :
  forall i st w st',
    out (for_enumerate (compress_item compress file_paths) i l st w)
      = Ret st' ->
    fst st'
    = fst st ++ List.filter success (compress_calls compress l (disk w)).
Proof.
  induction l as [|p l IH]; intros i st w st' Ho.
  - cbn in Ho. injection Ho as <-. cbn. now rewrite app_nil_r.
  - cbn [for_enumerate] in Ho.
    destruct (out (compress_item compress file_paths i p st w))
      as [st1|e] eqn:Hb;
      [rewrite (bind_ret_inv _ _ _ _ Hb) in Ho
      |rewrite (bind_raise_inv _ _ _ _ Hb) in Ho; discriminate].
    cbn [out] in Ho. apply IH in Ho. clear IH. rewrite Ho. clear Ho.
    destruct st as [crs res]. unfold compress_item in Hb |- *.
    assert (Hd : disk (final (call (compress p) w)) = fst (compress p (disk w)))
      by apply call_disk.
    assert (Hf : final (bind (call (compress p))
                          (fun comp_result =>
                             emit (set_step_progress "compress"
                                     (percent_of (Z.of_nat i + 1)
                                        (Z.of_nat (length file_paths)))) ;;
                             ret (if success comp_result
                                  then (crs ++ [comp_result],
                                        add_sizes comp_result res)
                                  else (crs, res))) w)
                 = final (call (compress p) w)).
    { unfold bind. destruct (out (call (compress p) w)); reflexivity. }
    rewrite Hf, Hd.
    destruct (out (call (compress p) w)) as [c|e] eqn:Hc;
      [rewrite (bind_ret_inv _ _ _ _ Hc) in Hb
      |rewrite (bind_raise_inv _ _ _ _ Hc) in Hb; discriminate].
    cbn in Hb. injection Hb as <-.
    rewrite call_out in Hc. cbn [compress_calls].
    destruct (compress p (disk w)) as [d' o]. cbn [fst snd] in *. subst o.
    cbn [List.filter].
    destruct (success c); cbn [fst]; [|reflexivity].
    now rewrite <- app_assoc.
Qed.

Lemma compress_step_results file_paths res w crs res' :
  out (compress_step E cfg file_paths res w) = Ret (crs, res') ->
  crs = compression_results E cfg file_paths (disk w).
Proof.
  unfold compress_step, compression_results.
  match goal with
  | |- context [bind ?m ?f w] =>
      destruct (complete_after m "compress" w) as (_ & Ho & _)
  end.
  cbv zeta in Ho. rewrite Ho. clear Ho.
  destruct (enable_compression cfg);
    [|intros H; now injection H as <- <-].
  destruct (compressor E) as [compress|];
    [|intros H; now injection H as <- <-].
  rewrite emit_bind. cbn [out]. intros Ho.
  apply compress_loop_results in Ho. exact Ho.
Qed.

(** *** Number *)

Lemma number_loop_inv crs file_paths l :
  forall i v w v',
    out (for_enumerate (number_item E cfg crs file_paths) i l v w) = Ret v' ->
    number_inv (length l) v v'.
Proof.
  induction l as [|p l IH]; intros i v w v' Ho.
  - cbn in Ho. injection Ho as <-. exists [], [].
    rewrite !app_nil_r. cbn. repeat split; lia.
  - cbn [for_enumerate] in Ho.
    destruct (out (number_item E cfg crs file_paths i p v w))
      as [v1|e] eqn:Hb;
      [rewrite (bind_ret_inv _ _ _ _ Hb) in Ho
      |rewrite (bind_raise_inv _ _ _ _ Hb) in Ho; discriminate].
    cbn [out] in Ho. apply IH in Ho. clear IH.
    rewrite number_item_unfold in Hb.
    destruct (exhibit_number (numbering_style cfg) i) as [num|e];
      [|discriminate].
    cbv zeta in Hb.
    destruct (out (numbered_copy _ _ _ _ _ _ _)) as [nf|e];
      [|discriminate].
    cbn [out] in Hb. injection Hb as <-.
    destruct Ho as (nfs & nes & Hnf & Hne & Hl1 & Hl2 & Hp).
    cbn [numbered_files exhibit_list number_total_pages] in *.
    eexists (nf :: nfs), (_ :: nes).
    rewrite Hnf, Hne, <- !app_assoc. cbn [app length].
    split; [reflexivity|]. split; [reflexivity|].
    split; [lia|]. split; [lia|].
    rewrite Hp. unfold page_sum. cbn [fold_right]. lia.
Qed.

Lemma number_step_inv crs file_paths res w v :
  out (number_step E cfg crs file_paths res w) = Ret v ->
  length (numbered_files v) = length file_paths
  /\ length (exhibit_list v) = length file_paths
  /\ number_total_pages v = total_pages res + page_sum (exhibit_list v).
Proof.
  unfold number_step. rewrite emit_bind. cbn [out].
  match goal with
  | |- context [bind ?m ?f w] =>
      destruct (complete_after m "number" w) as (_ & Ho & _)
  end.
  cbv zeta in Ho. rewrite Ho. clear Ho. intros Ho.
  apply number_loop_inv in Ho.
  destruct Ho as (nfs & nes & -> & -> & Hl1 & Hl2 & ->).
  cbn [app numbered_files exhibit_list number_total_pages].
  repeat split; assumption.
Qed.

(** *** Table of contents, cover letter, filing instructions, merge *)

Lemma toc_step_value numbered exhibits w numbered' :
  out (toc_step E cfg numbered exhibits w) = Ret numbered' ->
  if add_toc cfg
  then exists toc_file, numbered' = toc_file :: numbered
  else numbered' = numbered.
Proof.
  unfold toc_step.
  match goal with
  | |- context [bind ?m ?f w] =>
      destruct (complete_after m "toc" w) as (_ & Ho & _)
  end.
  cbv zeta in Ho. rewrite Ho. clear Ho.
  destruct (add_toc cfg).
  - rewrite emit_bind. cbn [out]. unfold bind, call.
    destruct (generate_table_of_contents E _ _ _ _) as [d [toc|e]];
      cbn; [|discriminate].
    intros H. injection H as <-. eauto.
  - cbn. intros H. now injection H as <-.
Qed.

Lemma cover_step_value exhibits res w res' :
  out (cover_step E cfg exhibits res w) = Ret res' ->
  same_aggregates res res' /\ output_file res' = output_file res.
Proof.
  unfold cover_step.
  match goal with
  | |- context [bind ?m ?f w] =>
      destruct (complete_after m "cover" w) as (_ & Ho & _)
  end.
  cbv zeta in Ho. rewrite Ho. clear Ho. unfold same_aggregates.
  destruct (add_cover_letter cfg).
  - rewrite emit_bind. cbn [out]. unfold catch, bind, call, ret.
    destruct (generate_cover_letter E _ _ _ _) as [d [[]|e]]; cbn;
      intros H; injection H as <-; cbn; repeat split.
  - cbn. intros H. injection H as <-. repeat split.
Qed.

Lemma filing_instructions_step_value exhibits res w res' :
  out (filing_instructions_step E cfg exhibits res w) = Ret res' ->
  same_aggregates res res' /\ output_file res' = output_file res.
Proof.
  unfold filing_instructions_step. rewrite emit_bind. cbn [out].
  match goal with
  | |- context [bind ?m ?f w] =>
      destruct (complete_after m "filing_instructions" w) as (_ & Ho & _)
  end.
  cbv zeta in Ho. rewrite Ho. clear Ho. unfold same_aggregates.
  destruct (add_filing_instructions cfg).
  - unfold catch, bind, call, ret.
    destruct (generate_filing_instructions E _ _ _ _) as [d [[]|e]]; cbn;
      intros H; injection H as <-; cbn; repeat split.
  - cbn. intros H. injection H as <-. repeat split.
Qed.

Lemma merge_step_value numbered res w res' :
  out (merge_step E cfg numbered res w) = Ret res' ->
  same_aggregates res res'
  /\ output_file res'
     = match numbered with
       | [] => None
       | _ :: _ => Some (package_path E)
       end.
Proof.
  unfold merge_step. rewrite emit_bind. cbn [out].
  match goal with
  | |- context [bind ?m ?f w] =>
      destruct (complete_after m "merge" w) as (_ & Ho & _)
  end.
  cbv zeta in Ho. rewrite Ho. clear Ho. unfold same_aggregates.
  destruct numbered as [|first_file rest].
  - cbn. intros H. injection H as <-. repeat split.
  - destruct (merge_pdfs cfg).
    + unfold bind at 1.
      destruct (out (call _ w)) as [merged|e]; [|discriminate].
      cbn [out]. unfold bind.
      destruct (out (shutil_copy _ _ _)); [|discriminate].
      cbn. intros H. injection H as <-. repeat split.
    + unfold bind.
      destruct (out (shutil_copy _ _ _)); [|discriminate].
      cbn. intros H. injection H as <-. repeat split.
Qed.

(** *** Finalize *)

Lemma finalize_step_session exhibits crs res w :
  let s := session (final (finalize_step cfg exhibits crs res w)) in
  session_exhibit_list s = Some exhibits
  /\ session_exhibits_generated s = true
  /\ session_compression_stats s
     = stats_after cfg crs res (session_compression_stats (session w)).
Proof. destruct crs; repeat split. Qed.

End StepValues.

(** ** The session state is written by finalize only *)

Lemma keeps_ret {A} (a : A) : keeps_session (ret a).
Proof. intros w. reflexivity. Qed.

Lemma keeps_raise {A} e : keeps_session (@raise A e).
Proof. intros w. reflexivity. Qed.

Lemma keeps_emit c : keeps_session (emit c).
Proof. intros w. reflexivity. Qed.

Lemma keeps_get_disk : keeps_session get_disk.
Proof. intros w. reflexivity. Qed.

Lemma keeps_lift {A} (o : outcome A) : keeps_session (lift_outcome o).
Proof. intros w. reflexivity. Qed.

Lemma keeps_call {A} (c : collaborator A) : keeps_session (call c).
Proof. intros w. apply call_session. Qed.

Lemma keeps_write path data : keeps_session (write_file path data).
Proof. intros w. reflexivity. Qed.

Lemma keeps_copy src dst : keeps_session (shutil_copy src dst).
Proof. intros w. apply shutil_copy_session. Qed.

Lemma keeps_bind {A B} (m : M A) (k : A -> M B) :
  keeps_session m -> (forall a, keeps_session (k a)) ->
  keeps_session (bind m k).
Proof.
  intros Hm Hk w. unfold bind.
  destruct (out (m w)); cbn [final]; [rewrite Hk|]; apply Hm.
Qed.

Lemma keeps_catch {A} (m : M A) (h : string -> M A) :
  keeps_session m -> (forall e, keeps_session (h e)) ->
  keeps_session (catch m h).
Proof.
  intros Hm Hh w. unfold catch.
  destruct (out (m w)); cbn [final]; [|rewrite Hh]; apply Hm.
Qed.

Lemma keeps_for_enumerate {X St} (body : nat -> X -> St -> M St) l :
  (forall i x s, keeps_session (body i x s)) ->
  forall i s, keeps_session (for_enumerate body i l s).
Proof.
  intros Hbody. induction l as [|x l IH]; intros i s.
  - apply keeps_ret.
  - cbn [for_enumerate]. apply keeps_bind; [apply Hbody|].
    intros s'. apply IH.
Qed.

Create HintDb keeps discriminated.
#[local] Hint Resolve keeps_ret keeps_raise keeps_emit keeps_get_disk
  keeps_lift keeps_call keeps_write keeps_copy : keeps.

Ltac keeps :=
  repeat first
    [ apply keeps_bind; [|intros ?]
    | apply keeps_catch; [|intros ?]
    | apply keeps_for_enumerate; intros ? ? ?
    | solve [auto with keeps]
    | match goal with
      | |- keeps_session (if ?b then _ else _) => destruct b
      | |- keeps_session (match ?x with _ => _ end) => destruct x
      | |- keeps_session (let '(_, _) := ?x in _) => destruct x
      end ].

Lemma keeps_extract E files zip_files :
  keeps_session (extract_step E files zip_files).
Proof. unfold extract_step, for_each, extract_upload, extract_zip. keeps. Qed.

Lemma keeps_compress E cfg file_paths res :
  keeps_session (compress_step E cfg file_paths res).
Proof. unfold compress_step, compress_item. keeps. Qed.

Lemma keeps_number E cfg crs file_paths res :
  keeps_session (number_step E cfg crs file_paths res).
Proof. unfold number_step, number_item, numbered_copy. keeps. Qed.

Lemma keeps_toc E cfg numbered exhibits :
  keeps_session (toc_step E cfg numbered exhibits).
Proof. unfold toc_step. keeps. Qed.

Lemma keeps_cover E cfg exhibits res :
  keeps_session (cover_step E cfg exhibits res).
Proof. unfold cover_step. keeps. Qed.

Lemma keeps_filing E cfg exhibits res :
  keeps_session (filing_instructions_step E cfg exhibits res).
Proof. unfold filing_instructions_step. keeps. Qed.

Lemma keeps_merge E cfg numbered res :
  keeps_session (merge_step E cfg numbered res).
Proof. unfold merge_step. keeps. Qed.

(** ** Runs that return *)

Lemma process_func_ret E cfg files zip_files w res :
  out (process_func E cfg files zip_files w) = Ret res ->
  out (process_steps E cfg files zip_files w) = Ret res
  /\ final (process_func E cfg files zip_files w)
     = final (process_steps E cfg files zip_files w).
Proof.
  unfold process_func, catch.
  destruct (out (process_steps E cfg files zip_files w)) eqn:Ho.
  - rewrite Ho. auto.
  - discriminate.
Qed.

(** ** The exhibit list, entry by entry *)

Lemma ai_label_keeps E cfg d p previous info :
  let info' := snd (ai_label E cfg d p previous info) in
  number info' = number info /\ filename info' = filename info
  /\ compression info' = compression info.
Proof.
  cbv zeta. unfold ai_label.
  destruct (d !! p); [|auto].
  destruct (generate_short_label E _ _ _) as [short_label|]; [|auto].
  destruct (analyze_pdf E _ _ _) as [found|]; [|auto].
  destruct (label_given short_label), found; auto.
Qed.

Lemma number_item_exhibit E cfg crs file_paths i p v w v1 :
  out (number_item E cfg crs file_paths i p v w) = Ret v1 ->
  exists info,
    exhibit_list v1 = exhibit_list v ++ [info]
    /\ exhibit_at cfg crs i p info.
Proof.
  rewrite number_item_unfold.
  destruct (exhibit_number (numbering_style cfg) i) as [num|] eqn:Hnum;
    [|discriminate].
  cbv zeta.
  destruct (out (numbered_copy _ _ _ _ _ _ _)) as [nf|]; [|discriminate].
  cbn [out]. intros H. injection H as <-. cbn [exhibit_list].
  eexists. split; [reflexivity|].
  unfold labelled_info.
  match goal with
  | |- context [ai_label E cfg ?d ?q ?b ?i0] =>
      destruct (ai_label_keeps E cfg d q b i0) as (Hn & Hf & Hc);
      cbv zeta in Hn, Hf, Hc; cbn [number filename compression] in Hn, Hf, Hc
  end.
  unfold exhibit_at, attach_compression, compression_entry.
  destruct (crs !! i) as [c|]; cbn [fmap option_fmap option_map];
    cbn [set_compression number filename compression];
    rewrite ?Hn, ?Hf, ?Hc; auto.
Qed.

Lemma number_loop_exhibits E cfg crs file_paths l :
  forall i v w v',
    out (for_enumerate (number_item E cfg crs file_paths) i l v w) = Ret v' ->
    exists new,
      exhibit_list v' = exhibit_list v ++ new
      /\ forall k p, l !! k = Some p ->
           exists info, new !! k = Some info
                        /\ exhibit_at cfg crs (i + k) p info.
Proof.
  induction l as [|q l IH]; intros i v w v' Ho.
  - cbn in Ho. injection Ho as <-. exists []. rewrite app_nil_r.
    split; [reflexivity|]. intros k p Hk. discriminate Hk.
  - cbn [for_enumerate] in Ho.
    destruct (out (number_item E cfg crs file_paths i q v w))
      as [v1|e] eqn:Hb;
      [rewrite (bind_ret_inv _ _ _ _ Hb) in Ho
      |rewrite (bind_raise_inv _ _ _ _ Hb) in Ho; discriminate].
    cbn [out] in Ho. apply IH in Ho. clear IH.
    apply number_item_exhibit in Hb.
    destruct Hb as (info & Hv1 & Hinfo).
    destruct Ho as (new & Hv' & Hnew).
    exists (info :: new). rewrite Hv', Hv1, <- app_assoc.
    split; [reflexivity|].
    intros [|k] p Hk.
    + injection Hk as <-. exists info. rewrite Nat.add_0_r. auto.
    + destruct (Hnew k p Hk) as (info' & Hl & Hat).
      exists info'. split; [exact Hl|].
      now replace (i + S k)%nat with (S i + k)%nat by lia.
Qed.

Lemma number_step_exhibits E cfg crs file_paths res w v :
  out (number_step E cfg crs file_paths res w) = Ret v ->
  forall k p, file_paths !! k = Some p ->
    exists info, exhibit_list v !! k = Some info
                 /\ exhibit_at cfg crs k p info.
Proof.
  unfold number_step. rewrite emit_bind. cbn [out].
  match goal with
  | |- context [bind ?m ?f w] =>
      destruct (complete_after m "number" w) as (_ & Ho & _)
  end.
  cbv zeta in Ho. rewrite Ho. clear Ho. intros Ho.
  apply number_loop_exhibits in Ho. destruct Ho as (new & Hv & Hnew).
  cbn [exhibit_list app] in Hv. rewrite Hv. exact Hnew.
Qed.

(** What a returned result and the session hold, in terms of the
    working set [file_paths], the successful compression results [crs]
    of the compress calls made on it, the variables [v] of the number
    step and the files [numbered] handed to the merge step. *)
Lemma returning_run_detail E cfg files zip_files w res :
  out (process_func E cfg files zip_files w) = Ret res ->
  exists file_paths crs v numbered,
    out (extract_step E files zip_files w) = Ret file_paths
    /\ crs = compression_results E cfg file_paths
               (disk (final (extract_step E files zip_files w)))
    /\ (forall k p, file_paths !! k = Some p ->
          exists info, exhibit_list v !! k = Some info
                       /\ exhibit_at cfg crs k p info)
    /\ Forall (fun c => success c = true) crs
    /\ length (exhibit_list v) = length file_paths
    /\ length (numbered_files v) = length file_paths
    /\ (if add_toc cfg
        then exists toc_file, numbered = toc_file :: numbered_files v
        else numbered = numbered_files v)
    /\ exhibits res = []
    /\ total_pages res = page_sum (exhibit_list v)
    /\ original_size res = original_sum crs
    /\ compressed_size res = compressed_sum crs
    /\ output_file res
       = match numbered with
         | [] => None
         | _ :: _ => Some (package_path E)
         end
    /\ let s := session (final (process_func E cfg files zip_files w)) in
       session_exhibit_list s = Some (exhibit_list v)
       /\ session_exhibits_generated s = true
       /\ session_compression_stats s
          = stats_after cfg crs res (session_compression_stats (session w)).
Proof.
  intros Hret. apply process_func_ret in Hret. destruct Hret as [Hret ->].
  pose proof (process_steps_chain E cfg files zip_files w) as Hchain.
  cbv zeta in Hchain.
  destruct (out (extract_step E files zip_files w)) as [file_paths|] eqn:H1;
    [|congruence].
  destruct (out (compress_step E cfg file_paths initial_result _))
    as [[crs res2]|] eqn:H2; [|congruence].
  destruct (out (number_step E cfg crs file_paths res2 _)) as [v|] eqn:H3;
    [|congruence].
  destruct (out (toc_step E cfg _ _ _)) as [numbered|] eqn:H4; [|congruence].
  destruct (out (cover_step E cfg _ _ _)) as [res5|] eqn:H5; [|congruence].
  destruct (out (filing_instructions_step E cfg _ _ _)) as [res6|] eqn:H6;
    [|congruence].
  destruct (out (merge_step E cfg _ _ _)) as [res7|] eqn:H7; [|congruence].
  destruct Hchain as [Hout Hfinal]. rewrite Hret in Hout.
  match type of Hout with
  | context [finalize_step cfg ?a ?b ?c ?d] =>
      destruct (finalize_step_run cfg a b c d) as (_ & Ho8 & _)
  end.
  cbv zeta in Ho8. rewrite Ho8 in Hout. injection Hout as <-.
  pose proof (compress_step_results _ _ _ _ _ _ _ H2) as Hresults.
  pose proof (number_step_exhibits _ _ _ _ _ _ _ H3) as Hentries.
  apply compress_step_inv in H2.
  destruct H2 as (new & Hcrs & Hsucc & (Hx2 & Ht2 & Ho2 & Hc2) & _).
  cbn [fst snd app exhibits total_pages original_size compressed_size
         initial_result] in Hcrs, Hx2, Ht2, Ho2, Hc2. subst new.
  apply number_step_inv in H3. destruct H3 as (Hl1 & Hl2 & Hpages).
  apply toc_step_value in H4.
  apply cover_step_value in H5. destruct H5 as [(Hx5 & Ht5 & Ho5 & Hc5) _].
  apply filing_instructions_step_value in H6.
  destruct H6 as [(Hx6 & Ht6 & Ho6 & Hc6) _].
  apply merge_step_value in H7. destruct H7 as [(Hx7 & Ht7 & Ho7 & Hc7) Hof].
  cbn [set_total_pages exhibits total_pages original_size compressed_size]
    in Hx5, Ht5, Ho5, Hc5.
  exists file_paths, crs, v, numbered.
  split; [reflexivity|]. split; [exact Hresults|]. split; [exact Hentries|].
  split; [exact Hsucc|].
  split; [exact Hl2|]. split; [exact Hl1|]. split; [exact H4|].
  split; [congruence|]. split; [lia|]. split; [lia|]. split; [lia|].
  split; [exact Hof|].
  cbv zeta. rewrite Hfinal.
  match goal with
  | |- context [finalize_step cfg ?a ?b ?c ?d] =>
      destruct (finalize_step_session cfg a b c d) as (Hs1 & Hs2 & Hs3)
  end.
  cbv zeta in Hs1, Hs2, Hs3. rewrite Hs1, Hs2, Hs3.
  rewrite keeps_merge, keeps_filing, keeps_cover, keeps_toc, keeps_number,
    keeps_compress, keeps_extract.
  auto.
Qed.

Lemma returning_run E cfg files zip_files w res :
  out (process_func E cfg files zip_files w) = Ret res ->
  exists file_paths crs v numbered,
    out (extract_step E files zip_files w) = Ret file_paths
    /\ Forall (fun c => success c = true) crs
    /\ length (exhibit_list v) = length file_paths
    /\ length (numbered_files v) = length file_paths
    /\ (if add_toc cfg
        then exists toc_file, numbered = toc_file :: numbered_files v
        else numbered = numbered_files v)
    /\ exhibits res = []
    /\ total_pages res = page_sum (exhibit_list v)
    /\ original_size res = original_sum crs
    /\ compressed_size res = compressed_sum crs
    /\ output_file res
       = match numbered with
         | [] => None
         | _ :: _ => Some (package_path E)
         end
    /\ let s := session (final (process_func E cfg files zip_files w)) in
       session_exhibit_list s = Some (exhibit_list v)
       /\ session_exhibits_generated s = true
       /\ session_compression_stats s
          = stats_after cfg crs res (session_compression_stats (session w)).
Proof.
  intros Hret.
  destruct (returning_run_detail _ _ _ _ _ _ Hret)
    as (file_paths & crs & v & numbered & H1 & _ & _ & H).
  exists file_paths, crs, v, numbered. split; [exact H1 | exact H].
Qed.

(** ** When a run returns *)

Lemma for_enumerate_returns {X St} (body : nat -> X -> St -> M St)
    (bound : nat) l :
  (forall i x s w, In x l -> (i < bound)%nat ->
                   is_ret (out (body i x s w)) = true) ->
  forall i s w, (i + length l <= bound)%nat ->
                is_ret (out (for_enumerate body i l s w)) = true.
Proof.
  induction l as [|x l IH]; intros Hbody i s w Hi; [reflexivity|].
  cbn [for_enumerate length] in *.
  assert (Hx : is_ret (out (body i x s w)) = true)
    by (apply Hbody; [now left | lia]).
  destruct (out (body i x s w)) as [s'|] eqn:Ho; [|discriminate].
  rewrite (bind_ret_inv _ _ _ _ Ho). cbn [out].
  apply IH; [|lia]. intros j y t w' Hy Hj. apply Hbody; [now right | exact Hj].
Qed.


Section Returns.

Variable E : env.
Variable cfg : config.

Lemma compress_step_returns file_paths res w :
  (forall compress p d,
     enable_compression cfg = true -> compressor E = Some compress ->
     In p file_paths -> is_ret (snd (compress p d)) = true) ->
  is_ret (out (compress_step E cfg file_paths res w)) = true.
Proof.
  intros Hc. unfold compress_step.
  match goal with
  | |- context [bind ?m ?f w] =>
      destruct (complete_after m "compress" w) as (_ & Ho & _)
  end.
  cbv zeta in Ho. rewrite Ho. clear Ho.
  destruct (enable_compression cfg) eqn:Hen; [|reflexivity].
  destruct (compressor E) as [compress|] eqn:Hcomp; [|reflexivity].
  rewrite emit_bind. cbn [out].
  apply (for_enumerate_returns _ (length file_paths)); [|lia].
  intros i p [crs r] w' Hp _. unfold compress_item.
  specialize (Hc compress p (disk w') eq_refl eq_refl Hp).
  rewrite <- call_out in Hc.
  destruct (out (call (compress p) w')) as [c|] eqn:Hcall; [|discriminate].
  rewrite (bind_ret_inv _ _ _ _ Hcall). reflexivity.
Qed.


Lemma exhibit_number_returns style i :
  Z.of_nat i < 1114073 -> is_ret (exhibit_number style i) = true.
Proof.
  intros Hi. unfold exhibit_number. cbv zeta.
  destruct (String.eqb style "letters").
  - unfold chr. destruct (Z.of_nat i <? 26) eqn:Hlt.
    + replace ((0 <=? 65 + Z.of_nat i) && (65 + Z.of_nat i <? 1114112))
        with true; [reflexivity|].
      symmetry. apply andb_true_intro. split; lia.
    + replace ((0 <=? 65 + Z.of_nat i - 26)
               && (65 + Z.of_nat i - 26 <? 1114112))
        with true; [reflexivity|].
      symmetry. apply andb_true_intro. split; lia.
  - destruct (String.eqb style "numbers"); [reflexivity|].
    rewrite to_roman_correct by lia. reflexivity.
Qed.

Lemma numbered_copy_returns file_path num bound info w :
  (forall d, is_ret (snd (add_exhibit_number_with_cover E file_path num
                            None None None None d)) = true) ->
  is_ret (out (numbered_copy E cfg file_path num bound info w)) = true.
Proof.
  intros Hplain. unfold numbered_copy, catch. cbv zeta.
  match goal with
  | |- context [out (?m w)] => destruct (out (m w)) eqn:Hfirst
  end; [now rewrite Hfirst|].
  cbn [out]. rewrite call_out. apply Hplain.
Qed.

Lemma number_step_returns crs file_paths res w :
  Z.of_nat (length file_paths) <= 1114073 ->
  (forall p num d, In p file_paths ->
     is_ret (snd (add_exhibit_number_with_cover E p num
                    None None None None d)) = true) ->
  is_ret (out (number_step E cfg crs file_paths res w)) = true.
Proof.
  intros Hlen Hcover. unfold number_step. rewrite emit_bind. cbn [out].
  match goal with
  | |- context [bind ?m ?f w] =>
      destruct (complete_after m "number" w) as (_ & Ho & _)
  end.
  cbv zeta in Ho. rewrite Ho. clear Ho.
  apply (for_enumerate_returns _ (length file_paths)); [|lia].
  intros i p v w' Hp Hi. rewrite number_item_unfold.
  pose proof (exhibit_number_returns (numbering_style cfg) i) as Hnum.
  destruct (exhibit_number (numbering_style cfg) i) as [num|];
    [|discriminate Hnum; lia].
  cbv zeta.
  match goal with
  | |- context [numbered_copy E cfg p num ?b ?info w'] =>
      pose proof (numbered_copy_returns p num b info w'
                    (fun d => Hcover p num d Hp)) as Hcopy;
      destruct (out (numbered_copy E cfg p num b info w'));
      [reflexivity | discriminate]
  end.
Qed.

Lemma toc_step_returns numbered exhibits w :
  (add_toc cfg = true ->
   forall l v d,
     is_ret (snd (generate_table_of_contents E l v
                    (path_join (mkdtemp E) "TOC.pdf") d)) = true) ->
  is_ret (out (toc_step E cfg numbered exhibits w)) = true.
Proof.
  intros Htoc. unfold toc_step.
  match goal with
  | |- context [bind ?m ?f w] =>
      destruct (complete_after m "toc" w) as (_ & Ho & _)
  end.
  cbv zeta in Ho. rewrite Ho. clear Ho.
  destruct (add_toc cfg); [|reflexivity].
  rewrite emit_bind. cbn [out].
  specialize (Htoc eq_refl exhibits (visa_type cfg) (disk w)).
  change (mkdtemp E) with (tmp_dir E) in Htoc.
  rewrite <- call_out in Htoc.
  destruct (out (call _ w)) as [toc|] eqn:Hcall; [|discriminate].
  rewrite (bind_ret_inv _ _ _ _ Hcall). reflexivity.
Qed.

Lemma merge_step_nothing res w :
  is_ret (out (merge_step E cfg [] res w)) = true.
Proof. reflexivity. Qed.

(** The run returns when the working set is extracted and the
    compress, number, table-of-contents and merge steps return on it. *)
Lemma run_returns files zip_files w file_paths :
  out (extract_step E files zip_files w) = Ret file_paths ->
  (forall res w', is_ret (out (compress_step E cfg file_paths res w')) = true) ->
  (forall crs res w',
     is_ret (out (number_step E cfg crs file_paths res w')) = true) ->
  (forall numbered exhibits w',
     is_ret (out (toc_step E cfg numbered exhibits w')) = true) ->
  (forall numbered res w',
     (length numbered
      = length file_paths + (if add_toc cfg then 1 else 0))%nat ->
     is_ret (out (merge_step E cfg numbered res w')) = true) ->
  is_ret (out (process_func E cfg files zip_files w)) = true.
Proof.
  intros H1 Hc Hn Ht Hm.
  destruct (process_func_rethrows E cfg files zip_files w) as (_ & -> & _).
  pose proof (process_steps_chain E cfg files zip_files w) as Hchain.
  cbv zeta in Hchain. rewrite H1 in Hchain.
  match type of Hchain with
  | context [compress_step E cfg file_paths ?r ?ww] =>
      specialize (Hc r ww);
      destruct (out (compress_step E cfg file_paths r ww))
        as [[crs res2]|]; [|discriminate]
  end.
  match type of Hchain with
  | context [number_step E cfg crs file_paths ?r ?ww] =>
      specialize (Hn crs r ww);
      destruct (out (number_step E cfg crs file_paths r ww))
        as [v|] eqn:H3; [|discriminate]
  end.
  apply number_step_inv in H3. destruct H3 as (Hl1 & _ & _).
  match type of Hchain with
  | context [toc_step E cfg ?a ?b ?ww] =>
      specialize (Ht a b ww);
      destruct (out (toc_step E cfg a b ww)) as [numbered|] eqn:H4;
      [|discriminate]
  end.
  apply toc_step_value in H4.
  match type of Hchain with
  | context [cover_step E cfg ?a ?b ?ww] =>
      destruct (cover_step_run E cfg a b ww) as (_ & H5 & _);
      cbv zeta in H5;
      destruct (out (cover_step E cfg a b ww)) as [res5|]; [|discriminate]
  end.
  match type of Hchain with
  | context [filing_instructions_step E cfg ?a ?b ?ww] =>
      destruct (filing_instructions_step_run E cfg a b ww) as (_ & H6 & _);
      cbv zeta in H6;
      destruct (out (filing_instructions_step E cfg a b ww)) as [res6|];
      [|discriminate]
  end.
  match type of Hchain with
  | context [merge_step E cfg numbered ?b ?ww] =>
      specialize (Hm numbered b ww);
      destruct (out (merge_step E cfg numbered b ww)) as [res7|]
  end.
  - destruct Hchain as [-> _].
    match goal with
    | |- context [finalize_step cfg ?a ?b ?c ?d] =>
        destruct (finalize_step_run cfg a b c d) as (_ & -> & _)
    end.
    reflexivity.
  - exfalso. assert (false = true); [|discriminate]. apply Hm.
    destruct (add_toc cfg).
    + destruct H4 as [toc ->]. cbn [length]. lia.
    + subst numbered. lia.
Qed.

End Returns.
(** ** Files that stay on disk *)

Lemma keeps_files_refl d : keeps_files d d.
Proof. intros k Hk. exact Hk. Qed.

Lemma keeps_files_trans d1 d2 d3 :
  keeps_files d1 d2 -> keeps_files d2 d3 -> keeps_files d1 d3.
Proof. intros H12 H23 k Hk. apply H23, H12, Hk. Qed.

Lemma keeps_files_insert d k (data : bytes) : keeps_files d (<[k := data]> d).
Proof.
  intros k' Hk'. destruct (string_dec k k') as [->|Hne].
  - rewrite lookup_insert_eq. eauto.
  - now rewrite lookup_insert_ne.
Qed.

Lemma written_kept E d d' q :
  keeps_files d d' -> written E d q -> written E d' q.
Proof. intros Hk [Hq Hne]. split; [apply Hk, Hq | exact Hne]. Qed.

Lemma keeps_disk_ret {A} (a : A) : keeps_disk (ret a).
Proof. intros w. apply keeps_files_refl. Qed.

Lemma keeps_disk_raise {A} e : keeps_disk (@raise A e).
Proof. intros w. apply keeps_files_refl. Qed.

Lemma keeps_disk_emit c : keeps_disk (emit c).
Proof. intros w. apply keeps_files_refl. Qed.

Lemma keeps_disk_call {A} (c : collaborator A) :
  (forall d, keeps_files d (fst (c d))) -> keeps_disk (call c).
Proof. intros Hc w. rewrite call_disk. apply Hc. Qed.

Lemma keeps_disk_copy src dst : keeps_disk (shutil_copy src dst).
Proof.
  intros w. unfold shutil_copy.
  destruct (disk w !! src); [|apply keeps_files_refl].
  destruct (String.eqb src dst); [apply keeps_files_refl|].
  apply keeps_files_insert.
Qed.

Lemma keeps_disk_bind {A B} (m : M A) (k : A -> M B) :
  keeps_disk m -> (forall a, keeps_disk (k a)) -> keeps_disk (bind m k).
Proof.
  intros Hm Hk w. unfold bind.
  destruct (out (m w)); cbn [final]; [|apply Hm].
  eapply keeps_files_trans; [apply Hm | apply Hk].
Qed.

Lemma keeps_disk_catch {A} (m : M A) (h : string -> M A) :
  keeps_disk m -> (forall e, keeps_disk (h e)) -> keeps_disk (catch m h).
Proof.
  intros Hm Hh w. unfold catch.
  destruct (out (m w)); cbn [final]; [apply Hm|].
  eapply keeps_files_trans; [apply Hm | apply Hh].
Qed.

(** A call that leaves its file. *)
Lemma call_written E (c : collaborator string) w :
  leaves_its_file E (disk w) (c (disk w)) ->
  keeps_files (disk w) (disk (final (call c w)))
  /\ forall q, out (call c w) = Ret q ->
               written E (disk (final (call c w))) q.
Proof. intros [Hk Hq]. rewrite call_disk, call_out. split; assumption. Qed.

Section Written.

Variable E : env.
Variable cfg : config.
Hypothesis Hgood : collaborators_succeed E.

Lemma numbered_copy_written file_path num bound info w q :
  let r := numbered_copy E cfg file_path num bound info w in
  out r = Ret q ->
  keeps_files (disk w) (disk (final r)) /\ written E (disk (final r)) q.
Proof.
  cbv zeta. unfold numbered_copy, catch.
  match goal with
  | |- context [out (?m w)] => set (first_try := m)
  end.
  assert (Hfirst : keeps_files (disk w) (disk (final (first_try w)))
                   /\ forall q, out (first_try w) = Ret q ->
                                written E (disk (final (first_try w))) q).
  { subst first_try. cbv beta.
    destruct (include_full_text_images cfg); [destruct bound|];
      try (apply call_written, (cover_page_left E Hgood)).
    split; [apply keeps_files_refl | discriminate]. }
  destruct Hfirst as [Hkeep Hleft].
  destruct (out (first_try w)) as [a|e] eqn:Ho.
  - intros Ha. rewrite Ho in Ha. injection Ha as ->. split; [exact Hkeep|].
    now apply Hleft.
  - cbn [out final]. intros Hq.
    destruct (call_written E
                (add_exhibit_number_with_cover E file_path num None None
                   None None) (final (first_try w))
                (cover_page_left E Hgood _ _ _ _ _ _ _)) as [Hk Hw].
    split; [eapply keeps_files_trans; eassumption | now apply Hw].
Qed.

Lemma number_item_written crs file_paths i p v w v1 :
  let r := number_item E cfg crs file_paths i p v w in
  out r = Ret v1 ->
  keeps_files (disk w) (disk (final r))
  /\ exists q, numbered_files v1 = numbered_files v ++ [q]
               /\ written E (disk (final r)) q.
Proof.
  cbv zeta. rewrite number_item_unfold.
  destruct (exhibit_number (numbering_style cfg) i) as [num|];
    [|discriminate].
  cbv zeta.
  match goal with
  | |- context [numbered_copy E cfg p num ?b ?info w] =>
      pose proof (numbered_copy_written p num b info w) as Hcopy;
      destruct (out (numbered_copy E cfg p num b info w)) as [q|] eqn:Hrc;
      [|discriminate]
  end.
  cbv zeta in Hcopy. destruct (Hcopy q Hrc) as [Hk Hw].
  cbn [out final]. intros H. injection H as <-. cbn [numbered_files].
  split; [exact Hk|]. exists q. auto.
Qed.

Lemma number_loop_written crs file_paths l :
  forall i v w v',
    let r := for_enumerate (number_item E cfg crs file_paths) i l v w in
    out r = Ret v' ->
    Forall (written E (disk w)) (numbered_files v) ->
    Forall (written E (disk (final r))) (numbered_files v').
Proof.
  induction l as [|p l IH]; intros i v w v'; cbv zeta.
  - cbn. intros H. now injection H as <-.
  - cbn [for_enumerate].
    destruct (out (number_item E cfg crs file_paths i p v w))
      as [v1|e] eqn:Hb;
      [rewrite (bind_ret_inv _ _ _ _ Hb)
      |rewrite (bind_raise_inv _ _ _ _ Hb); discriminate].
    cbn [out final]. intros Ho Hold. apply (IH _ _ _ _ Ho).
    destruct (number_item_written _ _ _ _ _ _ _ Hb) as (Hk & q & Hv1 & Hq).
    rewrite Hv1. apply Forall_app. split; [|now constructor].
    eapply Forall_impl; [exact Hold|].
    intros q'. apply written_kept, Hk.
Qed.

Lemma number_step_written crs file_paths res w v :
  let r := number_step E cfg crs file_paths res w in
  out r = Ret v -> Forall (written E (disk (final r))) (numbered_files v).
Proof.
  cbv zeta. unfold number_step. rewrite emit_bind. cbn [out final].
  match goal with
  | |- context [bind ?m ?f w] =>
      destruct (complete_after m "number" w) as (_ & Ho & Hf)
  end.
  cbv zeta in Ho, Hf. rewrite Ho, Hf. clear Ho Hf. intros Ho.
  apply (number_loop_written _ _ _ _ _ _ _ Ho). constructor.
Qed.

Lemma toc_step_written numbered exhibits w numbered' :
  let r := toc_step E cfg numbered exhibits w in
  out r = Ret numbered' ->
  Forall (written E (disk w)) numbered ->
  Forall (written E (disk (final r))) numbered'.
Proof.
  cbv zeta. unfold toc_step.
  match goal with
  | |- context [bind ?m ?f w] =>
      destruct (complete_after m "toc" w) as (_ & Ho & Hf)
  end.
  cbv zeta in Ho, Hf. rewrite Ho, Hf. clear Ho Hf.
  destruct (add_toc cfg); [|cbn; intros H; now injection H as <-].
  rewrite emit_bind. cbn [out final].
  match goal with
  | |- context [call ?c] =>
      destruct (call_written E c w (toc_left E Hgood _ _ _)) as [Hk Hw];
      destruct (out (call c w)) as [toc_file|] eqn:Hc;
      [rewrite (bind_ret_inv _ _ _ _ Hc)
      |rewrite (bind_raise_inv _ _ _ _ Hc); discriminate]
  end.
  cbn [out final]. intros H Hold. injection H as <-.
  constructor; [now apply Hw|].
  eapply Forall_impl; [exact Hold|]. intros q. apply written_kept, Hk.
Qed.

Lemma keeps_disk_cover exhibits res :
  keeps_disk (cover_step E cfg exhibits res).
Proof.
  unfold cover_step.
  apply keeps_disk_bind;
    [|intros r; apply keeps_disk_bind;
      [apply keeps_disk_emit | intros _; apply keeps_disk_ret]].
  destruct (add_cover_letter cfg); [|apply keeps_disk_ret].
  apply keeps_disk_bind; [apply keeps_disk_emit|]. intros _.
  apply keeps_disk_catch; [|intros e; apply keeps_disk_ret].
  apply keeps_disk_bind; [|intros _; apply keeps_disk_ret].
  apply keeps_disk_call. intros d. apply (cover_letter_keeps E Hgood).
Qed.

Lemma keeps_disk_filing exhibits res :
  keeps_disk (filing_instructions_step E cfg exhibits res).
Proof.
  unfold filing_instructions_step.
  apply keeps_disk_bind; [apply keeps_disk_emit|]. intros _.
  apply keeps_disk_bind;
    [|intros r; apply keeps_disk_bind;
      [apply keeps_disk_emit | intros _; apply keeps_disk_ret]].
  destruct (add_filing_instructions cfg); [|apply keeps_disk_ret].
  apply keeps_disk_catch; [|intros e; apply keeps_disk_ret].
  apply keeps_disk_bind; [|intros _; apply keeps_disk_ret].
  apply keeps_disk_call. intros d.
  apply (filing_instructions_keeps E Hgood).
Qed.

(** The merge step returns when the files it is handed are on disk. *)
Lemma merge_step_succeeds numbered res w :
  Forall (written E (disk w)) numbered ->
  is_ret (out (merge_step E cfg numbered res w)) = true.
Proof.
  intros Hold. unfold merge_step. rewrite emit_bind. cbn [out].
  match goal with
  | |- context [bind ?m ?f w] =>
      destruct (complete_after m "merge" w) as (_ & Ho & _)
  end.
  cbv zeta in Ho. rewrite Ho. clear Ho.
  destruct numbered as [|first_file rest]; [reflexivity|].
  apply Forall_cons in Hold. destruct Hold as [[[data Hdata] Hne] _].
  destruct (merge_pdfs cfg).
  - match goal with
    | |- context [call ?c] =>
        destruct (call_written E c w (merge_left E Hgood _ _)) as [_ Hw];
        pose proof (merge_returns E Hgood (first_file :: rest) (disk w))
          as Hret;
        change (mkdtemp E) with (tmp_dir E) in Hret;
        rewrite <- call_out in Hret;
        destruct (out (call c w)) as [merged|] eqn:Hc; [|discriminate]
    end.
    rewrite (bind_ret_inv _ _ _ _ Hc). cbn [out].
    destruct (Hw merged eq_refl) as [[merged_data Hm] Hmne].
    unfold bind, shutil_copy. rewrite Hm.
    destruct (String.eqb_spec merged (package_path E)) as [Heq|_];
      [contradiction | reflexivity].
  - unfold bind, shutil_copy. rewrite Hdata.
    destruct (String.eqb_spec first_file (package_path E)) as [Heq|_];
      [contradiction | reflexivity].
Qed.

(** With collaborators that do their work, the run returns as soon as
    every [compress] call returns and the positions can be numbered. *)
Lemma run_returns_with_collaborators files zip_files w file_paths :
  out (extract_step E files zip_files w) = Ret file_paths ->
  Z.of_nat (length file_paths) <= 1114073 ->
  (forall compress p d,
     enable_compression cfg = true -> compressor E = Some compress ->
     In p file_paths -> is_ret (snd (compress p d)) = true) ->
  is_ret (out (process_func E cfg files zip_files w)) = true.
Proof.
  intros H1 Hlen Hcompress.
  destruct (process_func_rethrows E cfg files zip_files w) as (_ & -> & _).
  pose proof (process_steps_chain E cfg files zip_files w) as Hchain.
  cbv zeta in Hchain. rewrite H1 in Hchain.
  match type of Hchain with
  | context [compress_step E cfg file_paths ?r ?ww] =>
      pose proof (compress_step_returns E cfg file_paths r ww Hcompress)
        as Hc;
      destruct (out (compress_step E cfg file_paths r ww))
        as [[crs res2]|]; [|discriminate]
  end.
  match type of Hchain with
  | context [number_step E cfg crs file_paths ?r ?ww] =>
      pose proof (number_step_returns E cfg crs file_paths r ww Hlen
                    (fun p num d _ => cover_page_returns E Hgood p num d))
        as Hn;
      pose proof (number_step_written crs file_paths r ww) as Hw3;
      destruct (out (number_step E cfg crs file_paths r ww))
        as [v|] eqn:H3; [|discriminate]
  end.
  cbv zeta in Hw3. specialize (Hw3 v H3).
  match type of Hchain with
  | context [toc_step E cfg ?a ?b ?ww] =>
      pose proof (toc_step_returns E cfg a b ww
                    (fun _ l v d => toc_returns E Hgood l v d))
        as Ht;
      pose proof (toc_step_written a b ww) as Hw4;
      destruct (out (toc_step E cfg a b ww)) as [numbered|] eqn:H4;
      [|discriminate]
  end.
  cbv zeta in Hw4. specialize (Hw4 numbered H4 Hw3).
  match type of Hchain with
  | context [cover_step E cfg ?a ?b ?ww] =>
      destruct (cover_step_run E cfg a b ww) as (_ & H5 & _);
      cbv zeta in H5;
      pose proof (keeps_disk_cover a b ww) as Hk5;
      destruct (out (cover_step E cfg a b ww)) as [res5|]; [|discriminate]
  end.
  match type of Hchain with
  | context [filing_instructions_step E cfg ?a ?b ?ww] =>
      destruct (filing_instructions_step_run E cfg a b ww) as (_ & H6 & _);
      cbv zeta in H6;
      pose proof (keeps_disk_filing a b ww) as Hk6;
      destruct (out (filing_instructions_step E cfg a b ww)) as [res6|];
      [|discriminate]
  end.
  match type of Hchain with
  | context [merge_step E cfg numbered ?b ?ww] =>
      assert (Hm : is_ret (out (merge_step E cfg numbered b ww)) = true);
      [apply merge_step_succeeds;
       eapply Forall_impl; [exact Hw4|];
       intros q Hq; eapply written_kept; [exact Hk6|];
       eapply written_kept; [exact Hk5 | exact Hq]
      |destruct (out (merge_step E cfg numbered b ww)) as [res7|];
       [|discriminate]]
  end.
  destruct Hchain as [-> _].
  match goal with
  | |- context [finalize_step cfg ?a ?b ?c ?d] =>
      destruct (finalize_step_run cfg a b c d) as (_ & -> & _)
  end.
  reflexivity.
Qed.

End Written.

(** ** Merging, aborting, averaging *)

Lemma merge_step_returns E cfg numbered res w :
  merge_pdfs cfg = true ->
  (forall l d, exists p,
     snd (pdf_merge E l (path_join (mkdtemp E) "final_package.pdf") d) = Ret p
     /\ is_Some (fst (pdf_merge E l
                        (path_join (mkdtemp E) "final_package.pdf") d) !! p)
     /\ p <> package_path E) ->
  is_ret (out (merge_step E cfg numbered res w)) = true.
Proof.
  intros Hon Hmerge. unfold merge_step. rewrite emit_bind. cbn [out].
  match goal with
  | |- context [bind ?m ?f w] =>
      destruct (complete_after m "merge" w) as (_ & Ho & _)
  end.
  cbv zeta in Ho. rewrite Ho. clear Ho.
  destruct numbered as [|first_file rest]; [reflexivity|].
  rewrite Hon. unfold tmp_dir.
  destruct (Hmerge (first_file :: rest) (disk w))
    as (p & Hp & [data Hdata] & Hne).
  rewrite <- call_out in Hp. rewrite <- call_disk in Hdata.
  rewrite (bind_ret_inv _ _ _ _ Hp). cbn [out].
  unfold bind, shutil_copy. rewrite Hdata.
  destruct (String.eqb_spec p (package_path E)) as [Heq|_];
    [contradiction|reflexivity].
Qed.




(** ** Files written by the extract step *)




(** *** Archive entries *)







(** *** The bytes of the copies *)







(** * Whole runs and the extract step *)

(** ** The sample collaborators *)

Lemma occurs_suffix (suffix p : string) : occurs suffix (p +:+ suffix) = true.
Proof.
  induction p as [|c p IH].
  - assert (Hp : forall t, String.prefix t t = true).
    { induction t as [|c t IHt]; [reflexivity|]. cbn [String.prefix].
      destruct (ascii_dec c c) as [_|Hne]; [exact IHt | contradiction]. }
    change ("" +:+ suffix) with suffix.
    destruct suffix; cbn [occurs]; [reflexivity|]. now rewrite Hp.
  - rewrite append_cons. cbn [occurs]. rewrite IH. apply orb_true_r.
Qed.

(** The collaborators of the sample environment do their work. *)
Lemma sample_collaborators_succeed compress :
  collaborators_succeed (sample_env compress).
Proof.
  split; cbn [sample_env add_exhibit_number_with_cover
                generate_table_of_contents pdf_merge generate_cover_letter
                generate_filing_instructions mkdtemp].
  - intros p num t s x c d. unfold sample_cover. split; cbn [fst snd].
    + apply keeps_files_insert.
    + intros q H. injection H as <-. split.
      * rewrite lookup_insert_eq. eauto.
      * intros Heq. pose proof (occurs_suffix ".numbered" p) as Ho.
        rewrite Heq in Ho. vm_compute in Ho. discriminate Ho.
  - reflexivity.
  - intros l v d. split; cbn [fst snd].
    + apply keeps_files_insert.
    + intros q H. injection H as <-. split.
      * rewrite lookup_insert_eq. eauto.
      * intros Heq. vm_compute in Heq. discriminate Heq.
  - reflexivity.
  - intros l d. split; cbn [fst snd].
    + apply keeps_files_insert.
    + intros q H. injection H as <-. split.
      * rewrite lookup_insert_eq. eauto.
      * intros Heq. vm_compute in Heq. discriminate Heq.
  - reflexivity.
  - intros v l dest d. apply keeps_files_insert.
  - intros v l dest d. apply keeps_files_insert.
Qed.

(** ** C1: a file whose compression fails *)





(** After a failure reported on the second of three files, compression
    information is attached by position in the list of successful
    results: the first two exhibits carry one, the third none. *)
Lemma compression_info_follows_successes :
  let r := process_func (sample_env (Some compress_failing_on_b))
             (sample_config "letters" true true true) three_files []
             empty_world in
  option_map (map (fun e => bool_decide (is_Some (compression e))))
    (session_exhibit_list (session (final r)))
  = Some [true; true; false].
Proof. vm_compute. reflexivity. Qed.

(** ** C3: a run without inputs *)

(** C3.  A run without any input returns whatever the options, provided
    the collaborators do their work; its result has no exhibits and no
    pages, the exhibit list stored is empty, the eight steps are all
    recorded and complete and the overall status is complete.  Its
    output file, however, is unset only when the table of contents is
    disabled (and then whatever the collaborators do): with the table of
    contents enabled, the table of contents is the one file handed to
    the merge step, and the result names the package as its output
    file. *)
Theorem empty_run_output_follows_toc E cfg w :
  let r := process_func E cfg [] [] w in
  let state := generate_exhibits_v2 E cfg [] [] w in
  (add_toc cfg = false \/ collaborators_succeed E -> is_ret (out r) = true)
  /\ forall res,
       out r = Ret res ->
       output_file res
       = (if add_toc cfg then Some (package_path E) else None)
       /\ exhibits res = [] /\ total_pages res = 0
       /\ session_exhibit_list (session (final r)) = Some []
       /\ map fst (steps state) = step_names
       /\ all_complete (steps state) = true
       /\ state_result state = Some res
       /\ overall_status state = OverallComplete.
Proof.
  cbv zeta.
  destruct (extract_uploads_only E [] w) as [Hex _]. cbv zeta in Hex.
  cbn [map] in Hex. split.
  - intros [Htoc|Hgood].
    + apply (run_returns E cfg _ _ _ _ Hex).
      * intros res w'. apply compress_step_returns. intros c p d _ _ [].
      * intros crs res w'. apply number_step_returns.
        -- cbn. lia.
        -- intros p num d [].
      * intros numbered exhibits w'. apply toc_step_returns.
        rewrite Htoc. discriminate.
      * intros numbered res w' Hlen. rewrite Htoc in Hlen.
        destruct numbered; [apply merge_step_nothing | discriminate Hlen].
    + apply (run_returns_with_collaborators E cfg Hgood _ _ _ _ Hex).
      * cbn. lia.
      * intros c p d _ _ [].
  - intros res Hout.
    destruct (returning_run _ _ _ _ _ _ Hout)
      as (fps & crs & v & numbered & Hex' & _ & Hl1 & Hl2 & Hnum & Hx
          & Hpages & _ & _ & Hfile & Hlist & _).
    rewrite Hex in Hex'. injection Hex' as <-. cbn [length] in Hl1, Hl2.
    destruct (exhibit_list v); [|discriminate].
    destruct (numbered_files v); [|discriminate].
    destruct (state_of_returning_run _ _ _ _ _ Hout)
      as (Hn & Hall & Hres & Hov).
    cbv zeta in Hn, Hall, Hres, Hov.
    split; [|repeat split; assumption].
    rewrite Hfile. destruct (add_toc cfg).
    + destruct Hnum as [toc_file ->]. reflexivity.
    + now subst numbered.
Qed.

Lemma empty_run_output_follows_toc_witness :
  exists res,
    out (process_func (sample_env None)
           (sample_config "letters" false true false) [] [] empty_world)
      = Ret res
    /\ output_file res = Some "/tmp/exhibit_package_20240101_120000.pdf"
    /\ exhibits res = []
    /\ overall_status
         (generate_exhibits_v2 (sample_env None)
            (sample_config "letters" false true false) [] [] empty_world)
       = OverallComplete.
Proof.
  destruct (empty_run_output_follows_toc (sample_env None)
              (sample_config "letters" false true false) empty_world)
    as [Hreturns Hvalue].
  cbv zeta in Hreturns, Hvalue.
  specialize (Hreturns (or_intror (sample_collaborators_succeed None))).
  destruct (out (process_func (sample_env None)
                   (sample_config "letters" false true false) [] []
                   empty_world)) as [res|] eqn:Hout; [|discriminate].
  exists res. split; [reflexivity|].
  destruct (Hvalue res eq_refl) as (Hfile & Hx & _ & _ & _ & _ & _ & Hov).
  split; [exact Hfile|]. split; [exact Hx | exact Hov].
Defined.

(** ** C4: the package *)

(** C4, at the failing input.  One uploaded file, table of contents
    enabled, merging disabled: the run returns, and the package is a copy
    of the table of contents, not of the numbered exhibit, because the
    table of contents was inserted at the head of [numbered_files]. *)
Theorem unmerged_package_is_table_of_contents :
  let E := sample_env None in
  let cfg := sample_config "letters" false true false in
  let files := [ {| name := "a.pdf"; read := [Byte.x01] |} ] in
  let r := process_func E cfg files [] empty_world in
  exists res,
    out r = Ret res
    /\ output_file res = Some (package_path E)
    /\ disk (final r) !! "/tmp/run/a.pdf.numbered" = Some [Byte.x01]
    /\ disk (final r) !! "/tmp/run/TOC.pdf" = Some [Byte.x54]
    /\ disk (final r) !! package_path E = Some [Byte.x54].
Proof. eexists. vm_compute. repeat split. Qed.

(** ** C5: what finalize stores *)




(** ** C7: archive entries that are refused *)



(** ** C8: completing a step *)

(** C8, counterexample.  With no input and compression disabled, the
    compress step is completed although it was never announced running;
    and with an archive entry that is not a string, the extract step is
    completed after it was set to error. *)
Lemma complete_without_running :
  let E := sample_env None in
  let cfg := sample_config "letters" false false true in
  let r := process_func E cfg [] [] empty_world in
  let r' := process_func E cfg [] [NotStr "None"] empty_world in
  In (complete_step "compress") (calls r)
  /\ ~ announced "compress" (calls r)
  /\ exists pre post,
       calls r' = pre ++ complete_step "extract" :: post
       /\ set_to_error "extract" pre.
Proof.
  cbv zeta. split; [|split].
  - vm_compute. repeat (first [left; reflexivity | right]).
  - unfold announced. vm_compute. intuition discriminate.
  - exists [update_step "extract" Running None;
            update_step "extract" Error
              (Some "Invalid zip file path: None")].
    eexists. split; [vm_compute; reflexivity|].
    eexists. right. left. reflexivity.
Qed.

Lemma complete_step_after_announcement_witness :
  let r := process_func (sample_env None)
             (sample_config "letters" false false true) [] [] empty_world in
  calls r
  = [update_step "extract" Running None]
      ++ complete_step "extract" :: skipn 2 (calls r)
  /\ announced "extract" [update_step "extract" Running None].
Proof.
  cbv zeta. split; [vm_compute; reflexivity|].
  destruct (complete_step_after_announcement (sample_env None)
              (sample_config "letters" false false true) [] [] empty_world
              [update_step "extract" Running None] "extract"
              (skipn 2 (calls (process_func (sample_env None)
                                 (sample_config "letters" false false true)
                                 [] [] empty_world))))
    as (_ & Hannounced & _).
  - vm_compute. reflexivity.
  - apply Hannounced. left. reflexivity.
Defined.

(** ** C10: uploads that share a file name *)



(** * Further properties of the pipeline *)

(** ** A run that raises *)

(** X1.  A run of [process_func] that raises leaves the session state as
    it found it: [exhibit_list], [compression_stats] and
    [exhibits_generated] are written by the finalize step only, which a
    run reaches after every other step has returned. *)
Theorem aborted_run_keeps_session E cfg files zip_files w e :
  out (process_func E cfg files zip_files w) = Raise e ->
  session (final (process_func E cfg files zip_files w)) = session w.
Proof.
  intros Hraise.
  assert (Hnot : is_ret (out (process_func E cfg files zip_files w)) = false)
    by now rewrite Hraise.
  destruct (process_func_rethrows E cfg files zip_files w) as (_ & Hr & ->).
  rewrite Hr in Hnot. clear Hr Hraise. revert Hnot.
  unfold process_steps. cbv zeta.
  next_stage file_paths Ho1; [|intros _; apply keeps_extract].
  next_stage st Ho2;
    [|intros _; rewrite keeps_compress; apply keeps_extract].
  destruct st as [crs res2].
  next_stage v Ho3;
    [|intros _; rewrite keeps_number, keeps_compress; apply keeps_extract].
  next_stage numbered Ho4;
    [|intros _; rewrite keeps_toc, keeps_number, keeps_compress;
      apply keeps_extract].
  next_stage res5 Ho5;
    [|intros _; rewrite keeps_cover, keeps_toc, keeps_number, keeps_compress;
      apply keeps_extract].
  next_stage res6 Ho6;
    [|intros _; rewrite keeps_filing, keeps_cover, keeps_toc, keeps_number,
        keeps_compress; apply keeps_extract].
  next_stage res7 Ho7;
    [|intros _; rewrite keeps_merge, keeps_filing, keeps_cover, keeps_toc,
        keeps_number, keeps_compress; apply keeps_extract].
  match goal with
  | |- context [finalize_step cfg ?a ?b ?c ?d] =>
      destruct (finalize_step_run cfg a b c d) as (_ & -> & _)
  end.
  discriminate.
Qed.

Lemma aborted_run_keeps_session_witness :
  session (final (process_func (sample_env (Some compress_raising_on_b))
                    (sample_config "letters" true true true) three_files []
                    empty_world))
  = session empty_world.
Proof.
  apply (aborted_run_keeps_session _ _ _ _ _
           "Failed to process exhibits: compression crashed").
  vm_compute. reflexivity.
Defined.

(** ** The exhibit list, entry by entry *)

(** X2.  When a run returns, the exhibit list stored in the session has
    one entry per path of the working set, in the same order: entry [k]
    carries the exhibit number of position [k] and the file name of the
    [k]-th path.  Its compression entry is made from the [k]-th of the
    results that the [compress] calls on the working set returned with
    success (reduction 0 and method "none" where the result names none);
    it is present exactly when more than [k] calls succeeded, whichever
    file that result was computed for. *)
Theorem exhibits_follow_working_set E cfg files zip_files w res :
  out (process_func E cfg files zip_files w) = Ret res ->
  let r1 := extract_step E files zip_files w in
  exists file_paths stored,
    out r1 = Ret file_paths
    /\ session_exhibit_list
         (session (final (process_func E cfg files zip_files w)))
       = Some stored
    /\ length stored = length file_paths
    /\ forall k p, file_paths !! k = Some p ->
         exists info,
           stored !! k = Some info
           /\ exhibit_number (numbering_style cfg) k = Ret (number info)
           /\ filename info = basename p
           /\ compression info
              = compression_entry
                  (compression_results E cfg file_paths (disk (final r1))) k.
Proof.
  intros Hret. cbv zeta.
  destruct (returning_run_detail _ _ _ _ _ _ Hret)
    as (file_paths & crs & v & numbered & H1 & Hcrs & Hentries & _ & Hlen
        & _ & _ & _ & _ & _ & _ & _ & Hlist & _).
  exists file_paths, (exhibit_list v).
  split; [exact H1|]. split; [exact Hlist|]. split; [exact Hlen|].
  intros k p Hk. rewrite <- Hcrs.
  destruct (Hentries k p Hk) as (info & Hl & Hn & Hf & Hc).
  exists info. auto.
Qed.

Lemma exhibits_follow_working_set_witness :
  exists first_info second_info third_info,
    session_exhibit_list
      (session (final (process_func (sample_env (Some compress_failing_on_b))
                         (sample_config "letters" true true true)
                         three_files [] empty_world)))
    = Some [first_info; second_info; third_info]
    /\ number second_info = "B" /\ filename second_info = "b.pdf"
    /\ compression second_info
       = Some {| reduction := 50%Q; method := "ghostscript" |}
    /\ compression third_info = None.
Proof.
  destruct (exhibits_follow_working_set
              (sample_env (Some compress_failing_on_b))
              (sample_config "letters" true true true) three_files []
              empty_world
              {| exhibits := []; total_pages := 6; original_size := 200;
                 compressed_size := 100;
                 output_file :=
                   Some "/tmp/exhibit_package_20240101_120000.pdf";
                 cover_letter_path :=
                   Some (Some "/tmp/run/Cover_Letter.docx");
                 filing_instructions_path := None |})
    as (file_paths & stored & Hex & Hlist & Hlen & Hentries).
  - vm_compute. reflexivity.
  - cbv zeta in Hentries.
    assert (Hfp : Ret file_paths
                  = Ret ["/tmp/run/a.pdf"; "/tmp/run/b.pdf"; "/tmp/run/c.pdf"]).
    { rewrite <- Hex. vm_compute. reflexivity. }
    injection Hfp as ->.
    assert (Hcrs : compression_results
                     (sample_env (Some compress_failing_on_b))
                     (sample_config "letters" true true true)
                     ["/tmp/run/a.pdf"; "/tmp/run/b.pdf"; "/tmp/run/c.pdf"]
                     (disk (final (extract_step
                                     (sample_env
                                        (Some compress_failing_on_b))
                                     three_files [] empty_world)))
                   = [compressed_half 100; compressed_half 100])
      by (vm_compute; reflexivity).
    rewrite Hcrs in Hentries.
    destruct stored as [|first_info [|second_info [|third_info [|]]]];
      try discriminate Hlen.
    exists first_info, second_info, third_info. split; [exact Hlist|].
    destruct (Hentries 1%nat "/tmp/run/b.pdf" eq_refl)
      as (info2 & H2 & Hn2 & Hf2 & Hc2).
    destruct (Hentries 2%nat "/tmp/run/c.pdf" eq_refl)
      as (info3 & H3 & _ & _ & Hc3).
    injection H2 as <-. injection H3 as <-.
    split; [now injection Hn2|]. split; [exact Hf2|].
    split; [exact Hc2 | exact Hc3].
Defined.

(** ** [to_roman] on every integer *)

Lemma to_roman_nonpositive n : n <= 0 -> to_roman n = Ret "".
Proof.
  intros Hn. unfold to_roman. rewrite to_roman_while_step.
  now rewrite (proj2 (Z.ltb_ge 0 n) Hn).
Qed.

Lemma roman_symbol_value_bound c : 0 <= roman_symbol_value c <= 1000.
Proof.
  unfold roman_symbol_value.
  repeat match goal with
         | |- context [Ascii.eqb c ?x] => destruct (Ascii.eqb c x)
         end; lia.
Qed.

Lemma roman_value_thousand s :
  roman_value (String "M" s) = roman_value s + 1000.
Proof.
  cbn [roman_value]. destruct s as [|c s]; [reflexivity|].
  change (roman_symbol_value "M") with 1000.
  pose proof (roman_symbol_value_bound c) as Hc.
  now rewrite (proj2 (Z.ltb_ge _ _) (proj2 Hc)).
Qed.

Lemma roman_value_thousands k s :
  roman_value (repeat_string "M" k +:+ s) = Z.of_nat k * 1000 + roman_value s.
Proof.
  induction k as [|k IH]; [reflexivity|].
  cbn [repeat_string]. rewrite append_assoc.
  change ("M" +:+ (repeat_string "M" k +:+ s))
    with (String "M" (repeat_string "M" k +:+ s)).
  rewrite roman_value_thousand, IH. lia.
Qed.

Lemma roman_value_below_thousand_checked :
  forallb (fun r => roman_value (below_thousand (Z.of_nat r)) =? Z.of_nat r)
    (seq 0 1000) = true.
Proof. vm_compute. reflexivity. Qed.

Lemma roman_value_below_thousand r :
  0 <= r < 1000 -> roman_value (below_thousand r) = r.
Proof.
  intros Hr. pose proof roman_value_below_thousand_checked as H.
  rewrite forallb_forall in H. specialize (H (Z.to_nat r)).
  rewrite Z2Nat.id in H by lia. apply Z.eqb_eq, H, in_seq. lia.
Qed.

Lemma roman_value_subtractive n :
  0 <= n -> roman_value (roman_by_digits n) = n.
Proof.
  intros Hn. rewrite roman_by_digits_split by assumption.
  rewrite roman_value_thousands, roman_value_below_thousand.
  - rewrite Z2Nat.id by (apply Z.div_pos; lia).
    pose proof (Z.div_mod n 1000). lia.
  - apply Z.mod_pos_bound. lia.
Qed.

(** X3.  [to_roman] returns for every integer: the index [i] never runs
    past the tables.  It returns the empty string for zero and for
    negative numbers, and for a positive number a numeral whose value,
    read by the usual rule, is that number; so different positive
    numbers never get the same numeral. *)
Theorem to_roman_total_and_faithful (n : Z) :
  exists numeral,
    to_roman n = Ret numeral
    /\ roman_value numeral = Z.max n 0
    /\ (numeral = "" <-> n <= 0)
    /\ forall m, to_roman m = Ret numeral -> Z.max m 0 = Z.max n 0.
Proof.
  assert (Hall : forall k, exists s,
             to_roman k = Ret s /\ roman_value s = Z.max k 0
             /\ (k <= 0 -> s = "")).
  { intros k. destruct (Z_le_gt_dec k 0) as [Hk|Hk].
    - exists "". rewrite to_roman_nonpositive by assumption.
      split; [reflexivity|]. split; [cbn; lia | auto].
    - exists (roman_by_digits k). rewrite to_roman_correct by lia.
      split; [reflexivity|]. split; [|lia].
      rewrite roman_value_subtractive; lia. }
  destruct (Hall n) as (s & Hs & Hv & Hempty).
  exists s. split; [exact Hs|]. split; [exact Hv|]. split.
  - split; [|exact Hempty].
    intros ->. cbn in Hv. lia.
  - intros m Hm. destruct (Hall m) as (s' & Hs' & Hv' & _).
    rewrite Hm in Hs'. injection Hs' as <-. lia.
Qed.

(** ** No two positions share an exhibit number *)

Lemma byte_char_inj a b :
  0 <= a < 256 -> 0 <= b < 256 -> byte_char a = byte_char b -> a = b.
Proof.
  intros Ha Hb H. unfold byte_char in H.
  apply (f_equal N_of_ascii) in H.
  rewrite !N_ascii_embedding in H by lia. lia.
Qed.

Ltac bytes_equal :=
  repeat match goal with
         | H : byte_char ?x = byte_char ?y |- _ =>
             apply byte_char_inj in H;
             [|Z.div_mod_to_equations; lia|Z.div_mod_to_equations; lia]
         end.

Lemma utf8_inj a b :
  0 <= a < 1114112 -> 0 <= b < 1114112 -> utf8 a = utf8 b -> a = b.
Proof.
  intros Ha Hb. unfold utf8.
  destruct (a <? 128) eqn:Ha1; destruct (b <? 128) eqn:Hb1;
    try destruct (a <? 2048) eqn:Ha2; try destruct (b <? 2048) eqn:Hb2;
    try destruct (a <? 65536) eqn:Ha3; try destruct (b <? 65536) eqn:Hb3;
    intros H; try discriminate H; injection H as H; intros;
    repeat match goal with
           | H : (_ <? _) = true |- _ => apply Z.ltb_lt in H
           | H : (_ <? _) = false |- _ => apply Z.ltb_ge in H
           end;
    bytes_equal; Z.div_mod_to_equations; lia.
Qed.

Lemma utf8_nonempty a : utf8 a <> "".
Proof.
  unfold utf8.
  destruct (a <? 128), (a <? 2048), (a <? 65536); discriminate.
Qed.

Lemma utf8_ascii a : a < 128 -> utf8 a = String (byte_char a) "".
Proof. intros Ha. unfold utf8. now rewrite (proj2 (Z.ltb_lt _ _) Ha). Qed.

Lemma letter_prefix s : "A" +:+ s = String "A" s.
Proof. reflexivity. Qed.

Lemma letters_distinct i j x :
  exhibit_number "letters" i = Ret x ->
  exhibit_number "letters" j = Ret x -> i = j.
Proof.
  unfold exhibit_number. cbn [String.eqb Ascii.eqb Bool.eqb]. cbv zeta.
  unfold chr.
  destruct (Z.of_nat i <? 26) eqn:Hi; destruct (Z.of_nat j <? 26) eqn:Hj;
    repeat match goal with
           | H : (_ <? _) = true |- _ => apply Z.ltb_lt in H
           | H : (_ <? _) = false |- _ => apply Z.ltb_ge in H
           end;
    repeat match goal with
           | |- context [(0 <=? ?a) && (?a <? ?b)] =>
               let Hr := fresh "Hr" in
               destruct ((0 <=? a) && (a <? b)) eqn:Hr;
               [apply andb_prop in Hr; destruct Hr as [?Hlo ?Hhi];
                apply Z.leb_le in Hlo; apply Z.ltb_lt in Hhi
               |]
           end;
    intros H1 H2; try discriminate H1; try discriminate H2;
    injection H1 as <-; injection H2 as H2.
  - apply utf8_inj in H2; lia.
  - exfalso. rewrite letter_prefix, (utf8_ascii (65 + Z.of_nat i)) in H2 by lia.
    injection H2 as _ H2. now apply utf8_nonempty in H2.
  - exfalso. rewrite letter_prefix, (utf8_ascii (65 + Z.of_nat j)) in H2 by lia.
    injection H2 as _ H2. symmetry in H2. now apply utf8_nonempty in H2.
  - apply utf8_inj in H2; lia.
Qed.

(** X4.  Whatever the numbering style, two different positions never get
    the same exhibit number: if positions [i] and [j] are both assigned
    the number [x], then [i = j].  (A position is assigned no number only
    under style "letters" from position 1114073 on, where [chr] raises.) *)
Theorem exhibit_numbers_distinct style i j x :
  exhibit_number style i = Ret x ->
  exhibit_number style j = Ret x ->
  i = j.
Proof.
  destruct (String.eqb_spec style "letters") as [->|Hl];
    [apply letters_distinct|].
  unfold exhibit_number. cbv zeta.
  rewrite (proj2 (String.eqb_neq _ _) Hl).
  destruct (String.eqb style "numbers").
  - intros H1 H2. injection H1 as <-. injection H2 as H2.
    pose proof (str_parses (Z.of_nat i + 1)) as Pi.
    pose proof (str_parses (Z.of_nat j + 1)) as Pj.
    rewrite <- H2, Pj in Pi by lia.
    assert (Some (Z.of_nat j + 1) = Some (Z.of_nat i + 1)) as Heq
      by (apply Pi; lia).
    injection Heq as Heq. lia.
  - rewrite !to_roman_correct by lia.
    intros H1 H2. injection H1 as <-. injection H2 as H2.
    apply (f_equal roman_value) in H2.
    rewrite !roman_value_subtractive in H2 by lia. lia.
Qed.

Lemma exhibit_numbers_distinct_witness :
  exhibit_number "letters" 27 = Ret "AB" /\ (27 = 27)%nat.
Proof.
  split; [reflexivity|].
  apply (exhibit_numbers_distinct "letters" 27 27 "AB"); reflexivity.
Defined.

(** ** Where the reported progress ends *)






(** ** Stages 5 and 6 *)

(** X6.  Right after a run has returned with at least one file in its
    working set, stage 6 shows its statistics: as many exhibits as the
    working set has paths, and the total page count of the returned
    result. *)
Theorem statistics_after_run E cfg files zip_files w res :
  out (process_func E cfg files zip_files w) = Ret res ->
  exists file_paths,
    out (extract_step E files zip_files w) = Ret file_paths
    /\ (file_paths <> [] ->
        exists shown,
          stage_6_statistics
            (session (final (process_func E cfg files zip_files w)))
          = Some shown
          /\ stat_exhibits shown = length file_paths
          /\ stat_total_pages shown = total_pages res)
    /\ (file_paths = [] ->
        stage_6_statistics
          (session (final (process_func E cfg files zip_files w))) = None).
Proof.
  intros Hret.
  destruct (returning_run _ _ _ _ _ _ Hret)
    as (file_paths & crs & v & numbered & Hex & _ & Hlen & _ & _ & _ & Hpages
        & _ & _ & _ & Hlist & _).
  exists file_paths. split; [exact Hex|].
  unfold stage_6_statistics. rewrite Hlist.
  destruct (exhibit_list v) as [|first_exhibit others] eqn:Hv.
  - split; [|reflexivity]. intros Hne. destruct file_paths; [contradiction|].
    discriminate Hlen.
  - split; [|intros ->; discriminate Hlen].
    intros _. eexists. split; [reflexivity|].
    cbn [stat_exhibits stat_total_pages]. split; [exact Hlen|].
    rewrite Hpages. reflexivity.
Qed.

Lemma statistics_after_run_witness :
  exists shown,
    stage_6_statistics
      (session (final (process_func (sample_env None)
                         (sample_config "letters" false true true)
                         three_files [] empty_world)))
    = Some shown
    /\ stat_exhibits shown = 3%nat.
Proof.
  destruct (statistics_after_run (sample_env None)
              (sample_config "letters" false true true) three_files []
              empty_world
              (default initial_result
                 (match out (process_func (sample_env None)
                               (sample_config "letters" false true true)
                               three_files [] empty_world) with
                  | Ret r => Some r
                  | Raise _ => None
                  end)))
    as (file_paths & Hex & Hshown & _).
  - vm_compute. reflexivity.
  - assert (Hfp : Ret file_paths
                  = Ret ["/tmp/run/a.pdf"; "/tmp/run/b.pdf"; "/tmp/run/c.pdf"]).
    { rewrite <- Hex. vm_compute. reflexivity. }
    injection Hfp as ->.
    destruct Hshown as (shown & Hs & Hn & _); [discriminate|].
    exists shown. split; [exact Hs | exact Hn].
Defined.

(** X7.  The transfer of stage 5 undoes what the finalize step stored:
    whatever run produced the result, the stored exhibit list becomes
    empty (the result has no key [exhibit_list]), the stored average
    reduction becomes 0 and the method "unknown" (it has no key
    [avg_reduction] or [compression_method]), while the sizes and the
    three paths are those of the result; stage 6 then shows no
    statistics. *)
Theorem transfer_empties_exhibit_list E cfg files zip_files w res paths :
  out (process_func E cfg files zip_files w) = Ret res ->
  let stored :=
    {| pipeline_keys :=
         session (final (process_func E cfg files zip_files w));
       session_output_file := session_output_file paths;
       session_cover_letter_path := session_cover_letter_path paths;
       session_filing_instructions_path :=
         session_filing_instructions_path paths |} in
  let after := transfer_result cfg (Some res) stored in
  session_exhibit_list (pipeline_keys after) = Some []
  /\ session_compression_stats (pipeline_keys after)
     = Some {| cs_original_size := original_size res;
               cs_compressed_size := compressed_size res;
               avg_reduction := 0;
               cs_method := "unknown";
               quality := quality_preset cfg |}
  /\ session_exhibits_generated (pipeline_keys after) = true
  /\ session_output_file after = output_file res
  /\ stage_6_statistics (pipeline_keys after) = None.
Proof.
  intros Hret. cbv zeta.
  destruct (returning_run _ _ _ _ _ _ Hret)
    as (file_paths & crs & v & numbered & _ & _ & _ & _ & _ & _ & _
        & _ & _ & _ & _ & Hgen & _).
  cbn. rewrite Hgen. repeat split.
Qed.

Lemma transfer_empties_exhibit_list_witness :
  let r := process_func (sample_env (Some compress_failing_on_b))
             (sample_config "letters" true true true) three_files []
             empty_world in
  exists res before,
    out r = Ret res
    /\ session_exhibit_list (session (final r)) = Some before
    /\ length before = 3%nat
    /\ session_exhibit_list
         (pipeline_keys
            (transfer_result (sample_config "letters" true true true)
               (Some res)
               {| pipeline_keys := session (final r);
                  session_output_file := None;
                  session_cover_letter_path := None;
                  session_filing_instructions_path := None |}))
       = Some [].
Proof.
  cbv zeta. eexists. eexists.
  split; [vm_compute; reflexivity|].
  split; [vm_compute; reflexivity|].
  split; [reflexivity|].
  match goal with
  | |- context [transfer_result ?c (Some ?res) ?s] =>
      exact (proj1 (transfer_empties_exhibit_list
                      (sample_env (Some compress_failing_on_b)) c
                      three_files [] empty_world res
                      {| pipeline_keys := session empty_world;
                         session_output_file := None;
                         session_cover_letter_path := None;
                         session_filing_instructions_path := None |}
                      ltac:(vm_compute; reflexivity)))
  end.
Defined.

(** ** The ZIP upload *)

Lemma cleanup_removes dir d p : under dir p = true -> cleanup dir d !! p = None.
Proof.
  intros Hp. unfold cleanup. apply map_lookup_filter_None_2. right.
  intros x _ Hf. change (under dir p = false) in Hf. congruence.
Qed.

Lemma cleanup_keeps dir d p :
  under dir p = false -> cleanup dir d !! p = d !! p.
Proof.
  intros Hp. unfold cleanup. destruct (d !! p) as [x|] eqn:Hd.
  - now apply map_lookup_filter_Some_2.
  - apply map_lookup_filter_None_2. now left.
Qed.

(** What the handler stores is a listing of the temporary directory, and
    the disk it leaves is a disk without that directory. *)
Lemma zip_upload_returns Zp zip_bytes d d' zips :
  zip_upload Zp zip_bytes d = (d', Ret zips) ->
  exists listed,
    zips = rglob_pdf Zp listed (temporary_directory Zp)
    /\ d' = cleanup (temporary_directory Zp) listed.
Proof.
  unfold zip_upload. cbv zeta.
  destruct (zip_namelist Zp zip_bytes) as [members|]; [|discriminate].
  destruct (extract_members Zp zip_bytes members _) as [listed [[]|]];
    [|discriminate].
  intros H. injection H as <- <-. eauto.
Qed.






(** * The upload page and its thumbnails *)

(** ** Thumbnails *)

Lemma thumbnail_by_fitz_jpeg F pdf_path pdf_bytes page size rotation :
  thumbnail_by_fitz F pdf_path pdf_bytes page size rotation
  = match fitz_open F pdf_path pdf_bytes with
    | Raise _ => None
    | Ret doc =>
        if page_count doc =? 0 then Some None
        else match render_jpeg doc (Z.min page (page_count doc - 1))
                     rotation size with
             | Ret img => Some (Some (b64encode img))
             | Raise _ => None
             end
    end.
Proof. reflexivity. Qed.

Lemma thumbnail_by_pdf2image_jpeg P pdf_path pdf_bytes page size rotation :
  thumbnail_by_pdf2image P pdf_path pdf_bytes page size rotation
  = b64encode <$> pdf2image_jpeg P pdf_path pdf_bytes page size rotation.
Proof.
  unfold thumbnail_by_pdf2image, pdf2image_jpeg, convert_page. cbv zeta.
  destruct (match given_path pdf_path with
            | Some p => convert_from_path P p (page + 1) size
            | None => convert_from_bytes P (default [] pdf_bytes) (page + 1)
                        size
            end) as [[|img images]|]; try reflexivity.
  assert (Hturn : (if negb (rotation =? 0) && negb (rotation mod 360 =? 0)
                   then match rotate_image P img (- rotation) with
                        | Ret rotated => rotated
                        | Raise _ => img
                        end
                   else img)
                  = (if rotation mod 360 =? 0 then img
                     else match rotate_image P img (- rotation) with
                          | Ret rotated => rotated
                          | Raise _ => img
                          end)).
  { destruct (Z.eqb_spec rotation 0) as [->|Hr]; [reflexivity|].
    cbn [negb andb]. now destruct (rotation mod 360 =? 0). }
  rewrite Hturn. now destruct (save_jpeg P _).
Qed.

(** X9.  [generate_thumbnail] gives no thumbnail when it is given
    neither a path nor bytes (an empty path and empty bytes count as
    none).  Otherwise PyMuPDF comes first, reading the path when one is
    given and the bytes if not: when it renders the page asked for (the
    last page when the document is shorter), the thumbnail is the base64
    text of its JPEG bytes, whatever pdf2image would do; and when it
    opens a document without pages there is no thumbnail, pdf2image not
    being tried.  When PyMuPDF is missing or raised, the thumbnail is the
    base64 text of the JPEG bytes that pdf2image saves, and there is
    none if pdf2image is missing as well, raises or converts no image.
    So a thumbnail is always the base64 text of bytes that one of the
    two libraries produced from the input. *)
Theorem generate_thumbnail_sources R pdf_path pdf_bytes page size rotation :
  let thumbnail :=
    generate_thumbnail R pdf_path pdf_bytes page size rotation in
  (given_path pdf_path = None -> given_bytes pdf_bytes = None ->
   thumbnail = None)
  /\ (forall F doc,
        ~ (given_path pdf_path = None /\ given_bytes pdf_bytes = None) ->
        fitz R = Some F -> fitz_open F pdf_path pdf_bytes = Ret doc ->
        (page_count doc = 0 -> thumbnail = None)
        /\ forall img,
             page_count doc <> 0 ->
             render_jpeg doc (Z.min page (page_count doc - 1)) rotation size
             = Ret img ->
             thumbnail = Some (b64encode img))
  /\ (~ (given_path pdf_path = None /\ given_bytes pdf_bytes = None) ->
      fitz_failed R pdf_path pdf_bytes page size rotation ->
      thumbnail
      = match pdf_to_image R with
        | Some P =>
            b64encode
              <$> pdf2image_jpeg P pdf_path pdf_bytes page size rotation
        | None => None
        end)
  /\ (forall t,
        thumbnail = Some t ->
        (exists F img,
           fitz R = Some F
           /\ fitz_jpeg F pdf_path pdf_bytes page size rotation = Some img
           /\ t = b64encode img)
        \/ (exists P jpeg,
              pdf_to_image R = Some P
              /\ fitz_failed R pdf_path pdf_bytes page size rotation
              /\ pdf2image_jpeg P pdf_path pdf_bytes page size rotation
                 = Some jpeg
              /\ t = b64encode jpeg)).
Proof.
  cbv zeta.
  assert (Hgiven : ~ (given_path pdf_path = None
                      /\ given_bytes pdf_bytes = None) ->
            generate_thumbnail R pdf_path pdf_bytes page size rotation
            = match
                match fitz R with
                | Some F =>
                    thumbnail_by_fitz F pdf_path pdf_bytes page size rotation
                | None => None
                end
              with
              | Some r => r
              | None =>
                  match pdf_to_image R with
                  | Some P =>
                      thumbnail_by_pdf2image P pdf_path pdf_bytes page size
                        rotation
                  | None => None
                  end
              end).
  { intros Hg. unfold generate_thumbnail.
    destruct (given_path pdf_path), (given_bytes pdf_bytes);
      try reflexivity.
    destruct Hg. auto. }
  split; [|split; [|split]].
  - intros Hp Hb. unfold generate_thumbnail. now rewrite Hp, Hb.
  - intros F doc Hg HF Hopen. rewrite (Hgiven Hg), HF.
    rewrite thumbnail_by_fitz_jpeg, Hopen. split.
    + intros ->. reflexivity.
    + intros img Hcount Himg.
      rewrite (proj2 (Z.eqb_neq _ _) Hcount), Himg. reflexivity.
  - intros Hg Hfailed. rewrite (Hgiven Hg). unfold fitz_failed in Hfailed.
    destruct (fitz R) as [F|].
    + rewrite thumbnail_by_fitz_jpeg.
      destruct (fitz_open F pdf_path pdf_bytes) as [doc|].
      * destruct Hfailed as [Hcount Hrender].
        rewrite (proj2 (Z.eqb_neq _ _) Hcount).
        destruct (render_jpeg doc _ _ _); [discriminate|].
        destruct (pdf_to_image R) as [P|]; [|reflexivity].
        apply thumbnail_by_pdf2image_jpeg.
      * destruct (pdf_to_image R) as [P|]; [|reflexivity].
        apply thumbnail_by_pdf2image_jpeg.
    + destruct (pdf_to_image R) as [P|]; [|reflexivity].
      apply thumbnail_by_pdf2image_jpeg.
  - intros t Ht.
    assert (Hg : ~ (given_path pdf_path = None
                    /\ given_bytes pdf_bytes = None)).
    { intros [Hp Hb]. unfold generate_thumbnail in Ht.
      rewrite Hp, Hb in Ht. discriminate. }
    rewrite (Hgiven Hg) in Ht.
    assert (Hsecond :
              match pdf_to_image R with
              | Some P =>
                  thumbnail_by_pdf2image P pdf_path pdf_bytes page size
                    rotation
              | None => None
              end = Some t ->
              exists P jpeg,
                pdf_to_image R = Some P
                /\ pdf2image_jpeg P pdf_path pdf_bytes page size rotation
                   = Some jpeg
                /\ t = b64encode jpeg).
    { destruct (pdf_to_image R) as [P|]; [|discriminate].
      rewrite thumbnail_by_pdf2image_jpeg.
      destruct (pdf2image_jpeg P _ _ _ _ _) as [jpeg|] eqn:Hj;
        [|discriminate].
      intros H. injection H as <-. exists P, jpeg. auto. }
    unfold fitz_failed.
    destruct (fitz R) as [F|].
    + rewrite thumbnail_by_fitz_jpeg in Ht.
      destruct (fitz_open F pdf_path pdf_bytes) as [doc|] eqn:Hopen.
      * destruct (Z.eqb_spec (page_count doc) 0) as [Hz|Hnz];
          [discriminate|].
        destruct (render_jpeg doc _ _ _) as [img|] eqn:Hrender.
        -- injection Ht as <-. left. exists F, img.
           split; [reflexivity|]. split; [|reflexivity].
           unfold fitz_jpeg.
           now rewrite Hopen, (proj2 (Z.eqb_neq _ _) Hnz), Hrender.
        -- right. destruct (Hsecond Ht) as (P & jpeg & HP & Hj & Ht').
           exists P, jpeg. auto.
      * right. destruct (Hsecond Ht) as (P & jpeg & HP & Hj & Ht').
        exists P, jpeg. auto.
    + right. destruct (Hsecond Ht) as (P & jpeg & HP & Hj & Ht').
      exists P, jpeg. auto.
Qed.

Lemma generate_thumbnail_sources_witness :
  generate_thumbnail echo_renderers None (Some [Byte.x01; Byte.x02]) 5
    (150, 200) 90
  = Some (b64encode [Byte.x01; Byte.x02])
  /\ generate_thumbnail no_renderers None (Some [Byte.x01; Byte.x02]) 5
       (150, 200) 90
     = None.
Proof.
  split.
  - apply (proj2 (proj1 (proj2 (generate_thumbnail_sources echo_renderers
                                  None (Some [Byte.x01; Byte.x02]) 5
                                  (150, 200) 90))
                   {| open_path := fun _ => Raise "FileNotFoundError";
                      open_stream := fun b =>
                        Ret {| page_count := 1;
                               render_jpeg := fun _ _ _ => Ret b |} |}
                   {| page_count := 1;
                      render_jpeg := fun _ _ _ =>
                        Ret [Byte.x01; Byte.x02] |}
                   ltac:(intros [_ H]; discriminate H) eq_refl eq_refl)).
    + cbn. lia.
    + reflexivity.
  - apply (proj1 (proj2 (proj2 (generate_thumbnail_sources no_renderers
                                  None (Some [Byte.x01; Byte.x02]) 5
                                  (150, 200) 90)))).
    + intros [_ H]. discriminate H.
    + exact I.
Defined.

(** The first three bytes of the data decide the first four characters
    of its base64 text. *)
Lemma b64encode_head a b c rest :
  b64encode (a :: b :: c :: rest)
  = b64encode [a; b; c] +:+ b64encode rest.
Proof. reflexivity. Qed.

Lemma prefix_append (p s : string) : String.prefix p (p +:+ s) = true.
Proof.
  induction p as [|c p IH]; [now destruct s|].
  rewrite append_cons. cbn [String.prefix].
  destruct (ascii_dec c c) as [_|Hne]; [exact IH | contradiction].
Qed.

Lemma placeholder_head :
  exists rest, get_placeholder_thumbnail = "CiAg" +:+ rest.
Proof.
  unfold get_placeholder_thumbnail, encode, placeholder_svg, nl.
  eexists.
  match goal with
  | |- b64encode (list_byte_of_string ?s) = _ =>
      let s' := eval vm_compute in (list_byte_of_string s) in
      change (list_byte_of_string s) with s'
  end.
  rewrite b64encode_head. reflexivity.
Qed.

(** X10.  The card of an exhibit that has no thumbnail and for which
    none can be generated shows the placeholder, an SVG, under the label
    [image/jpeg]: the grid takes a thumbnail for an SVG when its base64
    text starts with [PHN2], which is so for any text that starts with
    [<svg], but the placeholder's text starts with a line break. *)
Theorem placeholder_is_labelled_jpeg R ex :
  match grid_thumbnail ex with Some t => t = "" | None => True end ->
  generate_thumbnail R (grid_path ex) (grid_content ex) 0 (150, 200) 0
    = None ->
  card_image_source (ensure_thumbnail R ex)
    = "data:image/jpeg;base64," +:+ get_placeholder_thumbnail
  /\ forall rest,
       card_image_source (b64encode (encode ("<svg" +:+ rest)))
       = "data:image/svg+xml;base64,"
           +:+ b64encode (encode ("<svg" +:+ rest)).
Proof.
  intros Hmissing Hnone. split.
  - assert (Hens : ensure_thumbnail R ex = get_placeholder_thumbnail).
    { unfold ensure_thumbnail. rewrite Hnone.
      destruct (grid_thumbnail ex) as [[|c t]|]; try reflexivity.
      discriminate Hmissing. }
    rewrite Hens. unfold card_image_source.
    destruct placeholder_head as [rest ->]. reflexivity.
  - intros rest. unfold card_image_source.
    change (encode ("<svg" +:+ rest))
      with (Byte.x3c :: Byte.x73 :: Byte.x76 :: encode ("g" +:+ rest)).
    rewrite b64encode_head.
    change (b64encode [Byte.x3c; Byte.x73; Byte.x76]) with "PHN2".
    now rewrite prefix_append.
Qed.

Lemma placeholder_is_labelled_jpeg_witness :
  card_image_source
    (ensure_thumbnail {| fitz := None; pdf_to_image := None |}
       {| grid_thumbnail := None; grid_path := None; grid_content := None |})
  = "data:image/jpeg;base64," +:+ get_placeholder_thumbnail.
Proof.
  exact (proj1 (placeholder_is_labelled_jpeg
                  {| fitz := None; pdf_to_image := None |}
                  {| grid_thumbnail := None; grid_path := None;
                     grid_content := None |} I eq_refl)).
Defined.

(** ** Deleting an uploaded file *)

Lemma session_get_insert key v s : session_get key (<[key := v]> s) = v.
Proof. unfold session_get. now rewrite lookup_insert_eq. Qed.

Lemma session_get_insert_ne key key' v s :
  key' <> key -> session_get key (<[key' := v]> s) = session_get key s.
Proof. intros H. unfold session_get. now rewrite lookup_insert_ne. Qed.

Lemma adjust_preview_other idx s k :
  k <> "preview_file_index" -> adjust_preview idx s !! k = s !! k.
Proof.
  intros Hk. unfold adjust_preview.
  destruct (session_get "preview_file_index" s) as [|b|z| | | | | |];
    cbn [as_int]; try reflexivity;
    repeat match goal with
           | |- context [if ?c then _ else _] => destruct c
           end;
    try reflexivity; now rewrite lookup_insert_ne.
Qed.

Lemma adjust_selected_other idx s k :
  k <> "selected_upload_index" -> adjust_selected idx s !! k = s !! k.
Proof.
  intros Hk. unfold adjust_selected.
  destruct (as_int _) as [sel|]; [|reflexivity].
  repeat match goal with
         | |- context [if ?c then _ else _] => destruct c
         end;
    try reflexivity; now rewrite lookup_insert_ne.
Qed.

Lemma adjust_preview_value idx s p :
  as_int (session_get "preview_file_index" s) = Some p ->
  session_get "preview_file_index" (adjust_preview idx s)
  = if p =? idx then PyNone
    else if idx <? p then PyInt (p - 1)
         else session_get "preview_file_index" s.
Proof.
  intros Hp. unfold adjust_preview.
  destruct (session_get "preview_file_index" s) as [|b|z| | | | | |] eqn:Hg;
    try discriminate Hp; rewrite Hp;
    destruct (p =? idx); [apply session_get_insert| |apply session_get_insert|];
    (destruct (idx <? p); [apply session_get_insert | exact Hg]).
Qed.

Lemma adjust_selected_value idx s sel :
  as_int (session_get "selected_upload_index" s) = Some sel ->
  session_get "selected_upload_index" (adjust_selected idx s)
  = if sel =? idx then PyNone
    else if idx <? sel then PyInt (Z.max 0 (sel - 1))
         else session_get "selected_upload_index" s.
Proof.
  intros Hs. unfold adjust_selected. rewrite Hs.
  destruct (sel =? idx); [apply session_get_insert|].
  destruct (idx <? sel); [apply session_get_insert | reflexivity].
Qed.

Lemma in_range_spec {A} idx (l : list A) :
  in_range idx l = true <-> 0 <= idx /\ (Z.to_nat idx < length l)%nat.
Proof.
  unfold in_range. rewrite andb_true_iff, Z.leb_le, Z.ltb_lt. lia.
Qed.

(** What is left of the list once position [n] is deleted: the other
    elements, in their order. *)
Lemma delete_keeps_others {A} (l : list A) n j x :
  l !! j = Some x -> j <> n ->
  delete n l !! (if (j <? n)%nat then j else (j - 1)%nat) = Some x.
Proof.
  intros Hj Hne. destruct (j <? n)%nat eqn:Hlt.
  - apply Nat.ltb_lt in Hlt. now rewrite list_lookup_delete_lt.
  - apply Nat.ltb_ge in Hlt. rewrite list_lookup_delete_ge by lia.
    now replace (S (j - 1)) with j by lia.
Qed.

Lemma follows_after_delete files idx before now :
  0 <= idx ->
  (forall p, as_int before = Some p ->
     now = if p =? idx then PyNone
           else if idx <? p then PyInt (p - 1) else before) ->
  follows_file files (delete (Z.to_nat idx) files) idx before now.
Proof.
  intros Hidx Hnow p Hp Hp0. rewrite (Hnow p Hp).
  destruct (p =? idx) eqn:He; [reflexivity|]. apply Z.eqb_neq in He.
  destruct (idx <? p) eqn:Hlt.
  - apply Z.ltb_lt in Hlt. exists (p - 1). cbn [as_int].
    split; [reflexivity|]. split; [lia|].
    rewrite list_lookup_delete_ge by lia. f_equal. lia.
  - apply Z.ltb_ge in Hlt. exists p. split; [exact Hp|]. split; [lia|].
    apply list_lookup_delete_lt. lia.
Qed.

Lemma in_range_negative {A} idx (l : list A) :
  idx < 0 -> in_range idx l = false.
Proof.
  intros Hneg. unfold in_range.
  replace (0 <=? idx) with false by (symmetry; lia). reflexivity.
Qed.

Ltac not_listed Hkey :=
  let H := fresh in
  intros H; apply Hkey; subst;
  repeat (first [left; reflexivity | right]).

(** X11.  [delete_file] does nothing for an index outside the list of
    uploaded files.  For an index inside, it removes that file and its
    metadata, keeps the other files in their order, keeps every other
    key of the session, and moves the preview and selection indices so
    that each still points at the file it pointed at; an index that
    pointed at the deleted file is reset to [None]. *)
Theorem delete_file_keeps_indices_on_files idx s files metas :
  s !! "uploaded_files" = Some (PyFiles files) ->
  s !! "uploaded_meta" = Some (PyMetas metas) ->
  let r := delete_file idx s in
  let files' := delete (Z.to_nat idx) files in
  (in_range idx files = false -> r = returned s)
  /\ (in_range idx files = true ->
      raised r = None
      /\ after r !! "uploaded_files" = Some (PyFiles files')
      /\ after r !! "uploaded_meta"
         = Some (PyMetas (if in_range idx metas
                          then delete (Z.to_nat idx) metas else metas))
      /\ (forall j f, files !! j = Some f -> j <> Z.to_nat idx ->
            files' !! (if (j <? Z.to_nat idx)%nat then j else (j - 1)%nat)
            = Some f)
      /\ follows_file files files' idx
           (session_get "preview_file_index" s)
           (session_get "preview_file_index" (after r))
      /\ follows_file files files' idx
           (session_get "selected_upload_index" s)
           (session_get "selected_upload_index" (after r))
      /\ (forall key,
            ~ In key ["uploaded_files"; "uploaded_meta";
                      "preview_file_index"; "selected_upload_index"] ->
            after r !! key = s !! key)).
Proof.
  intros Hfiles Hmetas. cbv zeta. unfold delete_file.
  destruct (idx <? 0) eqn:Hneg.
  { rewrite (in_range_negative idx files) by now apply Z.ltb_lt.
    split; [reflexivity | discriminate]. }
  rewrite Hfiles, Hmetas. cbn [from_option id]. cbv zeta.
  destruct (in_range idx files) eqn:Hin; (split; [|]); try discriminate;
    try (intros _; reflexivity).
  intros _. cbn [after raised rerun].
  pose proof (proj1 (in_range_spec idx files) Hin) as [Hidx Hlt].
  match goal with
  | |- context [adjust_preview idx ?x] => set (s1 := x)
  end.
  split; [reflexivity|].
  split.
  { rewrite adjust_selected_other, adjust_preview_other by discriminate.
    unfold s1. rewrite lookup_insert_ne by discriminate.
    apply lookup_insert_eq. }
  split.
  { rewrite adjust_selected_other, adjust_preview_other by discriminate.
    unfold s1. apply lookup_insert_eq. }
  split; [intros j f; apply delete_keeps_others|].
  assert (Hprev : session_get "preview_file_index" s1
                  = session_get "preview_file_index" s).
  { unfold s1. now rewrite !session_get_insert_ne by discriminate. }
  assert (Hsel : session_get "selected_upload_index" s1
                 = session_get "selected_upload_index" s).
  { unfold s1. now rewrite !session_get_insert_ne by discriminate. }
  split; [|split].
  - apply follows_after_delete; [exact Hidx|]. intros p Hp.
    unfold session_get at 1.
    rewrite adjust_selected_other by discriminate.
    fold (session_get "preview_file_index" (adjust_preview idx s1)).
    rewrite <- Hprev in Hp. rewrite (adjust_preview_value idx s1 p Hp).
    now rewrite Hprev.
  - intros p Hp Hp0.
    assert (Hs1 : as_int (session_get "selected_upload_index"
                            (adjust_preview idx s1)) = Some p).
    { unfold session_get. rewrite adjust_preview_other by discriminate.
      fold (session_get "selected_upload_index" s1). now rewrite Hsel. }
    rewrite (adjust_selected_value idx _ p Hs1).
    destruct (p =? idx) eqn:He; [reflexivity|]. apply Z.eqb_neq in He.
    destruct (idx <? p) eqn:Hlt'.
    + apply Z.ltb_lt in Hlt'. exists (p - 1).
      rewrite Z.max_r by lia. cbn [as_int].
      split; [reflexivity|]. split; [lia|].
      rewrite list_lookup_delete_ge by lia. f_equal. lia.
    + apply Z.ltb_ge in Hlt'. exists p. split; [exact Hs1|]. split; [lia|].
      apply list_lookup_delete_lt. lia.
  - intros key Hkey. cbn [In] in Hkey.
    rewrite adjust_selected_other, adjust_preview_other by not_listed Hkey.
    unfold s1. rewrite !lookup_insert_ne by not_listed Hkey. reflexivity.
Qed.

Lemma delete_file_keeps_indices_on_files_witness :
  let s : gmap string pyval :=
    <["uploaded_files" := PyFiles three_files]>
      (<["uploaded_meta" := PyMetas []]>
         (<["preview_file_index" := PyInt 2]> ∅)) in
  after (delete_file 0 s) !! "uploaded_files"
  = Some (PyFiles (delete 0%nat three_files)).
Proof.
  cbv zeta.
  destruct (delete_file_keeps_indices_on_files 0
              (<["uploaded_files" := PyFiles three_files]>
                 (<["uploaded_meta" := PyMetas []]>
                    (<["preview_file_index" := PyInt 2]> ∅)))
              three_files []) as [_ Hin].
  - vm_compute. reflexivity.
  - vm_compute. reflexivity.
  - destruct (Hin eq_refl) as (_ & Hfiles & _). exact Hfiles.
Defined.

(** ** Duplicating an uploaded file *)

Lemma clear_dynamic_keys_lookup s k :
  clear_dynamic_keys s !! k = if is_dynamic_key k then None else s !! k.
Proof.
  unfold clear_dynamic_keys. destruct (is_dynamic_key k) eqn:Hk.
  - apply map_lookup_filter_None_2. right. intros x _ H.
    change (is_dynamic_key k = false) in H. congruence.
  - destruct (s !! k) as [x|] eqn:Hs.
    + now apply map_lookup_filter_Some_2.
    + apply map_lookup_filter_None_2. now left.
Qed.

Lemma copy_meta_keeps R idx src metas m :
  metas !! Z.to_nat idx = Some m -> 0 <= idx ->
  rotation (copy_meta R idx src metas) = rotation m
  /\ meta_pages (copy_meta R idx src metas) = meta_pages m.
Proof.
  intros Hm Hidx. unfold copy_meta. rewrite Hm.
  assert (Hr : in_range idx metas = true).
  { apply in_range_spec. split; [exact Hidx|]. now apply lookup_lt_Some in Hm. }
  rewrite Hr. cbv zeta. cbn [set_meta_name rotation meta_pages].
  destruct (generate_thumbnail _ _ _ _ _ _) as [[|c t]|]; split; reflexivity.
Qed.

(** X12.  [duplicate_file] does nothing for an index outside the list of
    uploaded files.  For an index inside, it puts a copy with the same
    name and bytes right after the original, and the copy of its
    metadata (same rotation and page count) at the same place; it
    selects the copy; and it removes every key that starts with one of
    the dynamic prefixes, among them [preview_file_index], which it has
    just set to the copy: after [duplicate_file] no file is previewed.
    Every other key is left as it was. *)
Theorem duplicate_file_inserts_copy R idx s files metas :
  s !! "uploaded_files" = Some (PyFiles files) ->
  s !! "uploaded_meta" = Some (PyMetas metas) ->
  let r := duplicate_file R idx s in
  (in_range idx files = false -> r = returned s)
  /\ (forall src,
        in_range idx files = true -> files !! Z.to_nat idx = Some src ->
        let at_copy := S (Z.to_nat idx) in
        raised r = None
        /\ after r !! "uploaded_files"
           = Some (PyFiles (take at_copy files ++ src :: drop at_copy files))
        /\ (exists copy,
              after r !! "uploaded_meta"
              = Some (PyMetas (take at_copy metas ++ copy
                                 :: drop at_copy metas))
              /\ forall m, metas !! Z.to_nat idx = Some m ->
                   rotation copy = rotation m
                   /\ meta_pages copy = meta_pages m)
        /\ after r !! "selected_upload_index" = Some (PyInt (idx + 1))
        /\ after r !! "preview_file_index" = None
        /\ (forall key, is_dynamic_key key = true -> after r !! key = None)
        /\ (forall key,
              is_dynamic_key key = false ->
              ~ In key ["uploaded_files"; "uploaded_meta";
                        "selected_upload_index"] ->
              after r !! key = s !! key)).
Proof.
  intros Hfiles Hmetas. cbv zeta. unfold duplicate_file.
  rewrite Hfiles, Hmetas. cbn [files_or_empty metas_or_empty]. split.
  - intros Hout. destruct (files !! Z.to_nat idx); [|reflexivity].
    now rewrite Hout.
  - intros src Hin Hsrc. rewrite Hsrc, Hin. cbv zeta. cbn [after raised rerun].
    pose proof (proj1 (in_range_spec idx files) Hin) as [Hidx Hlt].
    replace (Z.to_nat (idx + 1)) with (S (Z.to_nat idx)) by lia.
    split; [reflexivity|].
    split.
    { rewrite clear_dynamic_keys_lookup.
      change (is_dynamic_key "uploaded_files") with false. cbv iota.
      rewrite !lookup_insert_ne by discriminate.
      rewrite lookup_insert_eq. unfold list_insert_at. now destruct src. }
    split.
    { exists (copy_meta R idx src metas). split.
      - rewrite clear_dynamic_keys_lookup.
        change (is_dynamic_key "uploaded_meta") with false. cbv iota.
        rewrite !lookup_insert_ne by discriminate.
        now rewrite lookup_insert_eq.
      - intros m Hm. now apply copy_meta_keeps. }
    split.
    { rewrite clear_dynamic_keys_lookup.
      change (is_dynamic_key "selected_upload_index") with false. cbv iota.
      rewrite !lookup_insert_ne by discriminate.
      now rewrite lookup_insert_eq. }
    split.
    { rewrite clear_dynamic_keys_lookup. reflexivity. }
    split.
    { intros key Hkey. now rewrite clear_dynamic_keys_lookup, Hkey. }
    intros key Hdyn Hkey. cbn [In] in Hkey.
    rewrite clear_dynamic_keys_lookup, Hdyn.
    assert (Hp : key <> "preview_file_index").
    { intros ->. discriminate Hdyn. }
    rewrite lookup_insert_ne by congruence.
    rewrite !lookup_insert_ne by not_listed Hkey. reflexivity.
Qed.

Lemma duplicate_file_inserts_copy_witness :
  let s : gmap string pyval :=
    <["uploaded_files" := PyFiles three_files]>
      (<["uploaded_meta" := PyMetas []]>
         (<["preview_file_index" := PyInt 2]> ∅)) in
  after (duplicate_file {| fitz := None; pdf_to_image := None |} 1 s)
    !! "preview_file_index" = None.
Proof.
  cbv zeta.
  destruct (duplicate_file_inserts_copy
              {| fitz := None; pdf_to_image := None |} 1
              (<["uploaded_files" := PyFiles three_files]>
                 (<["uploaded_meta" := PyMetas []]>
                    (<["preview_file_index" := PyInt 2]> ∅)))
              three_files []) as [_ Hin].
  - vm_compute. reflexivity.
  - vm_compute. reflexivity.
  - destruct (Hin {| name := "b.pdf"; read := [Byte.x02; Byte.x02] |}
                eq_refl eq_refl) as (_ & _ & _ & _ & Hpreview & _).
    exact Hpreview.
Defined.

(** ** Rotating an uploaded file *)

Lemma rotate_file_step R idx s metas m :
  s !! "uploaded_meta" = Some (PyMetas metas) ->
  metas !! Z.to_nat idx = Some m -> 0 <= idx ->
  let r := rotate_file R idx s in
  raised r = None
  /\ exists m',
       after r = <["uploaded_meta" :=
                     PyMetas (<[Z.to_nat idx := m']> metas)]> s
       /\ rotation m' = (rotation m + 90) mod 360
       /\ meta_name m' = meta_name m /\ meta_pages m' = meta_pages m.
Proof.
  intros Hmetas Hm Hidx. cbv zeta. unfold rotate_file.
  replace (idx <? 0) with false by (symmetry; lia).
  rewrite Hmetas, Hm.
  assert (Hr : in_range idx metas = true).
  { apply in_range_spec. split; [exact Hidx|]. now apply lookup_lt_Some in Hm. }
  rewrite Hr. cbv zeta.
  destruct (default (PyFiles []) (s !! "uploaded_files"))
    as [| | | |files| | | |];
    try (split; [reflexivity|]; eexists; split; [reflexivity|];
         repeat split).
  destruct (files !! Z.to_nat idx) as [f|];
    [|split; [reflexivity|]; eexists; split; [reflexivity|]; repeat split].
  destruct (in_range idx files);
    [|split; [reflexivity|]; eexists; split; [reflexivity|]; repeat split].
  destruct (generate_thumbnail _ _ _ _ _ _) as [[|c t]|];
    (split; [reflexivity|]; eexists; split; [reflexivity|]; repeat split).
Qed.

(** X13.  [rotate_file] does nothing for a negative index, whatever the
    session holds: [uploaded_meta] is not even read.  For an index that
    is not negative it raises AttributeError when the session has no
    [uploaded_meta], and does nothing for an index past the end of that
    list.  For an index inside, each call turns the file's rotation by
    90 degrees and brings it into the range 0 to 359; it changes no other
    file's metadata, no name or page count, and no other key of the
    session.  Four calls bring a rotation between 0 and 359 back to what
    it was. *)
Theorem rotate_file_quarter_turns R idx s :
  (idx < 0 -> rotate_file R idx s = returned s)
  /\ (0 <= idx -> s !! "uploaded_meta" = None ->
      rotate_file R idx s = raising "AttributeError" s)
  /\ (forall metas,
        s !! "uploaded_meta" = Some (PyMetas metas) ->
        in_range idx metas = false -> rotate_file R idx s = returned s)
  /\ (forall metas m k,
        s !! "uploaded_meta" = Some (PyMetas metas) ->
        metas !! Z.to_nat idx = Some m -> 0 <= idx ->
        exists m',
          rotate_times R idx k s
          = (if k is O then s
             else <["uploaded_meta" :=
                      PyMetas (<[Z.to_nat idx := m']> metas)]> s)
          /\ (k <> O -> 0 <= rotation m' < 360)
          /\ (k <> O ->
              rotation m' = (rotation m + 90 * Z.of_nat k) mod 360)
          /\ (k <> O ->
              meta_name m' = meta_name m /\ meta_pages m' = meta_pages m)
          /\ (k = 4%nat -> 0 <= rotation m < 360 ->
              rotation m' = rotation m)).
Proof.
  split; [|split; [|split]].
  - intros Hneg. unfold rotate_file.
    now replace (idx <? 0) with true by (symmetry; lia).
  - intros Hidx Hnone. unfold rotate_file.
    replace (idx <? 0) with false by (symmetry; lia). now rewrite Hnone.
  - intros metas Hmetas Hout. unfold rotate_file.
    destruct (idx <? 0); [reflexivity|]. rewrite Hmetas, Hout.
    now destruct (metas !! Z.to_nat idx).
  - intros metas m k Hmetas Hm Hidx.
    assert (Hturn : forall k s metas m,
               s !! "uploaded_meta" = Some (PyMetas metas) ->
               metas !! Z.to_nat idx = Some m ->
               exists m',
                 rotate_times R idx (S k) s
                 = <["uploaded_meta" :=
                       PyMetas (<[Z.to_nat idx := m']> metas)]> s
                 /\ rotation m'
                    = (rotation m + 90 * Z.of_nat (S k)) mod 360
                 /\ meta_name m' = meta_name m
                 /\ meta_pages m' = meta_pages m).
    { clear s metas m k Hmetas Hm.
      induction k as [|k IH]; intros s metas m Hmetas Hm.
      - destruct (rotate_file_step R idx s metas m Hmetas Hm Hidx)
          as (_ & m' & Hafter & Hrot & Hname & Hpages).
        cbv zeta in Hafter. exists m'. cbn [rotate_times].
        split; [exact Hafter|]. split; [|auto].
        rewrite Hrot. f_equal.
      - destruct (rotate_file_step R idx s metas m Hmetas Hm Hidx)
          as (_ & m1 & Hafter & Hrot & Hname & Hpages).
        cbv zeta in Hafter.
        change (rotate_times R idx (S (S k)) s)
          with (rotate_times R idx (S k) (after (rotate_file R idx s))).
        rewrite Hafter.
        destruct (IH (<["uploaded_meta" :=
                          PyMetas (<[Z.to_nat idx := m1]> metas)]> s)
                    (<[Z.to_nat idx := m1]> metas) m1) as
          (m' & Hk & Hrot' & Hname' & Hpages').
        + apply lookup_insert_eq.
        + apply list_lookup_insert_eq. now apply lookup_lt_Some in Hm.
        + exists m'. rewrite Hk, insert_insert_eq, list_insert_insert_eq.
          split; [reflexivity|]. split; [|split; congruence].
          rewrite Hrot', Hrot, Zplus_mod_idemp_l. f_equal. lia. }
    destruct k as [|k].
    + exists m. split; [reflexivity|]. repeat split; try congruence; lia.
    + destruct (Hturn k s metas m Hmetas Hm)
        as (m' & Hk & Hrot & Hname & Hpages).
      exists m'. split; [exact Hk|].
      split; [intros _; rewrite Hrot; apply Z.mod_pos_bound; lia|].
      split; [intros _; exact Hrot|]. split; [auto|].
      intros Hfour Hrange. injection Hfour as ->. rewrite Hrot.
      replace (rotation m + 90 * Z.of_nat 4) with (rotation m + 1 * 360)
        by lia.
      rewrite Z_mod_plus_full. now apply Z.mod_small.
Qed.

Lemma rotate_file_quarter_turns_witness :
  rotate_file no_renderers (-1) ∅ = returned ∅
  /\ rotate_file no_renderers 0 ∅ = raising "AttributeError" ∅
  /\ exists m',
       rotate_times no_renderers 0 4 turned_session
       = <["uploaded_meta" :=
             PyMetas (<[0%nat := m']> (turned_meta <$> three_files))]>
           turned_session
       /\ rotation m' = 90.
Proof.
  split; [|split].
  - apply (proj1 (rotate_file_quarter_turns no_renderers (-1) ∅)). lia.
  - apply (proj1 (proj2 (rotate_file_quarter_turns no_renderers 0 ∅)));
      [lia | reflexivity].
  - destruct (proj2 (proj2 (proj2 (rotate_file_quarter_turns no_renderers 0
                                     turned_session)))
                (turned_meta <$> three_files)
                {| meta_name := "a.pdf"; rotation := 90; meta_pages := None;
                   thumb := None |} 4%nat)
      as (m' & Hrun & _ & _ & _ & Hback).
    + reflexivity.
    + reflexivity.
    + lia.
    + exists m'. split; [exact Hrun|]. apply Hback; [reflexivity|].
      cbn [rotation]. lia.
Defined.

(** ** Commands from the page *)

Lemma split_on_length sep s :
  length (split_on sep s) = S (count_char sep s).
Proof.
  induction s as [|c s IH]; [reflexivity|].
  cbn [split_on count_char]. cbv zeta.
  destruct (Ascii.eqb c sep); cbn [length Nat.add].
  - now rewrite IH.
  - destruct (split_on sep s) as [|p rest]; [discriminate IH|].
    exact IH.
Qed.

Lemma delete_file_keeps_command idx s :
  after (delete_file idx s) !! "action_command" = s !! "action_command".
Proof.
  unfold delete_file. destruct (idx <? 0); [reflexivity|].
  destruct (default (PyFiles []) (s !! "uploaded_files"))
    as [| | | |files| | | |]; try reflexivity.
  destruct (in_range idx files); [|reflexivity]. cbv zeta.
  destruct (default (PyMetas []) (s !! "uploaded_meta"))
    as [| | | | |metas| | |]; cbn [after raising rerun];
    try (now rewrite lookup_insert_ne by discriminate).
  rewrite adjust_selected_other, adjust_preview_other by discriminate.
  now rewrite !lookup_insert_ne by discriminate.
Qed.

Lemma rotate_file_keeps_command R idx s :
  after (rotate_file R idx s) !! "action_command" = s !! "action_command".
Proof.
  unfold rotate_file. destruct (idx <? 0); [reflexivity|].
  destruct (s !! "uploaded_meta") as [[| | | | |metas| | |]|];
    try reflexivity.
  destruct (metas !! Z.to_nat idx) as [m|]; [|reflexivity].
  destruct (in_range idx metas); [|reflexivity]. cbv zeta.
  destruct (default (PyFiles []) (s !! "uploaded_files"))
    as [| | | |files| | | |]; cbn [after returned];
    try (now rewrite lookup_insert_ne by discriminate).
  destruct (files !! Z.to_nat idx) as [f|]; cbn [after returned];
    [|now rewrite lookup_insert_ne by discriminate].
  destruct (in_range idx files); cbn [after returned];
    [|now rewrite lookup_insert_ne by discriminate].
  destruct (generate_thumbnail _ _ _ _ _ _) as [[|c t]|];
    cbn [after returned rerun];
    now rewrite lookup_insert_ne by discriminate.
Qed.

Lemma duplicate_file_keeps_command R idx s :
  after (duplicate_file R idx s) !! "action_command"
  = s !! "action_command".
Proof.
  unfold duplicate_file.
  destruct (files_or_empty _) as [files|]; [|reflexivity].
  destruct (metas_or_empty _) as [metas|]; [|reflexivity].
  destruct (files !! Z.to_nat idx) as [src|]; [|reflexivity].
  destruct (in_range idx files); [|reflexivity]. cbv zeta.
  cbn [after rerun]. rewrite clear_dynamic_keys_lookup.
  change (is_dynamic_key "action_command") with false. cbv iota.
  now rewrite !lookup_insert_ne by discriminate.
Qed.

(** X14.  [process_bridge_command] does nothing while the command is
    empty.  Otherwise it consumes the command: whatever the command
    asks for, and whether or not the handler it calls raises,
    [action_command] is the empty string afterwards.  A command that
    does not hold exactly one colon, whose index [int] refuses, or whose
    action is not one of delete, rotate, duplicate and preview, changes
    nothing else. *)
Theorem bridge_command_is_consumed py_int R s :
  let r := process_bridge_command py_int R s in
  (truthy (session_get "action_command" s) = false -> r = returned s)
  /\ (forall cmd,
        s !! "action_command" = Some (PyStr cmd) -> cmd <> "" ->
        let cleared := <["action_command" := PyStr ""]> s in
        after r !! "action_command" = Some (PyStr "")
        /\ (count_char ":" cmd <> 1%nat -> r = returned cleared)
        /\ (forall action idx_str,
              split_on ":" cmd = [action; idx_str] ->
              py_int idx_str = None
              \/ ~ In action ["delete"; "rotate"; "duplicate"; "preview"] ->
              r = returned cleared)).
Proof.
  cbv zeta. unfold process_bridge_command. cbv zeta. split.
  - intros ->. reflexivity.
  - intros cmd Hcmd Hne.
    assert (Hget : session_get "action_command" s = PyStr cmd)
      by (unfold session_get; now rewrite Hcmd).
    rewrite Hget. cbn [truthy].
    rewrite (proj2 (String.eqb_neq cmd "") Hne). cbn [negb].
    split; [|split].
    + destruct (split_on ":" cmd) as [|action [|idx_str [|x rest]]];
        try apply lookup_insert_eq.
      destruct (py_int idx_str) as [idx|]; [|apply lookup_insert_eq].
      destruct (String.eqb action "delete").
      { rewrite delete_file_keeps_command. apply lookup_insert_eq. }
      destruct (String.eqb action "rotate").
      { rewrite rotate_file_keeps_command. apply lookup_insert_eq. }
      destruct (String.eqb action "duplicate").
      { rewrite duplicate_file_keeps_command. apply lookup_insert_eq. }
      destruct (String.eqb action "preview"); [|apply lookup_insert_eq].
      destruct (as_int _) as [p|]; [destruct (p =? idx)|];
        cbn [after rerun]; rewrite lookup_insert_ne by discriminate;
        apply lookup_insert_eq.
    + intros Hcount. pose proof (split_on_length ":" cmd) as Hlen.
      destruct (split_on ":" cmd) as [|action [|idx_str [|x rest]]];
        try reflexivity.
      cbn [length] in Hlen. exfalso. apply Hcount. lia.
    + intros action idx_str -> [->|Hother]; [reflexivity|].
      destruct (py_int idx_str) as [idx|]; [|reflexivity].
      cbn [In] in Hother.
      destruct (String.eqb_spec action "delete") as [->|_]; [tauto|].
      destruct (String.eqb_spec action "rotate") as [->|_]; [tauto|].
      destruct (String.eqb_spec action "duplicate") as [->|_]; [tauto|].
      destruct (String.eqb_spec action "preview") as [->|_]; [tauto|].
      reflexivity.
Qed.

Lemma bridge_command_is_consumed_witness :
  let s := <["action_command" := PyStr "delete:0"]> turned_session in
  let r := process_bridge_command sample_int no_renderers s in
  after r !! "action_command" = Some (PyStr "")
  /\ after r !! "uploaded_files" = Some (PyFiles (delete 0%nat three_files)).
Proof.
  cbv zeta. split; [|vm_compute; reflexivity].
  destruct (proj2 (bridge_command_is_consumed sample_int no_renderers
                     (<["action_command" := PyStr "delete:0"]>
                        turned_session))
              "delete:0" (lookup_insert_eq _ _ _) ltac:(discriminate))
    as [Hcleared _].
  exact Hcleared.
Defined.

(** ** The defaults of the session *)

Lemma fill_defaults_lookup defaults : forall (s : gmap string pyval) key,
  fold_left (fun s entry =>
               if bool_decide (is_Some (s !! fst entry)) then s
               else <[fst entry := snd entry]> s) defaults s !! key
  = match s !! key with
    | Some v => Some v
    | None => first_default key defaults
    end.
Proof.
  induction defaults as [|[k v] defaults IH]; intros s key.
  - cbn. now destruct (s !! key).
  - cbn [fold_left fst snd]. rewrite IH. clear IH.
    unfold first_default. cbn [List.find fst].
    destruct (s !! k) as [x|] eqn:Hk.
    + rewrite bool_decide_eq_true_2 by eauto.
      destruct (s !! key) as [y|] eqn:Hkey; [reflexivity|].
      destruct (String.eqb_spec k key) as [->|_]; [congruence|reflexivity].
    + rewrite bool_decide_eq_false_2 by (intros [? ?]; discriminate).
      destruct (String.eqb_spec k key) as [->|Hne].
      * rewrite lookup_insert_eq, Hk. reflexivity.
      * rewrite lookup_insert_ne by exact Hne. reflexivity.
Qed.

(** X15.  [init_session_state] never overwrites: a key that is set keeps
    its value.  Afterwards each of the seven default keys is set, a key
    that was missing has its default, no other key has appeared, and
    calling it again changes nothing. *)
Theorem init_session_state_fills_gaps (s : gmap string pyval) :
  (forall key v, s !! key = Some v -> init_session_state s !! key = Some v)
  /\ (forall key v,
        In (key, v) session_defaults -> s !! key = None ->
        init_session_state s !! key = Some v)
  /\ (forall key,
        ~ In key (map fst session_defaults) -> 
        init_session_state s !! key = s !! key)
  /\ init_session_state (init_session_state s) = init_session_state s.
Proof.
  unfold init_session_state. repeat split.
  - intros key v Hs. now rewrite fill_defaults_lookup, Hs.
  - intros key v Hin Hs. rewrite fill_defaults_lookup, Hs.
    cbn [In session_defaults] in Hin.
    repeat destruct Hin as [Hin|Hin]; try (injection Hin as <- <-);
      try reflexivity. destruct Hin.
  - intros key Hkey. rewrite fill_defaults_lookup.
    destruct (s !! key) as [v|]; [reflexivity|].
    unfold first_default. cbn [session_defaults List.find fst].
    cbn [map fst session_defaults In] in Hkey.
    repeat match goal with
           | |- context [String.eqb ?k key] =>
               destruct (String.eqb_spec k key) as [<-|_];
               [exfalso; apply Hkey; repeat (first [left; reflexivity | right])
               |]
           end.
    reflexivity.
  - apply map_eq. intros key. rewrite fill_defaults_lookup.
    destruct (fold_left _ session_defaults s !! key) as [v|] eqn:Hv;
      [reflexivity|].
    rewrite fill_defaults_lookup in Hv.
    destruct (s !! key); [discriminate | now symmetry].
Qed.

(** * The upload page *)

(** ** Adding files to the list *)

Lemma fresh_meta_fields pdf_pages R f :
  meta_name (fresh_meta pdf_pages R f) = name f
  /\ rotation (fresh_meta pdf_pages R f) = 0.
Proof. unfold fresh_meta. now destruct (pdf_pages (read f)). Qed.

(** X16.  Adding files to a non-empty list forgets every rotation: the
    handler appends the new files, drops [uploaded_meta] and asks for a
    rerun, and the next script run (whose uploader, under its new key,
    returns nothing) rebuilds the metadata of all files, old and new,
    with their file names and rotation 0. *)
Theorem adding_files_resets_rotations pdf_pages R s current new_file more :
  s !! "uploaded_files" = Some (PyFiles current) ->
  current <> [] ->
  (forall v, s !! "add_more_key" = Some v -> is_Some (as_int v)) ->
  let widget := new_file :: more in
  let r1 := individual_pdfs pdf_pages R widget s in
  let r2 := individual_pdfs pdf_pages R [] (after r1) in
  raised r1 = None /\ rerun_called r1 = true
  /\ after r1 !! "uploaded_meta" = None
  /\ raised r2 = None
  /\ after r2 !! "uploaded_files" = Some (PyFiles (current ++ widget))
  /\ exists metas,
       after r2 !! "uploaded_meta" = Some (PyMetas metas)
       /\ length metas = length (current ++ widget)
       /\ forall k f, (current ++ widget) !! k = Some f ->
            exists m, metas !! k = Some m
                      /\ meta_name m = name f /\ rotation m = 0.
Proof.
  intros Hfiles Hne Hkey. cbv zeta.
  assert (Htruthy : truthy (PyFiles current) = true).
  { cbn [truthy]. now rewrite bool_decide_eq_false_2. }
  assert (Htruthy' : truthy (PyFiles (current ++ new_file :: more)) = true).
  { cbn [truthy]. rewrite bool_decide_eq_false_2; [reflexivity|].
    now destruct current. }
  set (s0 := if bool_decide (is_Some (s !! "add_more_key")) then s
             else <["add_more_key" := PyInt 0]> s).
  assert (Hk : exists k, as_int (session_get "add_more_key"
                 (delete "uploaded_meta"
                    (<["uploaded_files" :=
                         PyFiles (current ++ new_file :: more)]> s0)))
               = Some k).
  { unfold session_get. rewrite lookup_delete_ne by discriminate.
    rewrite lookup_insert_ne by discriminate. unfold s0.
    destruct (s !! "add_more_key") as [v|] eqn:Hv.
    - rewrite bool_decide_eq_true_2 by eauto. rewrite Hv. cbn.
      destruct (Hkey v eq_refl) as [k Hk']. eauto.
    - rewrite bool_decide_eq_false_2 by (intros [? ?]; discriminate).
      rewrite lookup_insert_eq. cbn. eauto. }
  destruct Hk as [k Hk].
  assert (H1 : individual_pdfs pdf_pages R (new_file :: more) s
               = rerun (<["add_more_key" := PyInt (k + 1)]>
                          (delete "uploaded_meta"
                             (<["uploaded_files" :=
                                  PyFiles (current ++ new_file :: more)]>
                                s0)))).
  { unfold individual_pdfs. rewrite Hfiles. cbn [default from_option id].
    rewrite Htruthy. cbn [negb]. fold s0. cbv zeta. now rewrite Hk. }
  rewrite H1. cbn [after raised rerun_called rerun].
  set (s1 := <["add_more_key" := PyInt (k + 1)]> _).
  assert (Hf1 : s1 !! "uploaded_files"
                = Some (PyFiles (current ++ new_file :: more))).
  { unfold s1. rewrite lookup_insert_ne by discriminate.
    rewrite lookup_delete_ne by discriminate. apply lookup_insert_eq. }
  assert (Hm1 : s1 !! "uploaded_meta" = None).
  { unfold s1. rewrite lookup_insert_ne by discriminate.
    apply lookup_delete_eq. }
  assert (Hk1 : bool_decide (is_Some (s1 !! "add_more_key")) = true).
  { apply bool_decide_eq_true_2. unfold s1. rewrite lookup_insert_eq. eauto. }
  assert (H2 : individual_pdfs pdf_pages R [] s1
               = returned
                   (<["uploaded_meta" :=
                        PyMetas (fresh_meta pdf_pages R
                                   <$> current ++ new_file :: more)]> s1)).
  { unfold individual_pdfs. rewrite Hf1. cbn [default from_option id].
    rewrite Htruthy'. cbn [negb]. rewrite Hk1. now rewrite Hm1. }
  rewrite H2. cbn [after raised returned].
  split; [reflexivity|]. split; [reflexivity|]. split; [exact Hm1|].
  split; [reflexivity|].
  split; [now rewrite lookup_insert_ne by discriminate|].
  eexists. split; [apply lookup_insert_eq|].
  split; [apply length_fmap|].
  intros j f Hj. exists (fresh_meta pdf_pages R f).
  split; [now rewrite list_lookup_fmap, Hj|]. apply fresh_meta_fields.
Qed.

Lemma adding_files_resets_rotations_witness :
  let r1 := individual_pdfs (fun _ => None) no_renderers [fourth_file]
              turned_session in
  let r2 := individual_pdfs (fun _ => None) no_renderers [] (after r1) in
  rotation <$> (turned_meta <$> three_files) = [90; 90; 90]
  /\ exists metas,
       after r2 !! "uploaded_meta" = Some (PyMetas metas)
       /\ rotation <$> metas = [0; 0; 0; 0].
Proof.
  cbv zeta. split; [reflexivity|].
  destruct (adding_files_resets_rotations (fun _ => None) no_renderers
              turned_session three_files fourth_file [])
    as (_ & _ & _ & _ & _ & metas & Hmetas & Hlen & Hall).
  - reflexivity.
  - discriminate.
  - intros v Hv. vm_compute in Hv. discriminate Hv.
  - exists metas. split; [exact Hmetas|].
    destruct metas as [|m0 [|m1 [|m2 [|m3 [|]]]]]; try discriminate Hlen.
    destruct (Hall 0%nat _ eq_refl) as (? & [= <-] & _ & H0).
    destruct (Hall 1%nat _ eq_refl) as (? & [= <-] & _ & H1).
    destruct (Hall 2%nat _ eq_refl) as (? & [= <-] & _ & H2).
    destruct (Hall 3%nat _ eq_refl) as (? & [= <-] & _ & H3).
    cbn [fmap list_fmap]. now rewrite H0, H1, H2, H3.
Defined.

(** ** Sorting the files by name *)

Section Sorting.

Context {A : Type}.
Variable before : A -> A -> bool.
Hypothesis before_total : forall x y, before x y = false -> before y x = true.

Lemma insert_by_Permutation x (l : list A) :
  Permutation (insert_by before x l) (x :: l).
Proof.
  induction l as [|y l IH]; cbn [insert_by]; [reflexivity|].
  destruct (before x y); [reflexivity|].
  rewrite IH. apply perm_swap.
Qed.

Lemma insert_by_head x (l : list A) :
  head (insert_by before x l) = Some x
  \/ (head (insert_by before x l) = head l
      /\ exists y, head l = Some y /\ before x y = false).
Proof.
  destruct l as [|y l]; cbn [insert_by]; [now left|].
  destruct (before x y) eqn:Hb; [now left|]. right. cbn. eauto.
Qed.

Lemma in_order_cons a (l : list A) :
  in_order before l ->
  (forall b, head l = Some b -> before a b = true) ->
  in_order before (a :: l).
Proof.
  intros Hl Hhead [|k] x y Hx Hy.
  - injection Hx as <-. apply Hhead. now destruct l.
  - exact (Hl k x y Hx Hy).
Qed.

Lemma in_order_tail a (l : list A) :
  in_order before (a :: l) -> in_order before l.
Proof. intros H k x y Hx Hy. exact (H (S k) x y Hx Hy). Qed.

Lemma insert_by_in_order x (l : list A) :
  in_order before l -> in_order before (insert_by before x l).
Proof.
  induction l as [|y l IH]; intros Hl; cbn [insert_by].
  - intros [|k] a b Ha Hb; discriminate Hb.
  - destruct (before x y) eqn:Hxy.
    + apply in_order_cons; [exact Hl|]. intros b [= <-]. exact Hxy.
    + apply in_order_cons; [apply IH; exact (in_order_tail _ _ Hl)|].
      intros b Hb.
      destruct (insert_by_head x l) as [Hx|[Hsame _]].
      * rewrite Hx in Hb. injection Hb as <-. now apply before_total.
      * rewrite Hsame in Hb. apply (Hl 0%nat y b); [reflexivity|].
        now destruct l.
Qed.

Lemma foldr_insert_by_Permutation (l : list A) :
  Permutation (foldr (insert_by before) [] l) l.
Proof.
  induction l as [|x l IH]; cbn [foldr]; [reflexivity|].
  now rewrite insert_by_Permutation, IH.
Qed.

Lemma foldr_insert_by_in_order (l : list A) :
  in_order before (foldr (insert_by before) [] l).
Proof.
  induction l as [|x l IH]; cbn [foldr].
  - intros k a b Ha; discriminate Ha.
  - now apply insert_by_in_order.
Qed.

(** Stability: an item inserted in front of a list that it precedes
    (it comes before every item whose key equals its own) stays in
    front of those items. *)
Variable rank : A -> nat.
Variable same : A -> A -> Prop.
Hypothesis before_same : forall x y, same x y -> before x y = true.

Lemma insert_by_stable x (l : list A) :
  (forall y, y ∈ l -> (rank x < rank y)%nat) ->
  (forall a b, same a b -> same b a) ->
  stable rank same l -> stable rank same (insert_by before x l).
Proof.
  intros Hx Hsym. induction l as [|y l IH]; intros Hl; cbn [insert_by].
  - intros k1 [|k2] a b Hlt Ha Hb; [lia | discriminate Hb].
  - destruct (before x y) eqn:Hxy.
    + intros [|k1] [|k2] a b Hlt Ha Hb Hab; try lia.
      * injection Ha as <-. apply Hx.
        eapply list_elem_of_lookup_2. exact Hb.
      * apply (Hl k1 k2 a b); [lia|exact Ha|exact Hb|exact Hab].
    + assert (IH' : stable rank same (insert_by before x l)).
      { apply IH.
        - intros z Hz. apply Hx. now right.
        - intros k1 k2 a b Hlt Ha Hb.
          apply (Hl (S k1) (S k2) a b); [lia|exact Ha|exact Hb]. }
      intros [|k1] [|k2] a b Hlt Ha Hb Hab; try lia.
      * injection Ha as <-. cbn in Hb.
        apply list_elem_of_lookup_2 in Hb.
        apply (elem_of_Permutation_proper _ _ _ (insert_by_Permutation x l))
          in Hb.
        apply elem_of_cons in Hb as [->|Hb].
        -- apply Hsym in Hab. apply before_same in Hab. congruence.
        -- apply list_elem_of_lookup_1 in Hb as [k Hk].
           apply (Hl 0%nat (S k) y b); [lia|reflexivity|exact Hk|exact Hab].
      * apply (IH' k1 k2 a b); [lia|exact Ha|exact Hb|exact Hab].
Qed.

End Sorting.

Lemma upload_items_lookup files meta k it :
  upload_items files meta !! k = Some it ->
  fst (fst it) = k /\ files !! k = Some (snd (fst it))
  /\ meta !! k = Some (snd it).
Proof.
  unfold upload_items. rewrite list_lookup_imap.
  destruct (zip files meta !! k) as [[f m]|] eqn:Hz; [|discriminate].
  intros [= <-]. apply lookup_zip_Some in Hz as [Hf Hm]. auto.
Qed.

Lemma upload_items_indices files meta :
  length files = length meta ->
  (fun it : nat * uploaded_file * upload_meta => fst (fst it))
    <$> upload_items files meta
  = seq 0 (length files).
Proof.
  intros Hlen. apply list_eq. intros i.
  unfold upload_items. rewrite list_lookup_fmap, list_lookup_imap.
  destruct (zip files meta !! i) as [[f m]|] eqn:Hz; cbn.
  - apply lookup_zip_Some in Hz as [Hf _].
    apply lookup_lt_Some in Hf. now rewrite lookup_seq_lt.
  - apply lookup_zip_None in Hz.
    rewrite lookup_seq_ge; [reflexivity|].
    destruct Hz as [Hz|Hz]; apply lookup_ge_None in Hz; lia.
Qed.

Lemma leb_refl a : String.leb a a = true.
Proof. now destruct (String.leb_total a a). Qed.

Lemma key_order_total (lower : string -> string) (reverse : bool)
    (x y : nat * uploaded_file * upload_meta) :
  (if reverse then String.leb (sort_key lower y) (sort_key lower x)
   else String.leb (sort_key lower x) (sort_key lower y)) = false ->
  (if reverse then String.leb (sort_key lower x) (sort_key lower y)
   else String.leb (sort_key lower y) (sort_key lower x)) = true.
Proof.
  destruct reverse; intros H.
  - destruct (String.leb_total (sort_key lower y) (sort_key lower x));
      congruence.
  - destruct (String.leb_total (sort_key lower x) (sort_key lower y));
      congruence.
Qed.

Lemma sorted_uploads_Permutation lower reverse files meta :
  Permutation (sorted_uploads lower reverse files meta)
    (upload_items files meta).
Proof. apply foldr_insert_by_Permutation. Qed.

Lemma sorted_uploads_item lower reverse files meta k it :
  sorted_uploads lower reverse files meta !! k = Some it ->
  files !! fst (fst it) = Some (snd (fst it))
  /\ meta !! fst (fst it) = Some (snd it).
Proof.
  intros Hk. apply list_elem_of_lookup_2 in Hk.
  apply (elem_of_Permutation_proper _ _ _
           (sorted_uploads_Permutation lower reverse files meta)) in Hk.
  apply list_elem_of_lookup_1 in Hk as [j Hj].
  destruct (upload_items_lookup _ _ _ _ Hj) as (-> & Hf & Hm). auto.
Qed.

Lemma sorted_uploads_indices lower reverse files meta :
  length files = length meta ->
  Permutation
    ((fun it : nat * uploaded_file * upload_meta => fst (fst it))
       <$> sorted_uploads lower reverse files meta)
    (seq 0 (length files)).
Proof.
  intros Hlen. rewrite <- (upload_items_indices files meta Hlen).
  apply fmap_Permutation, sorted_uploads_Permutation.
Qed.

Lemma sorted_uploads_in_order lower reverse files meta :
  in_order (name_order lower reverse)
    (snd <$> sorted_uploads lower reverse files meta).
Proof.
  intros k a b Ha Hb. rewrite list_lookup_fmap in Ha, Hb.
  destruct (sorted_uploads lower reverse files meta !! k) as [x|] eqn:Hx;
    [|discriminate].
  destruct (sorted_uploads lower reverse files meta !! S k) as [y|] eqn:Hy;
    [|discriminate].
  injection Ha as <-. injection Hb as <-.
  exact (foldr_insert_by_in_order _ (key_order_total lower reverse)
           _ k x y Hx Hy).
Qed.

Lemma foldr_insert_by_stable {A} (before : A -> A -> bool) (rank : A -> nat)
    (same : A -> A -> Prop) (l : list A) :
  (forall x y, same x y -> before x y = true) ->
  (forall a b, same a b -> same b a) ->
  (forall k1 k2 a b, (k1 < k2)%nat -> l !! k1 = Some a -> l !! k2 = Some b ->
     (rank a < rank b)%nat) ->
  stable rank same (foldr (insert_by before) [] l).
Proof.
  intros Hsame Hsym. induction l as [|x l IH]; intros Hrank; cbn [foldr].
  - intros k1 k2 a b _ Ha. discriminate Ha.
  - apply (insert_by_stable before rank same Hsame).
    + intros y Hy.
      apply (elem_of_Permutation_proper _ _ _
               (foldr_insert_by_Permutation before l)) in Hy.
      apply list_elem_of_lookup_1 in Hy as [k Hk].
      apply (Hrank 0%nat (S k) x y); [lia|reflexivity|exact Hk].
    + exact Hsym.
    + apply IH. intros k1 k2 a b Hlt Ha Hb.
      apply (Hrank (S k1) (S k2) a b); [lia|exact Ha|exact Hb].
Qed.

Lemma sorted_uploads_stable lower reverse files meta :
  stable (fun it => fst (fst it))
    (fun x y => sort_key lower x = sort_key lower y)
    (sorted_uploads lower reverse files meta).
Proof.
  apply foldr_insert_by_stable.
  - intros x y ->. destruct reverse; apply leb_refl.
  - intros a b H. now symmetry.
  - intros k1 k2 a b Hlt Ha Hb.
    apply upload_items_lookup in Ha as (-> & _).
    apply upload_items_lookup in Hb as (-> & _). exact Hlt.
Qed.

Lemma sort_files_run lower py_int reverse s files meta :
  s !! "uploaded_files" = Some (PyFiles files) ->
  s !! "uploaded_meta" = Some (PyMetas meta) ->
  length files = length meta ->
  let items := sorted_uploads lower reverse files meta in
  let new_files := (fun item => snd (fst item)) <$> items in
  let new_meta := snd <$> items in
  let perm := (fun item => fst (fst item)) <$> items in
  sort_files lower py_int reverse s
  = if bool_decide (meta_name <$> meta <> meta_name <$> new_meta) then
      rerun
        (clear_dynamic_keys
           (foldl (follow_sort py_int perm)
              (foldl (reorder_related perm)
                 (<["uploaded_meta" := PyMetas new_meta]>
                    (<["uploaded_files" := PyFiles new_files]> s))
                 ["exhibit_order"; "processed_files"; "exhibit_list"])
              ["selected_upload_index"; "preview_file_index"]))
    else returned s.
Proof.
  intros Hfiles Hmeta Hlen. cbv zeta. unfold sort_files.
  rewrite Hfiles, Hmeta. cbn [default from_option id].
  destruct files as [|f files].
  - destruct meta; [|discriminate Hlen]. cbn.
    now rewrite bool_decide_eq_false_2 by (intros H; now apply H).
  - destruct meta as [|m meta]; [discriminate Hlen|].
    assert (Ht : truthy (PyFiles (f :: files)) && truthy (PyMetas (m :: meta))
                 && (length (f :: files) =? length (m :: meta))%nat = true).
    { cbn [truthy]. rewrite !bool_decide_eq_false_2 by discriminate.
      rewrite Hlen, Nat.eqb_refl. reflexivity. }
    rewrite Ht. reflexivity.
Qed.

Ltac kept_key :=
  rewrite clear_dynamic_keys_lookup;
  match goal with
  | |- context [is_dynamic_key ?k] => change (is_dynamic_key k) with false
  end;
  cbv iota.

Lemma reorder_related_other perm s key k :
  k <> key -> reorder_related perm s key !! k = s !! k.
Proof.
  intros Hk. unfold reorder_related.
  destruct (s !! key) as [v|]; [|reflexivity].
  destruct (reorder_value perm v); [|reflexivity].
  now rewrite lookup_insert_ne.
Qed.

Lemma follow_sort_other py_int perm s key k :
  k <> key -> follow_sort py_int perm s key !! k = s !! k.
Proof.
  intros Hk. unfold follow_sort.
  destruct (s !! key) as [v|]; [|reflexivity].
  destruct v; cbn [int_of]; try reflexivity;
    repeat match goal with
           | |- context [match ?x with _ => _ end] => destruct x
           end;
    try reflexivity;
    first [now rewrite lookup_insert_ne | now rewrite lookup_delete_ne].
Qed.

Lemma map_old_to_new_found perm old_idx :
  forall new_pos p,
    map_old_to_new perm old_idx new_pos = Some p ->
    (new_pos <= p)%nat
    /\ exists i, perm !! (p - new_pos)%nat = Some i /\ Z.of_nat i = old_idx.
Proof.
  induction perm as [|i perm IH]; intros new_pos p H; [discriminate H|].
  cbn [map_old_to_new] in H. destruct (Z.of_nat i =? old_idx) eqn:He.
  - injection H as <-. apply Z.eqb_eq in He. split; [lia|].
    exists i. now rewrite Nat.sub_diag.
  - apply IH in H as (Hle & j & Hj & Hold). split; [lia|].
    exists j. split; [|exact Hold].
    replace (p - new_pos)%nat with (S (p - S new_pos)) by lia. exact Hj.
Qed.

Lemma map_old_to_new_missing perm old_idx :
  forall new_pos,
    map_old_to_new perm old_idx new_pos = None ->
    forall i, i ∈ perm -> Z.of_nat i <> old_idx.
Proof.
  induction perm as [|i perm IH]; intros new_pos H j Hj.
  - now apply elem_of_nil in Hj.
  - cbn [map_old_to_new] in H. destruct (Z.of_nat i =? old_idx) eqn:He;
      [discriminate H|]. apply Z.eqb_neq in He.
    apply elem_of_cons in Hj as [->|Hj]; [exact He|].
    exact (IH _ H j Hj).
Qed.

Lemma reorder_lookup {A} perm (l new : list A) :
  reorder perm l = Some new ->
  forall k i, perm !! k = Some i -> new !! k = l !! i.
Proof.
  unfold reorder. destruct (length l =? length perm)%nat; [|discriminate].
  intros H k i Hk. apply mapM_Some_1 in H.
  destruct (Forall2_lookup_l _ _ _ _ _ H Hk) as (y & Hy & Hi).
  now rewrite Hy, Hi.
Qed.

Lemma reorder_total {A} perm (l : list A) :
  Permutation perm (seq 0 (length l)) -> is_Some (reorder perm l).
Proof.
  intros Hperm. unfold reorder.
  rewrite (Permutation_length Hperm), length_seq, Nat.eqb_refl.
  apply mapM_is_Some. apply Forall_forall. intros i Hi.
  apply (elem_of_Permutation_proper _ _ _ Hperm) in Hi.
  apply elem_of_seq in Hi. apply lookup_lt_is_Some_2. lia.
Qed.

(** X17.  The sort button reorders the files and their metadata by one
    and the same permutation, so that every file keeps its metadata.
    The new order is by lowercased name, from A to Z or (reversed) from
    Z to A, and files whose lowercased names are equal keep their
    order.  When this leaves the sequence of names as it was, the
    session is not touched and no rerun is asked for. *)
Theorem sort_files_orders_pairs lower py_int reverse s files meta :
  s !! "uploaded_files" = Some (PyFiles files) ->
  s !! "uploaded_meta" = Some (PyMetas meta) ->
  length files = length meta ->
  let r := sort_files lower py_int reverse s in
  exists perm new_files new_meta,
    Permutation perm (seq 0 (length files))
    /\ length new_files = length files /\ length new_meta = length files
    /\ (forall k i, perm !! k = Some i ->
          new_files !! k = files !! i /\ new_meta !! k = meta !! i)
    /\ in_order (name_order lower reverse) new_meta
    /\ (forall k1 k2 i j a b,
          (k1 < k2)%nat -> perm !! k1 = Some i -> perm !! k2 = Some j ->
          meta !! i = Some a -> meta !! j = Some b ->
          lower (meta_name a) = lower (meta_name b) -> (i < j)%nat)
    /\ raised r = None
    /\ (meta_name <$> new_meta = meta_name <$> meta -> r = returned s)
    /\ (meta_name <$> new_meta <> meta_name <$> meta ->
        rerun_called r = true
        /\ after r !! "uploaded_files" = Some (PyFiles new_files)
        /\ after r !! "uploaded_meta" = Some (PyMetas new_meta)).
Proof.
  intros Hfiles Hmeta Hlen. cbv zeta.
  rewrite (sort_files_run lower py_int reverse s files meta Hfiles Hmeta Hlen).
  cbv zeta. set (items := sorted_uploads lower reverse files meta).
  exists ((fun it => fst (fst it)) <$> items),
         ((fun it => snd (fst it)) <$> items), (snd <$> items).
  pose proof (sorted_uploads_indices lower reverse files meta Hlen) as Hperm.
  fold items in Hperm.
  assert (Hn : length items = length files).
  { rewrite <- (length_fmap (fun it => fst (fst it)) items).
    rewrite (Permutation_length Hperm). apply length_seq. }
  split; [exact Hperm|].
  split; [now rewrite length_fmap|]. split; [now rewrite length_fmap|].
  split.
  { intros k i Hk. rewrite list_lookup_fmap in Hk. rewrite !list_lookup_fmap.
    destruct (items !! k) as [it|] eqn:Hit; [|discriminate Hk].
    injection Hk as <-.
    destruct (sorted_uploads_item _ _ _ _ _ _ Hit) as [Hf Hm].
    now rewrite Hf, Hm. }
  split; [apply sorted_uploads_in_order|].
  split.
  { intros k1 k2 i j a b Hlt H1 H2 Ha Hb Hkey.
    rewrite list_lookup_fmap in H1, H2.
    destruct (items !! k1) as [x|] eqn:Hx; [|discriminate H1].
    destruct (items !! k2) as [y|] eqn:Hy; [|discriminate H2].
    injection H1 as <-. injection H2 as <-.
    destruct (sorted_uploads_item _ _ _ _ _ _ Hx) as [_ Hmx].
    destruct (sorted_uploads_item _ _ _ _ _ _ Hy) as [_ Hmy].
    apply (sorted_uploads_stable lower reverse files meta k1 k2 x y Hlt Hx Hy).
    unfold sort_key. congruence. }
  destruct (bool_decide (meta_name <$> meta <> meta_name <$> (snd <$> items)))
    eqn:Hd.
  - apply bool_decide_eq_true_1 in Hd.
    split; [reflexivity|]. split; [congruence|]. intros _.
    split; [reflexivity|]. cbn [after rerun foldl].
    split; kept_key;
      rewrite !follow_sort_other, !reorder_related_other by discriminate.
    + rewrite lookup_insert_ne by discriminate. apply lookup_insert_eq.
    + apply lookup_insert_eq.
  - apply bool_decide_eq_false_1 in Hd.
    split; [reflexivity|]. split; [reflexivity|]. intros Hne.
    exfalso. apply Hne. symmetry. now apply dec_stable.
Qed.

Lemma reorder_related_value perm s key v :
  s !! key = Some v ->
  reorder_related perm s key !! key
  = Some (default v (reorder_value perm v)).
Proof.
  intros Hs. unfold reorder_related. rewrite Hs.
  destruct (reorder_value perm v); cbn; [apply lookup_insert_eq | exact Hs].
Qed.

Lemma follow_sort_int py_int perm s key p :
  s !! key = Some (PyInt p) ->
  follow_sort py_int perm s key !! key
  = (fun n => PyInt (Z.of_nat n)) <$> map_old_to_new perm p 0.
Proof.
  intros Hs. unfold follow_sort. rewrite Hs. cbn [int_of].
  destruct (map_old_to_new perm p 0); cbn.
  - apply lookup_insert_eq.
  - apply lookup_delete_eq.
Qed.

(** X18.  When the sort button changes the order, the selected index
    follows its file and an index that points at no file is dropped; the
    preview index is remapped too, but then removed together with the
    keys that start with [preview_], so that no file is previewed after
    a sort; and an exhibit list as long as the file list is reordered
    by the permutation of the files, any other is left as it is. *)
Theorem sort_files_moves_selection lower py_int reverse s files meta :
  s !! "uploaded_files" = Some (PyFiles files) ->
  s !! "uploaded_meta" = Some (PyMetas meta) ->
  length files = length meta ->
  rerun_called (sort_files lower py_int reverse s) = true ->
  let r := sort_files lower py_int reverse s in
  exists perm new_files,
    Permutation perm (seq 0 (length files))
    /\ after r !! "uploaded_files" = Some (PyFiles new_files)
    /\ (forall k i, perm !! k = Some i -> new_files !! k = files !! i)
    /\ after r !! "preview_file_index" = None
    /\ (forall p, s !! "selected_upload_index" = Some (PyInt p) ->
          if in_range p files then
            exists p',
              after r !! "selected_upload_index" = Some (PyInt p')
              /\ 0 <= p'
              /\ new_files !! Z.to_nat p' = files !! Z.to_nat p
          else after r !! "selected_upload_index" = None)
    /\ (forall exhibits,
          s !! "exhibit_list" = Some (PyExhibits exhibits) ->
          if (length exhibits =? length files)%nat then
            exists new_exhibits,
              after r !! "exhibit_list" = Some (PyExhibits new_exhibits)
              /\ forall k i, perm !! k = Some i ->
                   new_exhibits !! k = exhibits !! i
          else after r !! "exhibit_list" = Some (PyExhibits exhibits)).
Proof.
  intros Hfiles Hmeta Hlen Hrun. cbv zeta. revert Hrun.
  rewrite (sort_files_run lower py_int reverse s files meta Hfiles Hmeta Hlen).
  cbv zeta. set (items := sorted_uploads lower reverse files meta).
  destruct (bool_decide _); [intros _|discriminate].
  set (perm := (fun it => fst (fst it)) <$> items).
  set (new_files := (fun it => snd (fst it)) <$> items).
  pose proof (sorted_uploads_indices lower reverse files meta Hlen) as Hperm.
  fold items in Hperm. fold perm in Hperm.
  exists perm, new_files. cbn [after rerun foldl].
  assert (Hpairs : forall k i, perm !! k = Some i ->
                     new_files !! k = files !! i).
  { intros k i Hk. unfold perm in Hk. unfold new_files.
    rewrite list_lookup_fmap in Hk. rewrite list_lookup_fmap.
    destruct (items !! k) as [it|] eqn:Hit; [|discriminate Hk].
    injection Hk as <-.
    destruct (sorted_uploads_item _ _ _ _ _ _ Hit) as [Hf _].
    now rewrite Hf. }
  split; [exact Hperm|].
  split.
  { kept_key.
    rewrite !follow_sort_other, !reorder_related_other by discriminate.
    rewrite lookup_insert_ne by discriminate. apply lookup_insert_eq. }
  split; [exact Hpairs|].
  split; [now rewrite clear_dynamic_keys_lookup|].
  split.
  - intros p Hp. kept_key.
    rewrite follow_sort_other by discriminate.
    rewrite (follow_sort_int _ _ _ _ p)
      by (rewrite !reorder_related_other, !lookup_insert_ne by discriminate;
          exact Hp).
    destruct (map_old_to_new perm p 0) as [n|] eqn:Hmap; cbn.
    + apply map_old_to_new_found in Hmap as (_ & i & Hi & <-).
      rewrite Nat.sub_0_r in Hi.
      assert (Hin : (i < length files)%nat).
      { apply list_elem_of_lookup_2 in Hi.
        apply (elem_of_Permutation_proper _ _ _ Hperm) in Hi.
        apply elem_of_seq in Hi. lia. }
      replace (in_range (Z.of_nat i) files) with true
        by (symmetry; apply in_range_spec; lia).
      exists (Z.of_nat n). split; [reflexivity|]. split; [lia|].
      rewrite !Nat2Z.id. now apply Hpairs.
    + destruct (in_range p files) eqn:Hr; [|reflexivity]. exfalso.
      apply in_range_spec in Hr.
      apply (map_old_to_new_missing _ _ _ Hmap (Z.to_nat p)); [|lia].
      apply (elem_of_Permutation_proper _ _ _ Hperm).
      apply elem_of_seq. lia.
  - intros exhibits Hex. kept_key.
    rewrite !follow_sort_other by discriminate.
    rewrite (reorder_related_value _ _ _ (PyExhibits exhibits))
      by (rewrite !reorder_related_other, !lookup_insert_ne by discriminate;
          exact Hex).
    cbn [reorder_value].
    destruct (length exhibits =? length files)%nat eqn:Hl.
    + apply Nat.eqb_eq in Hl. rewrite <- Hl in Hperm.
      destruct (reorder_total perm exhibits Hperm) as [new Hnew].
      rewrite Hnew. cbn. exists new. split; [reflexivity|].
      exact (reorder_lookup _ _ _ Hnew).
    + unfold reorder.
      replace (length perm) with (length files)
        by (rewrite (Permutation_length Hperm); now rewrite length_seq).
      now rewrite Hl.
Qed.

Lemma sort_files_orders_pairs_witness :
  let r := sort_files sample_lower sample_int true turned_session in
  after r !! "uploaded_files" = Some (PyFiles (rev three_files))
  /\ exists new_meta,
       after r !! "uploaded_meta" = Some (PyMetas new_meta)
       /\ in_order (name_order sample_lower true) new_meta.
Proof.
  cbv zeta. split; [vm_compute; reflexivity|].
  destruct (sort_files_orders_pairs sample_lower sample_int true
              turned_session three_files (turned_meta <$> three_files))
    as (perm & new_files & new_meta & _ & _ & _ & _ & Horder & _ & _
        & Hsame & Hdiff).
  - reflexivity.
  - reflexivity.
  - reflexivity.
  - exists new_meta. split; [|exact Horder].
    apply Hdiff. intros Heq. specialize (Hsame Heq).
    apply (f_equal rerun_called) in Hsame. vm_compute in Hsame.
    discriminate Hsame.
Defined.

Lemma sort_files_moves_selection_witness :
  let r := sort_files sample_lower sample_int true selecting_session in
  session_get "preview_file_index" selecting_session = PyInt 0
  /\ after r !! "preview_file_index" = None
  /\ exists p' new_files,
       after r !! "selected_upload_index" = Some (PyInt p')
       /\ after r !! "uploaded_files" = Some (PyFiles new_files)
       /\ new_files !! Z.to_nat p' = three_files !! 0%nat.
Proof.
  cbv zeta. split; [reflexivity|].
  destruct (sort_files_moves_selection sample_lower sample_int true
              selecting_session three_files (turned_meta <$> three_files))
    as (perm & new_files & _ & Hfiles & _ & Hpreview & Hsel & _).
  - reflexivity.
  - reflexivity.
  - reflexivity.
  - vm_compute. reflexivity.
  - split; [exact Hpreview|].
    destruct (Hsel 0 eq_refl) as (p' & Hp' & _ & Hfile).
    exists p', new_files. auto.
Defined.

(** ** The rotation buttons of the toolbar *)

Lemma turn_meta_fields R delta uploaded_files i m :
  rotation (turn_meta R delta uploaded_files i m)
  = (rotation m + delta) mod 360
  /\ meta_name (turn_meta R delta uploaded_files i m) = meta_name m
  /\ meta_pages (turn_meta R delta uploaded_files i m) = meta_pages m.
Proof.
  unfold turn_meta. cbv zeta.
  destruct uploaded_files as [files|]; [|now cbn].
  destruct (files !! i) as [f|]; [|now cbn].
  now destruct (generate_thumbnail _ _ _ _ _ _) as [[|c t]|].
Qed.

Lemma rotate_all_run R delta s meta :
  s !! "uploaded_meta" = Some (PyMetas meta) -> meta <> [] ->
  exists uploaded_files,
    rotate_all R delta s
    = rerun (<["uploaded_meta" :=
                 PyMetas (imap (turn_meta R delta uploaded_files) meta)]> s).
Proof.
  intros Hmeta Hne. unfold rotate_all. rewrite Hmeta.
  cbn [default from_option id truthy].
  rewrite bool_decide_eq_false_2 by exact Hne. cbn [negb].
  eexists. reflexivity.
Qed.

(** X19.  A rotation button of the toolbar turns every file: each
    rotation becomes [(rotation + delta) mod 360], names and page counts
    stay, and no other key of the session changes.  Pressing the
    opposite button afterwards brings every rotation back (to its value
    modulo 360, which is the value itself when it lay between 0 and
    359).  With no metadata the button does nothing. *)
Theorem toolbar_rotations_cancel R delta s meta :
  s !! "uploaded_meta" = Some (PyMetas meta) ->
  let turn := rotate_all R delta s in
  let back := rotate_all R (- delta) (after turn) in
  (meta = [] -> turn = returned s)
  /\ (meta <> [] ->
      raised turn = None /\ rerun_called turn = true
      /\ raised back = None
      /\ exists turned restored,
           after turn !! "uploaded_meta" = Some (PyMetas turned)
           /\ after back !! "uploaded_meta" = Some (PyMetas restored)
           /\ length turned = length meta
           /\ length restored = length meta
           /\ (forall k m, meta !! k = Some m ->
                 exists t r,
                   turned !! k = Some t /\ restored !! k = Some r
                   /\ rotation t = (rotation m + delta) mod 360
                   /\ rotation r = rotation m mod 360
                   /\ meta_name t = meta_name m /\ meta_name r = meta_name m
                   /\ meta_pages t = meta_pages m
                   /\ meta_pages r = meta_pages m)
           /\ forall key, key <> "uploaded_meta" ->
                after turn !! key = s !! key /\ after back !! key = s !! key).
Proof.
  intros Hmeta. cbv zeta. split.
  - intros ->. unfold rotate_all. now rewrite Hmeta.
  - intros Hne.
    destruct (rotate_all_run R delta s meta Hmeta Hne) as [fs1 H1].
    rewrite H1. cbn [after raised rerun_called rerun].
    set (turned := imap (turn_meta R delta fs1) meta).
    assert (Hlen : length turned = length meta) by apply length_imap.
    assert (Hne1 : turned <> []).
    { intros H. rewrite H in Hlen. destruct meta; [now apply Hne|].
      discriminate Hlen. }
    destruct (rotate_all_run R (- delta)
                (<["uploaded_meta" := PyMetas turned]> s) turned
                (lookup_insert_eq _ _ _) Hne1) as [fs2 H2].
    rewrite H2. cbn [after raised rerun_called rerun].
    split; [reflexivity|]. split; [reflexivity|]. split; [reflexivity|].
    exists turned, (imap (turn_meta R (- delta) fs2) turned).
    split; [apply lookup_insert_eq|]. split; [apply lookup_insert_eq|].
    split; [exact Hlen|]. split; [now rewrite length_imap|].
    split.
    + intros k m Hk.
      exists (turn_meta R delta fs1 k m),
             (turn_meta R (- delta) fs2 k (turn_meta R delta fs1 k m)).
      assert (Ht : turned !! k = Some (turn_meta R delta fs1 k m)).
      { unfold turned. now rewrite list_lookup_imap, Hk. }
      split; [exact Ht|].
      split; [now rewrite list_lookup_imap, Ht|].
      destruct (turn_meta_fields R delta fs1 k m) as (Hr1 & Hn1 & Hp1).
      destruct (turn_meta_fields R (- delta) fs2 k
                  (turn_meta R delta fs1 k m)) as (Hr2 & Hn2 & Hp2).
      split; [exact Hr1|].
      split.
      { rewrite Hr2, Hr1, Zplus_mod_idemp_l. f_equal. lia. }
      repeat split; congruence.
    + intros key Hkey. now rewrite !lookup_insert_ne by congruence.
Qed.

Lemma toolbar_rotations_cancel_witness :
  let turn := rotate_all no_renderers (-90) turned_session in
  let back := rotate_all no_renderers 90 (after turn) in
  after turn !! "uploaded_meta"
  = Some (PyMetas (set_rotation 0 <$> (turned_meta <$> three_files)))
  /\ exists restored,
       after back !! "uploaded_meta" = Some (PyMetas restored)
       /\ forall k m, (turned_meta <$> three_files) !! k = Some m ->
            exists r, restored !! k = Some r /\ rotation r = 90.
Proof.
  cbv zeta. split; [vm_compute; reflexivity|].
  destruct (toolbar_rotations_cancel no_renderers (-90) turned_session
              (turned_meta <$> three_files) eq_refl) as [_ H].
  destruct H as (_ & _ & _ & turned & restored & _ & Hback & _ & _ & Hall & _);
    [discriminate|].
  exists restored. split; [exact Hback|].
  intros k m Hk. destruct (Hall k m Hk) as (t & r & _ & Hr & _ & Hrot & _).
  exists r. split; [exact Hr|]. rewrite Hrot.
  destruct k as [|[|[|k]]]; cbn in Hk; try discriminate Hk;
    injection Hk as <-; reflexivity.
Defined.

(** ** Inserting files at a card *)

Lemma clear_insert_keys_lookup s k :
  clear_insert_keys s !! k = if is_insert_key k then None else s !! k.
Proof.
  unfold clear_insert_keys. destruct (is_insert_key k) eqn:Hk.
  - apply map_lookup_filter_None_2. right. intros x _ H.
    change (is_insert_key k = false) in H. congruence.
  - destruct (s !! k) as [x|] eqn:Hs.
    + now apply map_lookup_filter_Some_2.
    + apply map_lookup_filter_None_2. now left.
Qed.

Lemma find_anchor_found f l :
  forall n p,
    find_anchor (name f) (file_size f) l n = Some p ->
    (n <= p)%nat
    /\ (exists g, l !! (p - n)%nat = Some g /\ same_anchor f g)
    /\ forall k g, (k < p - n)%nat -> l !! k = Some g -> ~ same_anchor f g.
Proof.
  induction l as [|g l IH]; intros n p H; [discriminate H|].
  cbn [find_anchor] in H.
  destruct (String.eqb (name g) (name f) && (file_size g =? file_size f))
    eqn:Hm.
  - injection H as <-. apply andb_true_iff in Hm as [Hn Hs].
    apply String.eqb_eq in Hn. apply Z.eqb_eq in Hs.
    split; [lia|]. rewrite Nat.sub_diag.
    split; [exists g; split; [reflexivity | now split]|].
    intros k g' Hk. lia.
  - apply IH in H as (Hle & (g' & Hg' & Hsame) & Hfirst).
    split; [lia|].
    replace (p - n)%nat with (S (p - S n)) by lia.
    split; [exists g'; now split|].
    intros [|k] g0 Hk Hg0.
    + injection Hg0 as <-. intros [Hn Hs].
      apply andb_false_iff in Hm as [Hm|Hm].
      * apply String.eqb_neq in Hm. contradiction.
      * apply Z.eqb_neq in Hm. contradiction.
    + apply (Hfirst k g0); [lia | exact Hg0].
Qed.

Lemma find_anchor_some f l i :
  l !! i = Some f ->
  forall n, is_Some (find_anchor (name f) (file_size f) l n).
Proof.
  revert i. induction l as [|g l IH]; intros i Hi n; [discriminate Hi|].
  cbn [find_anchor].
  destruct (String.eqb (name g) (name f) && (file_size g =? file_size f))
    eqn:Hm; [eauto|].
  destruct i as [|i].
  - injection Hi as ->. rewrite String.eqb_refl, Z.eqb_refl in Hm.
    discriminate Hm.
  - exact (IH i Hi (S n)).
Qed.

Lemma copies_are_files (l : list uploaded_file) :
  (fun af => {| name := name af; read := read af |}) <$> l = l.
Proof.
  induction l as [|[n r] l IH]; [reflexivity|]. cbn. now rewrite IH.
Qed.

Ltac untouched Hkey :=
  let H := fresh in
  intros H; apply Hkey; subst;
  repeat (first [left; reflexivity | right]).

(** X20.  Files inserted with the plus button of card [i] land right
    after the first file of the list that has the name and the size of
    the file on that card: after card [i] itself when no earlier file
    shares both, and after that earlier file otherwise (so, next to the
    original when the plus of its duplicate was pressed).  The other
    files keep their order, the metadata list gets the new entries at
    the same place, the first inserted file is selected, and the
    preview index, the insert position and the anchor are gone. *)
Theorem insert_lands_after_first_match pdf_pages py_int R s files meta i f
    new_file more :
  s !! "uploaded_files" = Some (PyFiles files) ->
  s !! "uploaded_meta" = Some (PyMetas meta) ->
  files !! i = Some f ->
  (forall v, s !! "insert_uploader_key" = Some v -> is_Some (as_int v)) ->
  let new_files := new_file :: more in
  let pressed := insert_here i s in
  let r := insert_files pdf_pages py_int R new_files (after pressed) in
  exists j,
    (j <= i)%nat
    /\ (exists g, files !! j = Some g /\ same_anchor f g)
    /\ (forall k g, (k < j)%nat -> files !! k = Some g -> ~ same_anchor f g)
    /\ raised pressed = None /\ rerun_called pressed = true
    /\ raised r = None /\ rerun_called r = true
    /\ after r !! "uploaded_files"
       = Some (PyFiles (take (S j) files ++ new_files ++ drop (S j) files))
    /\ after r !! "uploaded_meta"
       = Some (PyMetas (take (S j) meta
                        ++ (inserted_meta pdf_pages R <$> new_files)
                        ++ drop (S j) meta))
    /\ after r !! "selected_upload_index" = Some (PyInt (Z.of_nat j + 1))
    /\ after r !! "preview_file_index" = None
    /\ after r !! "insert_position" = None
    /\ after r !! "insert_anchor" = None
    /\ after r !! "insert_anchor_index" = None
    /\ forall key,
         ~ In key ["uploaded_files"; "uploaded_meta";
                   "selected_upload_index"; "preview_file_index";
                   "insert_position"; "insert_anchor";
                   "insert_anchor_index"; "open_insert_uploader"] ->
         is_insert_key key = false ->
         after r !! key = s !! key.
Proof.
  intros Hfiles Hmeta Hi Hkey. cbv zeta.
  destruct (find_anchor_some f files i Hi 0%nat) as [j Hj].
  destruct (find_anchor_found f files 0%nat j Hj) as (_ & Hg & Hfirst).
  rewrite Nat.sub_0_r in Hg, Hfirst.
  assert (Hji : (j <= i)%nat).
  { destruct (Nat.le_gt_cases j i) as [H|H]; [exact H|].
    exfalso. apply (Hfirst i f H Hi). now split. }
  exists j. split; [exact Hji|]. split; [exact Hg|]. split; [exact Hfirst|].
  (* the button *)
  set (s1 := <["insert_anchor_index" := PyInt (Z.of_nat i)]>
               (<["insert_anchor" := PyAnchor (name f) (file_size f)]>
                  (<["insert_position" := PyInt (Z.of_nat i + 1)]> s))).
  assert (Hk : exists k,
             as_int (default (PyInt 0) (s1 !! "insert_uploader_key"))
             = Some k).
  { unfold s1. rewrite !lookup_insert_ne by discriminate.
    destruct (s !! "insert_uploader_key") as [v|] eqn:Hv; cbn.
    - destruct (Hkey v eq_refl) as [k Hk]. eauto.
    - eauto. }
  destruct Hk as [k Hk].
  assert (Hpressed : insert_here i s
                     = rerun (<["open_insert_uploader" := PyBool true]>
                                (<["insert_uploader_key" := PyInt (k + 1)]>
                                   s1))).
  { unfold insert_here. cbv zeta.
    rewrite lookup_insert_ne by discriminate. rewrite Hfiles.
    cbn [default from_option id]. rewrite Hi. fold s1. now rewrite Hk. }
  rewrite Hpressed. cbn [after raised rerun_called rerun].
  set (s2 := <["open_insert_uploader" := PyBool true]> _).
  split; [reflexivity|]. split; [reflexivity|].
  (* the uploader *)
  set (s3 := <["open_insert_uploader" := PyBool false]> s2).
  assert (Hrun : insert_files pdf_pages py_int R (new_file :: more) s2
                 = rerun
                     (<["selected_upload_index" := PyInt (Z.of_nat j + 1)]>
                        (clear_insert_keys
                           (<["open_insert_uploader" := PyBool false]>
                              (delete "insert_position"
                                 (delete "selected_upload_index"
                                    (delete "preview_file_index"
                                       (<["uploaded_meta" :=
                                            PyMetas
                                              (take (S j) meta
                                               ++ (inserted_meta pdf_pages R
                                                     <$> new_file :: more)
                                               ++ drop (S j) meta)]>
                                          (<["uploaded_files" :=
                                               PyFiles
                                                 (take (S j) files
                                                  ++ (new_file :: more)
                                                  ++ drop (S j) files)]>
                                             (delete "insert_anchor_index"
                                                (delete "insert_anchor"
                                                   s3))))))))))).
  { unfold insert_files. cbv zeta.
    replace (session_get "open_insert_uploader" s2) with (PyBool true)
      by (unfold s2; now rewrite session_get_insert).
    cbn [truthy]. fold s3.
    replace (s3 !! "uploaded_files") with (Some (PyFiles files))
      by (unfold s3, s2, s1; now rewrite !lookup_insert_ne by discriminate).
    replace (s3 !! "uploaded_meta") with (Some (PyMetas meta))
      by (unfold s3, s2, s1; now rewrite !lookup_insert_ne by discriminate).
    cbn [files_listed metas_listed].
    replace (session_get "insert_position" s2)
      with (PyInt (Z.of_nat i + 1))
      by (unfold s2, s1;
          now rewrite !session_get_insert_ne, session_get_insert
            by discriminate).
    replace (session_get "insert_anchor" s3)
      with (PyAnchor (name f) (file_size f))
      by (unfold s3, s2, s1;
          now rewrite !session_get_insert_ne, session_get_insert
            by discriminate).
    unfold insertion_index. cbn [int_of]. rewrite Hj.
    replace (Z.to_nat (Z.of_nat j + 1)) with (S j) by lia.
    now rewrite copies_are_files. }
  rewrite Hrun. cbn [after raised rerun_called rerun].
  split; [reflexivity|]. split; [reflexivity|].
  split.
  { rewrite lookup_insert_ne by discriminate.
    rewrite clear_insert_keys_lookup.
    change (is_insert_key "uploaded_files") with false. cbv iota.
    rewrite lookup_insert_ne, !lookup_delete_ne, lookup_insert_ne
      by discriminate.
    apply lookup_insert_eq. }
  split.
  { rewrite lookup_insert_ne by discriminate.
    rewrite clear_insert_keys_lookup.
    change (is_insert_key "uploaded_meta") with false. cbv iota.
    rewrite lookup_insert_ne, !lookup_delete_ne by discriminate.
    apply lookup_insert_eq. }
  split; [apply lookup_insert_eq|].
  split; [rewrite lookup_insert_ne by discriminate;
          now rewrite clear_insert_keys_lookup|].
  split.
  { rewrite lookup_insert_ne by discriminate.
    rewrite clear_insert_keys_lookup.
    change (is_insert_key "insert_position") with false. cbv iota.
    rewrite lookup_insert_ne by discriminate. apply lookup_delete_eq. }
  split.
  { rewrite lookup_insert_ne by discriminate.
    rewrite clear_insert_keys_lookup.
    change (is_insert_key "insert_anchor") with false. cbv iota.
    rewrite lookup_insert_ne, !lookup_delete_ne, !lookup_insert_ne,
      lookup_delete_ne by discriminate.
    apply lookup_delete_eq. }
  split.
  { rewrite lookup_insert_ne by discriminate.
    rewrite clear_insert_keys_lookup.
    change (is_insert_key "insert_anchor_index") with false. cbv iota.
    rewrite lookup_insert_ne, !lookup_delete_ne, !lookup_insert_ne
      by discriminate.
    apply lookup_delete_eq. }
  intros key Hin Hclear. cbn [In] in Hin.
  rewrite lookup_insert_ne by untouched Hin.
  rewrite clear_insert_keys_lookup, Hclear.
  rewrite lookup_insert_ne, !lookup_delete_ne, !lookup_insert_ne,
    !lookup_delete_ne by untouched Hin.
  unfold s3, s2, s1.
  rewrite lookup_insert_ne by untouched Hin.
  rewrite lookup_insert_ne by untouched Hin.
  destruct (decide (key = "insert_uploader_key")) as [->|Hne];
    [discriminate Hclear|].
  rewrite lookup_insert_ne by congruence.
  now rewrite !lookup_insert_ne by untouched Hin.
Qed.

Lemma insert_lands_after_first_match_witness :
  let pressed := insert_here 1 duplicated_session in
  let r := insert_files (fun _ => None) sample_int no_renderers [fourth_file]
             (after pressed) in
  exists before_insert after_insert,
    duplicated_session !! "uploaded_files" = Some (PyFiles before_insert)
    /\ name <$> before_insert = ["a.pdf"; "a.pdf"; "b.pdf"; "c.pdf"]
    /\ after r !! "uploaded_files" = Some (PyFiles after_insert)
    /\ name <$> after_insert = ["a.pdf"; "d.pdf"; "a.pdf"; "b.pdf"; "c.pdf"].
Proof.
  cbv zeta.
  destruct (duplicated_session !! "uploaded_files")
    as [[| | | |files| | | |]|] eqn:Hf;
    try (vm_compute in Hf; discriminate Hf).
  destruct (duplicated_session !! "uploaded_meta")
    as [[| | | | |meta| | |]|] eqn:Hm;
    try (vm_compute in Hm; discriminate Hm).
  assert (Hfiles : files = list_insert_at 1
                             {| name := "a.pdf"; read := [Byte.x01] |}
                             three_files).
  { vm_compute in Hf. injection Hf as <-. reflexivity. }
  destruct (insert_lands_after_first_match (fun _ => None) sample_int
              no_renderers duplicated_session files meta 1
              {| name := "a.pdf"; read := [Byte.x01] |} fourth_file [])
    as (j & Hj & _ & Hfirst & _ & _ & _ & _ & Hafter & _).
  - exact Hf.
  - exact Hm.
  - now rewrite Hfiles.
  - intros v Hv. vm_compute in Hv. discriminate Hv.
  - exists files. eexists. split; [reflexivity|].
    split; [now rewrite Hfiles|]. split; [exact Hafter|].
    destruct j as [|[|j]]; [now rewrite Hfiles| |lia].
    exfalso. apply (Hfirst 0%nat {| name := "a.pdf"; read := [Byte.x01] |});
      [lia | now rewrite Hfiles | now split].
Defined.

(** * Stage 3: classification *)

Lemma shares_cons total_files i n :
  shares total_files i (S n)
  = (inject_Z (Z.of_nat i + 1) / inject_Z total_files)%Q
    :: shares total_files (S i) n.
Proof. reflexivity. Qed.

Lemma classify_uploads_returns {C}
    (classify : bytes -> string -> string -> string -> outcome C)
    visa_type total_files files :
  (forall content filename document_id,
     is_ret (classify content filename visa_type document_id) = true) ->
  forall i done shown,
  exists results,
    classify_uploads classify visa_type total_files i files done shown
    = (shown ++ shares total_files i (length files), Ret (done ++ results))
    /\ length results = length files
    /\ forall k f, files !! k = Some f ->
         exists c, results !! k = Some c
                   /\ classify (read f) (name f) visa_type
                        ("file_" +:+ str (Z.of_nat (i + k))) = Ret c.
Proof.
  intros Hret. induction files as [|f files IH]; intros i done shown.
  - exists []. cbn. rewrite !app_nil_r. split; [reflexivity|].
    split; [reflexivity|]. intros k f Hk. discriminate Hk.
  - cbn [classify_uploads].
    destruct (classify (read f) (name f) visa_type
                ("file_" +:+ str (Z.of_nat i))) as [c|e] eqn:Hc.
    + destruct (IH (S i) (done ++ [c])
                  (shown ++ [(inject_Z (Z.of_nat i + 1)
                              / inject_Z total_files)%Q]))
        as (results & Hrun & Hlen & Hall).
      exists (c :: results). rewrite Hrun.
      cbn [length]. rewrite shares_cons, <- !app_assoc. cbn [app].
      split; [reflexivity|]. split; [now rewrite Hlen|].
      intros [|k] g Hk.
      * injection Hk as <-. exists c. rewrite Nat.add_0_r. now split.
      * destruct (Hall k g Hk) as (c' & Hc' & Hcall).
        exists c'. split; [exact Hc'|].
        now replace (i + S k)%nat with (S i + k)%nat by lia.
    + specialize (Hret (read f) (name f) ("file_" +:+ str (Z.of_nat i))).
      rewrite Hc in Hret. discriminate Hret.
Qed.

Lemma classify_archive_returns {C}
    (classify : bytes -> string -> string -> string -> outcome C)
    visa_type d total_files offset paths :
  (forall content filename document_id,
     is_ret (classify content filename visa_type document_id) = true) ->
  Forall (fun p => is_Some (d !! p)) paths ->
  forall i done shown,
  exists results,
    classify_archive classify visa_type d total_files offset i
      (PathStr <$> paths) done shown
    = (shown ++ shares total_files (offset + i) (length paths),
       Ret (done ++ results))
    /\ length results = length paths
    /\ forall k p, paths !! k = Some p ->
         exists c content,
           results !! k = Some c /\ d !! p = Some content
           /\ classify content (basename p) visa_type
                ("zip_" +:+ str (Z.of_nat (i + k))) = Ret c.
Proof.
  intros Hret Hdisk.
  induction paths as [|p paths IH]; intros i done shown.
  - exists []. cbn. rewrite !app_nil_r. split; [reflexivity|].
    split; [reflexivity|]. intros k p Hk. discriminate Hk.
  - apply Forall_cons in Hdisk as [[content Hp] Hdisk].
    cbn [fmap list_fmap classify_archive]. rewrite Hp.
    destruct (classify content (basename p) visa_type
                ("zip_" +:+ str (Z.of_nat i))) as [c|e] eqn:Hc.
    + destruct (IH Hdisk (S i) (done ++ [c])
                  (shown ++ [(inject_Z (Z.of_nat offset + Z.of_nat i + 1)
                              / inject_Z total_files)%Q]))
        as (results & Hrun & Hlen & Hall).
      exists (c :: results).
      change (list_fmap _ _ PathStr paths) with (PathStr <$> paths).
      rewrite Hrun.
      cbn [length]. rewrite shares_cons, <- !app_assoc. cbn [app].
      replace (offset + S i)%nat with (S (offset + i)) by lia.
      replace (Z.of_nat (offset + i)) with (Z.of_nat offset + Z.of_nat i)
        by lia.
      split; [reflexivity|]. split; [now rewrite Hlen|].
      intros [|k] q Hk.
      * injection Hk as <-. exists c, content. rewrite Nat.add_0_r.
        now split.
      * destruct (Hall k q Hk) as (c' & content' & Hc' & Hq & Hcall).
        exists c', content'. split; [exact Hc'|]. split; [exact Hq|].
        now replace (i + S k)%nat with (S i + k)%nat by lia.
    + specialize (Hret content (basename p) ("zip_" +:+ str (Z.of_nat i))).
      rewrite Hc in Hret. discriminate Hret.
Qed.

Lemma shares_app total_files i n m :
  shares total_files i n ++ shares total_files (i + n) m
  = shares total_files i (n + m).
Proof. unfold shares. now rewrite seq_app, fmap_app. Qed.

(** X21.  After a ZIP upload that found at least one PDF, stage 3
    cannot classify: the stored paths name files that were removed with
    the temporary directory, so the classification raises, whatever the
    classifier does.  With a classifier that answers, every uploaded
    file is classified first, and then opening the first archive path
    raises FileNotFoundError. *)
Theorem zip_upload_breaks_classification {C}
    (classify : bytes -> string -> string -> string -> outcome C)
    Zp zip_bytes d d' zips visa_type files :
  (forall listed p,
     In p (rglob_pdf Zp listed (temporary_directory Zp)) ->
     under (temporary_directory Zp) p = true) ->
  zip_upload Zp zip_bytes d = (d', Ret zips) ->
  zips <> [] ->
  let run := classify_documents classify visa_type d' files
               (PathStr <$> zips) in
  is_ret (snd run) = false
  /\ ((forall content filename document_id,
         is_ret (classify content filename visa_type document_id) = true) ->
      snd run = Raise "FileNotFoundError"
      /\ length (fst run) = length files).
Proof.
  intros Hlisting Hzip Hne. cbv zeta.
  destruct (zip_upload_returns _ _ _ _ _ Hzip) as (listed & -> & ->).
  destruct (rglob_pdf Zp listed (temporary_directory Zp)) as [|p rest] eqn:Hl;
    [now contradiction Hne|].
  assert (Hgone : cleanup (temporary_directory Zp) listed !! p = None).
  { apply cleanup_removes, (Hlisting listed p). rewrite Hl. now left. }
  unfold classify_documents. cbv zeta. split.
  - destruct (classify_uploads _ _ _ _ _ _ _) as [shown [results|e]];
      [|reflexivity].
    cbn [fmap list_fmap classify_archive]. now rewrite Hgone.
  - intros Hret.
    destruct (classify_uploads_returns classify visa_type
                (Z.of_nat (length files)
                 + Z.of_nat (length (PathStr <$> p :: rest)))
                files Hret 0%nat [] []) as (results & -> & _).
    cbn [fmap list_fmap classify_archive]. rewrite Hgone. cbn [fst snd].
    split; [reflexivity|]. unfold shares.
    now rewrite length_app, length_fmap, length_seq.
Qed.

Lemma zip_upload_breaks_classification_witness :
  classify_documents sample_classify "O-1A"
    (fst (zip_upload sample_zip_env [Byte.x50] ∅)) three_files
    [PathStr "/tmp/tmpzip/a.pdf"]
  = (shares 4 0 3, Raise "FileNotFoundError").
Proof.
  destruct (zip_upload_breaks_classification sample_classify sample_zip_env
              [Byte.x50] ∅ (fst (zip_upload sample_zip_env [Byte.x50] ∅))
              ["/tmp/tmpzip/a.pdf"] "O-1A" three_files) as [_ H].
  - intros listed p Hp. cbn [rglob_pdf sample_zip_env] in Hp.
    apply filter_In in Hp as [_ Hp]. apply andb_true_iff in Hp as [Hp _].
    exact Hp.
  - vm_compute. reflexivity.
  - discriminate.
  - destruct H as [Hraise _]; [reflexivity|].
    destruct (classify_documents _ _ _ _ _) as [shown o] eqn:Hrun.
    cbn [snd] in Hraise. subst o. f_equal.
    apply (f_equal fst) in Hrun. cbn [fst] in Hrun. rewrite <- Hrun.
    vm_compute. reflexivity.
Defined.

Lemma shares_range total i n q :
  (i + n <= total)%nat -> In q (shares (Z.of_nat total) i n) ->
  (0 < q /\ q <= 1)%Q.
Proof.
  intros Hle Hq. unfold shares in Hq. apply in_map_iff in Hq.
  destruct Hq as (k & <- & Hk). apply in_seq in Hk.
  assert (Ht : (0 < inject_Z (Z.of_nat total))%Q).
  { change 0%Q with (inject_Z 0). rewrite <- Zlt_Qlt. lia. }
  split.
  - apply Qlt_shift_div_l; [exact Ht|]. rewrite Qmult_0_l.
    change 0%Q with (inject_Z 0). rewrite <- Zlt_Qlt. lia.
  - apply Qle_shift_div_r; [exact Ht|]. rewrite Qmult_1_l.
    rewrite <- Zle_Qle. lia.
Qed.

Lemma shares_last total :
  total <> 0%nat ->
  exists q, last (shares (Z.of_nat total) 0 total) = Some q /\ (q == 1)%Q.
Proof.
  intros Hne. destruct total as [|n]; [now contradiction Hne|].
  unfold shares. rewrite seq_S, fmap_app. cbn [fmap list_fmap Nat.add].
  rewrite last_snoc. eexists. split; [reflexivity|].
  replace (Z.of_nat n + 1) with (Z.of_nat (S n)) by lia.
  apply Qmult_inv_r. intros H.
  unfold Qeq in H. cbn [Qnum Qden inject_Z] in H. lia.
Qed.

(** X22.  With a classifier that answers and archive paths that exist,
    the classification returns one result per document, the uploads
    first and then the archive entries, each in its order and asked for
    under the ids [file_0], [file_1], ... and [zip_0], [zip_1], ...
    The progress bar is set once per document, to values that grow
    from above 0 to exactly 1 and never exceed it. *)
Theorem classification_covers_every_document {C}
    (classify : bytes -> string -> string -> string -> outcome C)
    visa_type d files paths :
  (forall content filename document_id,
     is_ret (classify content filename visa_type document_id) = true) ->
  Forall (fun p => is_Some (d !! p)) paths ->
  let total := (length files + length paths)%nat in
  let run := classify_documents classify visa_type d files
               (PathStr <$> paths) in
  exists results,
    snd run = Ret results
    /\ length results = total
    /\ (forall k f, files !! k = Some f ->
          exists c, results !! k = Some c
                    /\ classify (read f) (name f) visa_type
                         ("file_" +:+ str (Z.of_nat k)) = Ret c)
    /\ (forall k p, paths !! k = Some p ->
          exists c content,
            results !! (length files + k)%nat = Some c
            /\ d !! p = Some content
            /\ classify content (basename p) visa_type
                 ("zip_" +:+ str (Z.of_nat k)) = Ret c)
    /\ fst run = shares (Z.of_nat total) 0 total
    /\ (forall q, In q (fst run) -> (0 < q /\ q <= 1)%Q)
    /\ (total <> 0%nat ->
        exists q, last (fst run) = Some q /\ (q == 1)%Q).
Proof.
  intros Hret Hdisk. cbv zeta. unfold classify_documents. cbv zeta.
  rewrite length_fmap.
  replace (Z.of_nat (length files) + Z.of_nat (length paths))
    with (Z.of_nat (length files + length paths)) by lia.
  set (total := (length files + length paths)%nat).
  destruct (classify_uploads_returns classify visa_type (Z.of_nat total)
              files Hret 0%nat [] []) as (first & -> & Hlen1 & Hall1).
  destruct (classify_archive_returns classify visa_type d (Z.of_nat total)
              (length files) paths Hret Hdisk 0%nat ([] ++ first)
              ([] ++ shares (Z.of_nat total) 0 (length files)))
    as (second & -> & Hlen2 & Hall2).
  cbn [app fst snd]. rewrite Nat.add_0_r.
  assert (Hshares : shares (Z.of_nat total) 0 (length files)
                    ++ shares (Z.of_nat total) (length files) (length paths)
                    = shares (Z.of_nat total) 0 total).
  { exact (shares_app (Z.of_nat total) 0 (length files) (length paths)). }
  rewrite Hshares.
  exists (first ++ second).
  split; [reflexivity|].
  split; [rewrite length_app; unfold total; lia|].
  split.
  { intros k f Hk. destruct (Hall1 k f Hk) as (c & Hc & Hcall).
    exists c. split; [|exact Hcall].
    rewrite lookup_app_l by (rewrite Hlen1; now apply lookup_lt_Some in Hk).
    exact Hc. }
  split.
  { intros k p Hk. destruct (Hall2 k p Hk) as (c & content & Hc & Hp & Hcall).
    exists c, content. split; [|now split].
    rewrite lookup_app_r by lia.
    now replace (length files + k - length first)%nat with k by lia. }
  split; [reflexivity|].
  split; [intros q Hq; apply (shares_range total 0 total q); [lia|exact Hq]|].
  apply shares_last.
Qed.

Lemma classification_covers_every_document_witness :
  classify_documents sample_classify "O-1A" archive_disk three_files
    [PathStr "/data/z.pdf"]
  = (shares 4 0 4, Ret ["file_0"; "file_1"; "file_2"; "zip_0"]).
Proof.
  destruct (classification_covers_every_document sample_classify "O-1A"
              archive_disk three_files ["/data/z.pdf"])
    as (results & Hres & _ & _ & _ & Hshown & _).
  - reflexivity.
  - repeat constructor. vm_compute. eauto.
  - destruct (classify_documents _ _ _ _ _) as [shown o] eqn:Hrun.
    cbn [fst snd] in Hres, Hshown. subst shown. f_equal.
    apply (f_equal snd) in Hrun. cbn [snd] in Hrun. rewrite <- Hrun.
    vm_compute. reflexivity.
Defined.

(** ** Files and metadata stay aligned *)

Ltac through_updates :=
  repeat first [ rewrite lookup_insert_ne by discriminate
               | rewrite lookup_delete_ne by discriminate ].

Ltac still_aligned files meta Hf Hm Hlen :=
  exists files, meta;
  split; [through_updates; exact Hf|];
  split; [through_updates; exact Hm | exact Hlen].

Lemma delete_file_aligned idx s :
  aligned s -> aligned (after (delete_file idx s)).
Proof.
  intros (files & meta & Hf & Hm & Hlen). unfold delete_file.
  destruct (idx <? 0); [still_aligned files meta Hf Hm Hlen|].
  rewrite Hf, Hm. cbn [default from_option id]. cbv zeta.
  assert (Hr : in_range idx meta = in_range idx files)
    by (unfold in_range; now rewrite Hlen).
  rewrite Hr.
  destruct (in_range idx files) eqn:Hin;
    [|still_aligned files meta Hf Hm Hlen].
  apply in_range_spec in Hin. cbn [after rerun].
  exists (delete (Z.to_nat idx) files), (delete (Z.to_nat idx) meta).
  split.
  { rewrite adjust_selected_other, adjust_preview_other by discriminate.
    rewrite lookup_insert_ne by discriminate. apply lookup_insert_eq. }
  split.
  { rewrite adjust_selected_other, adjust_preview_other by discriminate.
    apply lookup_insert_eq. }
  rewrite !length_delete by (apply lookup_lt_is_Some_2; lia). lia.
Qed.

Lemma rotate_file_aligned R idx s :
  aligned s -> aligned (after (rotate_file R idx s)).
Proof.
  intros (files & meta & Hf & Hm & Hlen). unfold rotate_file.
  destruct (idx <? 0); [still_aligned files meta Hf Hm Hlen|]. rewrite Hm.
  destruct (meta !! Z.to_nat idx) as [m|];
    [|still_aligned files meta Hf Hm Hlen].
  destruct (in_range idx meta); [|still_aligned files meta Hf Hm Hlen].
  cbv zeta. rewrite Hf. cbn [default from_option id].
  assert (Hturned : forall m',
            aligned (<["uploaded_meta" :=
                         PyMetas (<[Z.to_nat idx := m']> meta)]> s)).
  { intros m'. exists files, (<[Z.to_nat idx := m']> meta).
    split; [now rewrite lookup_insert_ne by discriminate|].
    split; [apply lookup_insert_eq | now rewrite length_insert]. }
  destruct (files !! Z.to_nat idx) as [f|]; [|apply Hturned].
  destruct (in_range idx files); [|apply Hturned].
  destruct (generate_thumbnail _ _ _ _ _ _) as [[|c t]|]; apply Hturned.
Qed.

Lemma list_insert_at_length {A} n (x : A) l :
  length (list_insert_at n x l) = S (length l).
Proof.
  unfold list_insert_at.
  rewrite length_app, length_take. cbn [length]. rewrite length_drop. lia.
Qed.

Lemma duplicate_file_aligned R idx s :
  aligned s -> aligned (after (duplicate_file R idx s)).
Proof.
  intros (files & meta & Hf & Hm & Hlen). unfold duplicate_file.
  rewrite Hf, Hm. cbn [files_or_empty metas_or_empty].
  destruct (files !! Z.to_nat idx) as [src|];
    [|still_aligned files meta Hf Hm Hlen].
  destruct (in_range idx files); [|still_aligned files meta Hf Hm Hlen].
  cbv zeta. cbn [after rerun].
  eexists _, _. split; [|split].
  - rewrite clear_dynamic_keys_lookup.
    change (is_dynamic_key "uploaded_files") with false. cbv iota.
    rewrite !lookup_insert_ne by discriminate. apply lookup_insert_eq.
  - rewrite clear_dynamic_keys_lookup.
    change (is_dynamic_key "uploaded_meta") with false. cbv iota.
    rewrite !lookup_insert_ne by discriminate. apply lookup_insert_eq.
  - rewrite !list_insert_at_length. now rewrite Hlen.
Qed.

Lemma sort_files_aligned lower py_int reverse s :
  aligned s -> aligned (after (sort_files lower py_int reverse s)).
Proof.
  intros (files & meta & Hf & Hm & Hlen).
  rewrite (sort_files_run lower py_int reverse s files meta Hf Hm Hlen).
  cbv zeta. destruct (bool_decide _);
    [|still_aligned files meta Hf Hm Hlen].
  cbn [after rerun foldl]. eexists _, _. split; [|split].
  - kept_key.
    rewrite !follow_sort_other, !reorder_related_other by discriminate.
    rewrite lookup_insert_ne by discriminate. apply lookup_insert_eq.
  - kept_key.
    rewrite !follow_sort_other, !reorder_related_other by discriminate.
    apply lookup_insert_eq.
  - now rewrite !length_fmap.
Qed.

Lemma rotate_all_aligned R delta s :
  aligned s -> aligned (after (rotate_all R delta s)).
Proof.
  intros (files & meta & Hf & Hm & Hlen).
  destruct meta as [|m meta].
  - unfold rotate_all. rewrite Hm. cbn.
    still_aligned files (@nil upload_meta) Hf Hm Hlen.
  - destruct (rotate_all_run R delta s (m :: meta) Hm ltac:(discriminate))
      as [fs ->].
    cbn [after rerun]. eexists files, _.
    split; [now rewrite lookup_insert_ne by discriminate|].
    split; [apply lookup_insert_eq|]. now rewrite length_imap.
Qed.

Lemma insert_here_aligned i s :
  aligned s -> aligned (after (insert_here i s)).
Proof.
  intros (files & meta & Hf & Hm & Hlen). unfold insert_here. cbv zeta.
  rewrite lookup_insert_ne by discriminate. rewrite Hf.
  cbn [default from_option id].
  destruct (files !! i) as [f|];
    (destruct (as_int _); cbn [after rerun raising];
     still_aligned files meta Hf Hm Hlen).
Qed.

Lemma insert_files_aligned pdf_pages py_int R new_files s :
  aligned s ->
  aligned (after (insert_files pdf_pages py_int R new_files s)).
Proof.
  intros (files & meta & Hf & Hm & Hlen). unfold insert_files. cbv zeta.
  set (s0 := if truthy (session_get "open_insert_uploader" s)
             then <["open_insert_uploader" := PyBool false]> s else s).
  assert (Hf0 : s0 !! "uploaded_files" = Some (PyFiles files)).
  { unfold s0. destruct (truthy _); through_updates; exact Hf. }
  assert (Hm0 : s0 !! "uploaded_meta" = Some (PyMetas meta)).
  { unfold s0. destruct (truthy _); through_updates; exact Hm. }
  destruct new_files as [|af more];
    [still_aligned files meta Hf0 Hm0 Hlen|].
  rewrite Hf0, Hm0. cbn [files_listed metas_listed].
  destruct (insertion_index _ _ _ _ _) as [insert_at|e];
    [|still_aligned files meta Hf0 Hm0 Hlen].
  cbn [after rerun]. eexists _, _. split; [|split].
  - rewrite lookup_insert_ne by discriminate.
    rewrite clear_insert_keys_lookup.
    change (is_insert_key "uploaded_files") with false. cbv iota.
    through_updates. apply lookup_insert_eq.
  - rewrite lookup_insert_ne by discriminate.
    rewrite clear_insert_keys_lookup.
    change (is_insert_key "uploaded_meta") with false. cbv iota.
    through_updates. apply lookup_insert_eq.
  - rewrite !length_app, !length_take, !length_drop, !length_fmap. lia.
Qed.

Lemma next_run_keeps_metadata pdf_pages R s :
  aligned s ->
  raised (individual_pdfs pdf_pages R [] s) = None
  /\ after (individual_pdfs pdf_pages R [] s) !! "uploaded_meta"
     = s !! "uploaded_meta".
Proof.
  intros (files & meta & Hf & Hm & Hlen). unfold individual_pdfs.
  rewrite Hf. cbn [default from_option id].
  destruct (negb (truthy (PyFiles files))); [now split|]. cbv zeta.
  set (s0 := if bool_decide (is_Some (s !! "add_more_key")) then s
             else <["add_more_key" := PyInt 0]> s).
  assert (Hm0 : s0 !! "uploaded_meta" = Some (PyMetas meta)).
  { unfold s0. destruct (bool_decide _); through_updates; exact Hm. }
  rewrite Hm0, <- Hlen, Nat.eqb_refl. cbn [negb after raised returned].
  split; [reflexivity|]. now rewrite Hm0, Hm.
Qed.

(** X23.  Every handler of the upload page keeps the list of files and
    the list of metadata at the same length: deleting, rotating and
    duplicating a file, sorting, the rotation buttons of the toolbar,
    the plus button and the insertion.  The next script run therefore
    finds nothing to regenerate and leaves the metadata, the rotations
    among them, as the handler left it. *)
Theorem handlers_keep_metadata_aligned pdf_pages py_int lower R s idx
    reverse delta i new_files :
  aligned s ->
  forall r,
    In r [delete_file idx s; rotate_file R idx s; duplicate_file R idx s;
          sort_files lower py_int reverse s; rotate_all R delta s;
          insert_here i s;
          insert_files pdf_pages py_int R new_files s] ->
    aligned (after r)
    /\ raised (individual_pdfs pdf_pages R [] (after r)) = None
    /\ after (individual_pdfs pdf_pages R [] (after r)) !! "uploaded_meta"
       = after r !! "uploaded_meta".
Proof.
  intros Hs r Hr.
  assert (Hafter : aligned (after r)).
  { cbn [In] in Hr.
    destruct Hr as [<-|[<-|[<-|[<-|[<-|[<-|[<-|[]]]]]]]].
    - now apply delete_file_aligned.
    - now apply rotate_file_aligned.
    - now apply duplicate_file_aligned.
    - now apply sort_files_aligned.
    - now apply rotate_all_aligned.
    - now apply insert_here_aligned.
    - now apply insert_files_aligned. }
  split; [exact Hafter|]. now apply next_run_keeps_metadata.
Qed.

Lemma handlers_keep_metadata_aligned_witness :
  let r := rotate_file no_renderers 1 turned_session in
  exists meta,
    after r !! "uploaded_meta" = Some (PyMetas meta)
    /\ rotation <$> meta = [90; 180; 90]
    /\ after (individual_pdfs (fun _ => None) no_renderers [] (after r))
         !! "uploaded_meta" = Some (PyMetas meta).
Proof.
  cbv zeta.
  destruct (handlers_keep_metadata_aligned (fun _ => None) sample_int
              sample_lower no_renderers turned_session 1 false 90 0%nat []
              ltac:(exists three_files, (turned_meta <$> three_files);
                    repeat split)
              (rotate_file no_renderers 1 turned_session))
    as (_ & _ & Hnext).
  - right. left. reflexivity.
  - eexists. split; [vm_compute; reflexivity|].
    split; [reflexivity|]. rewrite Hnext. vm_compute. reflexivity.
Defined.

(** ** The pages view *)

Lemma collect_page_step R i f m s cards p :
  let st := collect_page R i f m (s, cards) p in
  (forall key v, s !! key = Some v -> fst st !! key = Some v)
  /\ exists card,
       snd st = cards ++ [card]
       /\ file_index card = i /\ page_index card = p
       /\ file_name card = meta_name m
       /\ fst st !! cache_key f p = Some (card_thumb card).
Proof.
  cbv zeta. unfold collect_page. cbn [fst snd].
  destruct (s !! cache_key f p) as [v|] eqn:Hkey.
  - rewrite bool_decide_eq_true_2 by eauto. split; [auto|].
    eexists. split; [reflexivity|]. cbn. repeat split.
    unfold session_get. now rewrite Hkey.
  - rewrite bool_decide_eq_false_2 by (intros [? ?]; discriminate).
    split.
    + intros key v Hv. rewrite lookup_insert_ne; [exact Hv|].
      intros <-. congruence.
    + eexists. split; [reflexivity|]. cbn. repeat split.
      rewrite session_get_insert. apply lookup_insert_eq.
Qed.

Lemma shows_cache_grows files meta s s' cards :
  (forall key v, s !! key = Some v -> s' !! key = Some v) ->
  shows_cache files meta s cards -> shows_cache files meta s' cards.
Proof.
  intros Hgrow Hshow card Hcard.
  destruct (Hshow card Hcard) as (f & m & Hf & Hm & Hp & Hn & Hs).
  exists f, m. repeat split; auto.
Qed.

Lemma collect_file_pages R files meta i f m :
  files !! i = Some f -> meta !! i = Some m ->
  forall n from s cards,
    (from + n <= num_pages_of m)%nat ->
    shows_cache files meta s cards ->
    let st := foldl (collect_page R i f m) (s, cards) (seq from n) in
    (forall key v, s !! key = Some v -> fst st !! key = Some v)
    /\ shows_cache files meta (fst st) (snd st)
    /\ length (snd st) = (length cards + n)%nat.
Proof.
  intros Hf Hm. induction n as [|n IH]; intros from s cards Hle Hshow.
  - cbn. split; [auto|]. split; [exact Hshow | lia].
  - cbn [seq foldl].
    destruct (collect_page_step R i f m s cards from)
      as (Hgrow & card & Hcards & Hi & Hp & Hn & Hs).
    cbv zeta in Hgrow, Hcards, Hs.
    destruct (collect_page R i f m (s, cards) from) as [s1 cards1] eqn:Hst.
    cbn [fst snd] in Hgrow, Hcards, Hs. subst cards1.
    destruct (IH (S from) s1 (cards ++ [card]) ltac:(lia)) as (Hg & Hsh & Hl).
    { intros c Hc. apply elem_of_app in Hc as [Hc|Hc].
      - exact (shows_cache_grows files meta s s1 cards Hgrow Hshow c Hc).
      - apply list_elem_of_singleton in Hc as ->.
        exists f, m. rewrite Hi, Hp. repeat split; auto. lia. }
    cbv zeta in Hg, Hsh, Hl.
    split; [intros key v Hv; apply Hg, Hgrow, Hv|].
    split; [exact Hsh|]. rewrite Hl, length_app. cbn. lia.
Qed.

Lemma collect_pages_run R files meta :
  forall rest i s cards,
    (forall k f, rest !! k = Some f -> files !! (i + k)%nat = Some f) ->
    (i + length rest <= length meta)%nat ->
    shows_cache files meta s cards ->
    exists s' cards',
      collect_pages R meta i rest s cards = (s', Ret cards')
      /\ (forall key v, s !! key = Some v -> s' !! key = Some v)
      /\ shows_cache files meta s' cards'
      /\ length cards'
         = (length cards
            + sum_list (num_pages_of
                          <$> drop i (take (i + length rest) meta)))%nat.
Proof.
  induction rest as [|f rest IH]; intros i s cards Hfiles Hlen Hshow.
  - exists s, cards. cbn [collect_pages length].
    rewrite Nat.add_0_r, drop_ge by (rewrite length_take; lia). cbn.
    split; [reflexivity|]. split; [auto|]. split; [exact Hshow | lia].
  - cbn [collect_pages length] in *.
    destruct (lookup_lt_is_Some_2 meta i ltac:(lia)) as [m Hm]. rewrite Hm.
    assert (Hf : files !! i = Some f).
    { rewrite <- (Nat.add_0_r i). now apply Hfiles. }
    destruct (collect_file_pages R files meta i f m Hf Hm (num_pages_of m)
                0%nat s cards ltac:(lia) Hshow) as (Hg1 & Hs1 & Hl1).
    cbv zeta in Hg1, Hs1, Hl1.
    destruct (foldl _ _ _) as [s1 cards1]. cbn [fst snd] in *.
    destruct (IH (S i) s1 cards1) as (s' & cards' & Hrun & Hg & Hs & Hl).
    { intros k g Hk. replace (S i + k)%nat with (i + S k)%nat by lia.
      now apply Hfiles. }
    { lia. }
    { exact Hs1. }
    exists s', cards'. split; [exact Hrun|].
    split; [intros key v Hv; apply Hg, Hg1, Hv|]. split; [exact Hs|].
    rewrite Hl, Hl1.
    replace (i + S (length rest))%nat with (S i + length rest)%nat by lia.
    rewrite (drop_S _ m i)
      by (rewrite lookup_take_lt by lia; exact Hm).
    cbn [fmap list_fmap sum_list sum_list_with id]. lia.
Qed.

(** X24.  The pages view shows one card per page of every file whose
    page count is known (a file without one shows none).  The thumbnail
    of a card is what the session holds under the key made of the
    file's name, its size and the page index; an entry already there is
    never replaced.  Two files of the same name and size therefore show
    the same thumbnails page by page, whatever their contents. *)
Theorem pages_view_shares_thumbnails R s files meta :
  length files = length meta ->
  exists s' cards,
    pages_view R files meta s = (s', Ret cards)
    /\ length cards = sum_list (num_pages_of <$> meta)
    /\ (forall key v, s !! key = Some v -> s' !! key = Some v)
    /\ shows_cache files meta s' cards
    /\ forall c1 c2 f g,
         c1 ∈ cards -> c2 ∈ cards ->
         files !! file_index c1 = Some f ->
         files !! file_index c2 = Some g ->
         same_anchor f g -> page_index c1 = page_index c2 ->
         card_thumb c1 = card_thumb c2.
Proof.
  intros Hlen. unfold pages_view.
  destruct (collect_pages_run R files meta files 0%nat s [])
    as (s' & cards & Hrun & Hgrow & Hshow & Hl).
  - intros k f Hk. exact Hk.
  - cbn. lia.
  - intros c Hc. now apply elem_of_nil in Hc.
  - exists s', cards. split; [exact Hrun|].
    split.
    { rewrite Hl. cbn [length Nat.add]. rewrite drop_0, Hlen.
      now rewrite take_ge by lia. }
    split; [exact Hgrow|]. split; [exact Hshow|].
    intros c1 c2 f g H1 H2 Hf Hg [Hname Hsize] Hp.
    destruct (Hshow c1 H1) as (f1 & _ & Hf1 & _ & _ & _ & Hs1).
    destruct (Hshow c2 H2) as (g1 & _ & Hg1 & _ & _ & _ & Hs2).
    rewrite Hf in Hf1. injection Hf1 as <-.
    rewrite Hg in Hg1. injection Hg1 as <-.
    assert (Hkey : cache_key g (page_index c2) = cache_key f (page_index c1)).
    { unfold cache_key. now rewrite Hname, Hsize, Hp. }
    rewrite Hkey in Hs2. congruence.
Qed.

Lemma pages_view_shares_thumbnails_witness :
  let one_page f := {| meta_name := name f; rotation := 0;
                       meta_pages := Some 1; thumb := None |} in
  exists s' c1 c2,
    pages_view echo_renderers namesakes (one_page <$> namesakes) ∅
    = (s', Ret [c1; c2])
    /\ file_index c1 = 0%nat /\ file_index c2 = 1%nat
    /\ card_thumb c1 = card_thumb c2
    /\ page_thumb echo_renderers
         {| name := "scan.pdf"; read := [Byte.x01; Byte.x01] |} 0
       <> page_thumb echo_renderers
            {| name := "scan.pdf"; read := [Byte.x02; Byte.x02] |} 0.
Proof.
  cbv zeta.
  assert (Hlen0 : length namesakes
                  = length ((fun f => {| meta_name := name f; rotation := 0;
                                         meta_pages := Some 1;
                                         thumb := None |})
                              <$> namesakes)) by reflexivity.
  destruct (pages_view_shares_thumbnails echo_renderers ∅ namesakes _ Hlen0)
    as (s' & cards & Hrun & Hlen & _ & Hshow & Hsame).
  destruct cards as [|c1 [|c2 [|c3 cards]]]; try discriminate Hlen.
  exists s', c1, c2. split; [exact Hrun|].
  assert (Hcards : Ret [c1; c2]
                   = snd (pages_view echo_renderers namesakes
                            ((fun f => {| meta_name := name f; rotation := 0;
                                          meta_pages := Some 1;
                                          thumb := None |})
                               <$> namesakes) ∅))
    by now rewrite Hrun.
  vm_compute in Hcards. injection Hcards as -> ->.
  split; [reflexivity|]. split; [reflexivity|].
  split; [|vm_compute; discriminate].
  apply (Hsame _ _ {| name := "scan.pdf"; read := [Byte.x01; Byte.x01] |}
           {| name := "scan.pdf"; read := [Byte.x02; Byte.x02] |});
    try reflexivity.
  - apply elem_of_cons. now left.
  - apply elem_of_cons. right. apply elem_of_cons. now left.
  - now split.
Defined.
